(** * Stock data synchroniser: shallow embedding and verified properties

    The development embeds the synchronisation code of the repository
    (database.py, data_fetcher.py, auto_updater.py, main.py) and proves
    or refutes the statements of its specification.

    Layout:
    - [Text]      : the string operations the code relies on
    - [Calendar]  : dates, [timedelta] arithmetic, [strftime], [strptime]
    - [Frames]    : cells and the column/row tables exchanged with pandas
    - [Store]     : the SQLite tables and the [StockDatabase] methods
    - [Effects]   : the world (store, trace), exceptions, the retry decorator
    - [Fetcher]   : [DataFetcher]
    - [Updater]   : [StockDataUpdater] and [main]
    - [Spec]      : the vocabulary of the statements
    - [Scenarios] : concrete providers and databases for the examples
    - [Reads]     : the read accessors of [StockDatabase]
    - [StoreFacts], [CalendarFacts], [EffectFacts], [FetcherFacts],
      [WatermarkFacts], [UpdaterFacts] : the results; those that settle a
      statement of the specification carry its number, C1 to C10
    - [ReadFacts], [CatalogFacts], [LoopFacts] : further properties of the
      code, numbered X1 onwards. *)

From Stdlib Require Import ZArith Lia Ascii String.
From stdpp Require Import base decidable option list gmap strings sorting.

Local Open Scope string_scope.
Local Open Scope list_scope.
Local Open Scope Z_scope.

(* ===================================================================== *)
(** ** Text *)
(* ===================================================================== *)

Module Text.

(** [sep in s] for a one-character [sep]. *)
Fixpoint contains (sep : ascii) (s : string) : bool :=
  match s with
  | EmptyString => false
  | String c s' => bool_decide (c = sep) || contains sep s'
  end.

(** [s.split(sep)] for a one-character separator: the pieces between the
    occurrences of [sep]; there is always at least one piece. *)
Fixpoint split (sep : ascii) (s : string) : list string :=
  match s with
  | EmptyString => [EmptyString]
  | String c s' =>
      if bool_decide (c = sep) then EmptyString :: split sep s'
      else match split sep s' with
           | [] => [String c EmptyString]
           | p :: ps => String c p :: ps
           end
  end.

(** Python compares [str] values code point by code point; on the byte
    strings used here that is [String.compare]. *)
Definition le (s t : string) : bool := String.leb s t.

Definition is_digit (c : ascii) : bool :=
  (48 <=? nat_of_ascii c)%nat && (nat_of_ascii c <=? 57)%nat.

Definition digit_val (c : ascii) : Z := Z.of_nat (nat_of_ascii c) - 48.

Definition digit (n : Z) : ascii := ascii_of_nat (48 + Z.to_nat n).

(** Zero-padded decimal rendering on two and on four positions. *)
Definition pad2 (n : Z) : string :=
  String (digit (n / 10)) (String (digit (n mod 10)) EmptyString).

Definition pad4 (n : Z) : string :=
  String (digit (n / 1000)) (String (digit (n / 100 mod 10)) (pad2 (n mod 100))).

Definition underscore : ascii := "_"%char.
Definition dash : ascii := "-"%char.

(** Text made of ASCII characters only.  On such text Python's [\d] and
    [int] read the digits 0 to 9 and nothing else. *)
Definition is_ascii (s : string) : bool :=
  forallb (fun c => (nat_of_ascii c <? 128)%nat) (list_ascii_of_string s).

(** [str(n)] for an integer: decimal digits, a minus sign in front of a
    negative one.  [fuel] bounds the number of digits. *)
Fixpoint decimal_digits (fuel : nat) (n : Z) (acc : string) : string :=
  match fuel with
  | O => acc
  | S fuel' =>
      let acc' := String (digit (n mod 10)) acc in
      if n <? 10 then acc' else decimal_digits fuel' (n / 10) acc'
  end.

Definition decimal (z : Z) : string :=
  let digits := decimal_digits (S (Z.to_nat (Z.log2 (Z.abs z)))) (Z.abs z) EmptyString in
  if z <? 0 then String dash digits else digits.

(** The white space of SQLite: tab, line feed, vertical tab, form feed,
    carriage return and space. *)
Definition is_space (c : ascii) : bool :=
  ((9 <=? nat_of_ascii c) && (nat_of_ascii c <=? 13) || (nat_of_ascii c =? 32))%nat.

Fixpoint skip_spaces (s : string) : string :=
  match s with
  | String c s' => if is_space c then skip_spaces s' else s
  | EmptyString => s
  end.

(** The digits a text starts with: the number they spell after [acc], how
    many they are, and the rest of the text. *)
Fixpoint read_digits (s : string) (acc : Z) (n : nat) : Z * nat * string :=
  match s with
  | String c s' =>
      if is_digit c then read_digits s' (acc * 10 + digit_val c) (S n) else (acc, n, s)
  | EmptyString => (acc, n, s)
  end.

(** An optional sign: whether it is a minus, and the rest of the text. *)
Definition read_sign (s : string) : bool * string :=
  match s with
  | String c s' =>
      if bool_decide (c = "-"%char) then (true, s')
      else if bool_decide (c = "+"%char) then (false, s')
      else (false, s)
  | EmptyString => (false, s)
  end.

(** How SQLite reads a text that is stored in a numeric column: not as a
    number, as an integer, or as a number with a fraction or an exponent. *)
Inductive numeric_form :=
| NotNumeric
| IntegerForm (z : Z)
| RealForm.

(** The syntax SQLite accepts there ([sqlite3AtoF]): white space, a sign,
    digits, a point and digits, an exponent with a sign and at least one
    digit, white space; at least one digit before the exponent, and
    nothing else. *)
Definition numeric_form_of (s : string) : numeric_form :=
  let '(negative, s1) := read_sign (skip_spaces s) in
  let '(i, ni, s2) := read_digits s1 0 0%nat in
  let '(fraction, nf, s3) :=
    match s2 with
    | String c r =>
        if bool_decide (c = "."%char)
        then let '(_, nf, r') := read_digits r 0 0%nat in (true, nf, r')
        else (false, 0%nat, s2)
    | EmptyString => (false, 0%nat, s2)
    end in
  let '(exponent, exponent_ok, s4) :=
    match s3 with
    | String c r =>
        if bool_decide (c = "e"%char) || bool_decide (c = "E"%char)
        then let '(_, ne, r') := read_digits (read_sign r).2 0 0%nat in
             (true, (0 <? ne)%nat, r')
        else (false, true, s3)
    | EmptyString => (false, true, s3)
    end in
  if bool_decide (skip_spaces s4 = EmptyString) && (0 <? ni + nf)%nat && exponent_ok
  then if fraction || exponent then RealForm
       else IntegerForm (if negative then - i else i)
  else NotNumeric.

End Text.

(* ===================================================================== *)
(** ** Calendar *)
(* ===================================================================== *)

Module Calendar.

(** The date part of a [datetime]; the code never looks at the time of day. *)
Record date := mkdate { year : Z; month : Z; day : Z }.

#[global] Instance date_eq_dec : EqDecision date.
Proof. solve_decision. Defined.

Definition is_leap (y : Z) : bool :=
  (y mod 4 =? 0) && (negb (y mod 100 =? 0) || (y mod 400 =? 0)).

Definition days_in_month (y m : Z) : Z :=
  if m =? 2 then (if is_leap y then 29 else 28)
  else if (m =? 4) || (m =? 6) || (m =? 9) || (m =? 11) then 30
  else 31.

(** The values [datetime] accepts: years 1 to 9999. *)
Definition date_ok (d : date) : bool :=
  (1 <=? year d) && (year d <=? 9999) &&
  (1 <=? month d) && (month d <=? 12) &&
  (1 <=? day d) && (day d <=? days_in_month (year d) (month d)).


(** [d + timedelta(days=1)]; [None] is Python's [OverflowError] past
    9999-12-31. *)
Definition next_day (d : date) : option date :=
  if day d <? days_in_month (year d) (month d)
  then Some (mkdate (year d) (month d) (day d + 1))
  else if month d <? 12 then Some (mkdate (year d) (month d + 1) 1)
  else if year d <? 9999 then Some (mkdate (year d + 1) 1 1)
  else None.

(** [d - timedelta(days=1)]; [None] before 0001-01-01. *)
Definition prev_day (d : date) : option date :=
  if 1 <? day d then Some (mkdate (year d) (month d) (day d - 1))
  else if 1 <? month d
  then Some (mkdate (year d) (month d - 1) (days_in_month (year d) (month d - 1)))
  else if 1 <? year d then Some (mkdate (year d - 1) 12 31)
  else None.

(** [d - timedelta(days=n)]. *)
Fixpoint sub_days (n : nat) (d : date) : option date :=
  match n with
  | O => Some d
  | S n' => match prev_day d with
            | Some d' => sub_days n' d'
            | None => None
            end
  end.


(** [d.strftime('%Y%m%d')] *)
Definition strftime_compact (d : date) : string :=
  Text.pad4 (year d) +:+ Text.pad2 (month d) +:+ Text.pad2 (day d).

(** [d.strftime('%Y-%m-%d')] *)
Definition strftime_iso (d : date) : string :=
  Text.pad4 (year d) +:+ "-" +:+ Text.pad2 (month d) +:+ "-" +:+ Text.pad2 (day d).

(** The pieces of the pattern [strptime] builds for ['%Y-%m-%d']:
    [%Y] is four digits, [%m] is [1[0-2]|0[1-9]|[1-9]] and [%d] is
    [3[01]|[12]\d|0[1-9]|[1-9]| [1-9]], alternatives tried in that order.
    Each parser returns the number read and the rest of the input. *)
Definition parse_Y (s : string) : option (Z * string) :=
  match s with
  | String a (String b (String c (String d r))) =>
      if Text.is_digit a && Text.is_digit b && Text.is_digit c && Text.is_digit d
      then Some (Text.digit_val a * 1000 + Text.digit_val b * 100
                 + Text.digit_val c * 10 + Text.digit_val d, r)
      else None
  | _ => None
  end.

Definition parse_m (s : string) : option (Z * string) :=
  match s with
  | String a r =>
      let one := if Text.is_digit a && negb (Text.digit_val a =? 0)
                 then Some (Text.digit_val a, r) else None in
      match r with
      | String b r' =>
          if (Text.digit_val a =? 1) && Text.is_digit b && (Text.digit_val b <=? 2)
          then Some (10 + Text.digit_val b, r')
          else if (Text.digit_val a =? 0) && Text.is_digit b && negb (Text.digit_val b =? 0)
          then Some (Text.digit_val b, r')
          else one
      | EmptyString => one
      end
  | EmptyString => None
  end.

Definition parse_d (s : string) : option (Z * string) :=
  match s with
  | String a r =>
      let one := if Text.is_digit a && negb (Text.digit_val a =? 0)
                 then Some (Text.digit_val a, r) else None in
      match r with
      | String b r' =>
          if (Text.digit_val a =? 3) && Text.is_digit b && (Text.digit_val b <=? 1)
          then Some (30 + Text.digit_val b, r')
          else if Text.is_digit a && (1 <=? Text.digit_val a) && (Text.digit_val a <=? 2)
                  && Text.is_digit b
          then Some (Text.digit_val a * 10 + Text.digit_val b, r')
          else if (Text.digit_val a =? 0) && Text.is_digit b && negb (Text.digit_val b =? 0)
          then Some (Text.digit_val b, r')
          else match one with
               | Some x => Some x
               | None =>
                   if bool_decide (a = " "%char) && Text.is_digit b
                      && negb (Text.digit_val b =? 0)
                   then Some (Text.digit_val b, r') else None
               end
      | EmptyString => one
      end
  | EmptyString => None
  end.

Definition expect (c : ascii) (s : string) : option string :=
  match s with
  | String a r => if bool_decide (a = c) then Some r else None
  | EmptyString => None
  end.

(** [datetime.strptime(s, '%Y-%m-%d')]; [None] is the [ValueError] raised
    when the text does not match, when text remains after the match, or
    when the numbers are not a date.  The digits read are 0 to 9, which
    is all that Python reads in ASCII text; in other text Python also
    reads the decimal digits of other scripts, so an answer [None] stands
    for the [ValueError] on ASCII text only ([Text.is_ascii]). *)
Definition strptime_iso (s : string) : option date :=
  match parse_Y s with
  | Some (y, s1) =>
      match expect Text.dash s1 with
      | Some s2 =>
          match parse_m s2 with
          | Some (m, s3) =>
              match expect Text.dash s3 with
              | Some s4 =>
                  match parse_d s4 with
                  | Some (d, EmptyString) =>
                      if date_ok (mkdate y m d) then Some (mkdate y m d) else None
                  | _ => None
                  end
              | None => None
              end
          | None => None
          end
      | None => None
      end
  | None => None
  end.

End Calendar.

(* ===================================================================== *)
(** ** Frames *)
(* ===================================================================== *)

Module Frames.

(** A cell of a DataFrame or of a table: [None]/NaN/NULL, text, or an
    integer.  The program never computes on the figures it moves, and
    cells with a fractional part are not represented. *)
Inductive value :=
| VNull
| VText (s : string)
| VNum (z : Z).

#[global] Instance value_eq_dec : EqDecision value.
Proof. solve_decision. Defined.

#[global] Instance value_countable : Countable value.
Proof.
  apply (inj_countable'
           (fun v => match v with
                     | VNull => inl ()
                     | VText s => inr (inl s)
                     | VNum z => inr (inr z)
                     end)
           (fun x => match x with
                     | inl _ => VNull
                     | inr (inl s) => VText s
                     | inr (inr z) => VNum z
                     end)).
  by intros [].
Defined.

(** Python truthiness of a cell. *)
Definition truthy (v : value) : bool :=
  match v with
  | VNull => false
  | VText s => negb (bool_decide (s = EmptyString))
  | VNum z => negb (z =? 0)
  end.

(** A DataFrame: column labels and rows of cells, one cell per column. *)
Record DataFrame := mkframe { columns : list string; rows : list (list value) }.

#[global] Instance frame_eq_dec : EqDecision DataFrame.
Proof. solve_decision. Defined.

(** [pd.DataFrame()] *)
Definition no_frame : DataFrame := mkframe [] [].

(** [df.empty]: some axis has length zero. *)
Definition empty (df : DataFrame) : bool :=
  bool_decide (columns df = []) || bool_decide (rows df = []).

(** [name in df.columns] *)
Definition has_column (name : string) (df : DataFrame) : bool :=
  bool_decide (name ∈ columns df).

(** The cells of one row that sit under the columns labelled [name]. *)
Fixpoint pick (name : string) (cols : list string) (cells : list value) : list value :=
  match cols, cells with
  | c :: cols', v :: cells' =>
      if bool_decide (c = name) then v :: pick name cols' cells' else pick name cols' cells'
  | _, _ => []
  end.

(** [row[name]] for a label that occurs once; a missing label reads as a
    missing value. *)
Definition cell (name : string) (cols : list string) (cells : list value) : value :=
  match pick name cols cells with
  | v :: _ => v
  | [] => VNull
  end.

(** [df[name].tolist()] *)
Definition column (name : string) (df : DataFrame) : list value :=
  map (cell name (columns df)) (rows df).

(** [df[names]]: the listed columns, in the listed order. *)
Definition select (names : list string) (df : DataFrame) : DataFrame :=
  mkframe (flat_map (fun n => filter (fun c => c = n) (columns df)) names)
          (map (fun r => flat_map (fun n => pick n (columns df) r) names) (rows df)).

(** Overwrites the cells under [name]. *)
Fixpoint overwrite (name : string) (v : value) (cols : list string) (cells : list value)
  : list value :=
  match cols, cells with
  | c :: cols', x :: cells' =>
      (if bool_decide (c = name) then v else x) :: overwrite name v cols' cells'
  | _, _ => cells
  end.

(** [df[name] = series], the series given by its value on each row: an
    existing column is overwritten in place, a new one is added last. *)
Definition assign_with (name : string) (f : list value -> value) (df : DataFrame)
  : DataFrame :=
  if has_column name df
  then mkframe (columns df) (map (fun r => overwrite name (f r) (columns df) r) (rows df))
  else mkframe (columns df ++ [name]) (map (fun r => r ++ [f r]) (rows df)).

(** [df[name] = v] for a scalar [v]. *)
Definition assign (name : string) (v : value) (df : DataFrame) : DataFrame :=
  assign_with name (fun _ => v) df.

(** The cells of one row that do not sit under one of [names]. *)
Fixpoint drop_cells (names cols : list string) (cells : list value) : list value :=
  match cols, cells with
  | c :: cols', v :: cells' =>
      if bool_decide (c ∈ names) then drop_cells names cols' cells'
      else v :: drop_cells names cols' cells'
  | _, _ => []
  end.

(** [df.drop(names, axis=1)] *)
Definition drop (names : list string) (df : DataFrame) : DataFrame :=
  mkframe (filter (fun c => c ∉ names) (columns df))
          (map (drop_cells names (columns df)) (rows df)).

(** [a.fillna(b)] on one cell. *)
Definition fillna (a b : value) : value :=
  match a with
  | VNull => b
  | _ => a
  end.

(** [df.rename(columns=mapping)] *)
Definition rename (mapping : list (string * string)) (df : DataFrame) : DataFrame :=
  mkframe (map (fun c => match list_find (fun kv => kv.1 = c) mapping with
                         | Some (_, (_, c')) => c'
                         | None => c
                         end) (columns df))
          (rows df).

(** [df.columns = names]: [None] is the [ValueError] on a length mismatch. *)
Definition set_columns (names : list string) (df : DataFrame) : option DataFrame :=
  if bool_decide (length names = length (columns df))
  then Some (mkframe names (rows df)) else None.

(** [df.iloc[:, [0, .., n-1]]] *)
Definition first_columns (n : nat) (df : DataFrame) : DataFrame :=
  mkframe (take n (columns df)) (map (take n) (rows df)).

(** [df.head(n)] *)
Definition head (n : Z) (df : DataFrame) : DataFrame :=
  mkframe (columns df)
          (if 0 <=? n then take (Z.to_nat n) (rows df)
           else take (length (rows df) - Z.to_nat (- n)) (rows df)).

(** pandas keeps a dtype per column and frames here keep cells only; a
    column is given the dtype pandas infers when it builds the column from
    its cells: a numeric dtype when no cell is text and some cell is a
    number, [object] otherwise (so also for a column of missing values
    only, as pandas builds it from [None]). *)
Definition numeric_dtype (cells : list value) : bool :=
  forallb (fun v => match v with VText _ => false | _ => true end) cells
  && existsb (fun v => match v with VNum _ => true | _ => false end) cells.

(** An [object] column that pandas takes for strings when it compares
    merge keys: no number among its cells. *)
Definition string_like (cells : list value) : bool :=
  forallb (fun v => match v with VNum _ => false | _ => true end) cells.

(** The check [pd.merge] makes on the key columns before it joins: a
    numeric column against a column of strings raises [ValueError]. *)
Definition merge_keys_clash (key : string) (left right : DataFrame) : bool :=
  (numeric_dtype (column key left) && string_like (column key right))
  || (string_like (column key left) && numeric_dtype (column key right)).

(** [pd.concat([a, b], ignore_index=True)] for frames that are either
    without columns or carry the same columns. *)
Definition concat (a b : DataFrame) : DataFrame :=
  if bool_decide (columns a = []) then b
  else if bool_decide (columns b = []) then a
  else mkframe (columns a) (rows a ++ rows b).

End Frames.

(* ===================================================================== *)
(** ** Store *)
(* ===================================================================== *)

Module Store.
Import Frames.

(** The exceptions that occur in the program. *)
Inductive exn :=
| ProviderError        (* whatever a call into the data provider raises *)
| ValueError
| TypeError
| OverflowError
| IndexError
| AttributeError
| IntegrityError       (* sqlite3: PRIMARY KEY / UNIQUE violated *)
| OperationalError     (* sqlite3: the statement does not fit the table *)
| ProgrammingError.    (* sqlite3: wrong number of bindings *)

#[global] Instance exn_eq_dec : EqDecision exn.
Proof. solve_decision. Defined.

Inductive result (A : Type) :=
| Ok (a : A)
| Err (e : exn).
Arguments Ok {A} a.
Arguments Err {A} e.

(** [stock_info(code PRIMARY KEY, name, industry, area, market, list_date)];
    the [updated_at] column is filled by SQLite and never read. *)
Record StockInfoRow := mkinfo {
  si_code : value; si_name : value; si_industry : value;
  si_area : value; si_market : value; si_list_date : value }.

(** [stock_prices(id AUTOINCREMENT, code, date, open, high, low, close,
    volume, amount, UNIQUE(code, date))] *)
Record PriceRow := mkprice {
  sp_id : Z; sp_code : value; sp_date : value; sp_open : value; sp_high : value;
  sp_low : value; sp_close : value; sp_volume : value; sp_amount : value }.

(** [stock_concepts(code, concept, PRIMARY KEY (code, concept))] *)
Record ConceptRow := mkconcept { sc_code : value; sc_concept : value }.

#[global] Instance info_eq_dec : EqDecision StockInfoRow.
Proof. solve_decision. Defined.
#[global] Instance price_eq_dec : EqDecision PriceRow.
Proof. solve_decision. Defined.
#[global] Instance concept_eq_dec : EqDecision ConceptRow.
Proof. solve_decision. Defined.

(** The committed content of the database file; [price_seq] is the
    AUTOINCREMENT counter of [stock_prices]. *)
Record Database := mkdb {
  stock_info : list StockInfoRow;
  stock_prices : list PriceRow;
  price_seq : Z;
  stock_concepts : list ConceptRow }.

#[global] Instance db_eq_dec : EqDecision Database.
Proof. solve_decision. Defined.

(** [init_database] on a fresh file. *)
Definition init_database : Database := mkdb [] [] 0 [].

(** SQLite never lets NULL take part in a uniqueness conflict. *)
Definition same_key (a b : value) : bool :=
  match a, b with
  | VNull, _ | _, VNull => false
  | _, _ => bool_decide (a = b)
  end.

Definition info_columns : list string :=
  ["code"; "name"; "industry"; "area"; "market"; "list_date"; "updated_at"].

Definition info_of_cells (cols : list string) (cells : list value) : StockInfoRow :=
  mkinfo (cell "code" cols cells) (cell "name" cols cells) (cell "industry" cols cells)
         (cell "area" cols cells) (cell "market" cols cells) (cell "list_date" cols cells).

(** Plain [INSERT] of rows into [stock_info], one after the other. *)
Fixpoint insert_infos (new : list StockInfoRow) (tbl : list StockInfoRow)
  : result (list StockInfoRow) :=
  match new with
  | [] => Ok tbl
  | r :: new' =>
      if existsb (fun old => same_key (si_code old) (si_code r)) tbl
      then Err IntegrityError
      else insert_infos new' (tbl ++ [r])
  end.

(** [stock_data.to_sql('stock_info', conn, if_exists='append', index=False)]:
    pandas names the frame's columns in its INSERT, runs it for every row
    inside one transaction, commits on success and rolls back on error. *)
Definition to_sql_stock_info (df : DataFrame) (tbl : list StockInfoRow)
  : result (list StockInfoRow) :=
  if forallb (fun c => bool_decide (c ∈ info_columns)) (columns df)
  then insert_infos (map (info_of_cells (columns df)) (rows df)) tbl
  else Err OperationalError.

(** [StockDatabase.save_stock_info]: DELETE, commit, then [to_sql]. *)
Definition save_stock_info (stock_data : DataFrame) (db : Database)
  : result unit * Database :=
  let cleared := mkdb [] (stock_prices db) (price_seq db) (stock_concepts db) in
  match to_sql_stock_info stock_data [] with
  | Ok tbl => (Ok (), mkdb tbl (stock_prices db) (price_seq db) (stock_concepts db))
  | Err e => (Err e, cleared)
  end.

(** The eight columns the INSERT of [save_stock_prices] names. *)
Definition price_insert_columns : list string :=
  ["code"; "date"; "open"; "high"; "low"; "close"; "volume"; "amount"].

(** The integers Python's [sqlite3] binds to a statement: those of 64
    bits; for any other it raises [OverflowError]. *)
Definition int64 (z : Z) : bool := (- 2 ^ 63 <=? z) && (z <? 2 ^ 63).

Definition bindable (v : value) : bool :=
  match v with
  | VNum z => int64 z
  | _ => true
  end.

(** The double nearest to an integer, ties going to the even significand
    of 53 bits: what a 64-bit integer becomes in a REAL column. *)
Definition to_double (z : Z) : Z :=
  let bits := Z.log2 (Z.abs z) + 1 in
  if bits <=? 53 then z
  else
    let shift := bits - 53 in
    let q := Z.shiftr (Z.abs z) shift in
    let r := Z.abs z - Z.shiftl q shift in
    let half := Z.shiftl 1 (shift - 1) in
    let q' := if (half <? r) || ((r =? half) && Z.odd q) then q + 1 else q in
    Z.sgn z * Z.shiftl q' shift.

(** What a bound value becomes in a column declared TEXT ([code],
    [date]): a number is stored as its decimal text. *)
Definition text_affinity (v : value) : value :=
  match v with
  | VNum z => VText (Text.decimal z)
  | _ => v
  end.

(** What a bound value becomes in a column declared REAL ([open] to
    [amount]): an integer is stored as the nearest double, and so is a
    text that spells a 64-bit integer; any other text is kept.  A text
    that spells a number with a fraction or an exponent, or an integer
    beyond 64 bits, is stored as a floating-point number that cells have
    no value for: it is left as it is here, and [exact_figure] marks the
    cells that are not of that kind. *)
Definition real_affinity (v : value) : value :=
  match v with
  | VNull => VNull
  | VNum z => VNum (to_double z)
  | VText s =>
      match Text.numeric_form_of s with
      | Text.IntegerForm z => if int64 z then VNum (to_double z) else VText s
      | _ => VText s
      end
  end.

(** The cells whose stored form [real_affinity] gives exactly. *)
Definition exact_figure (v : value) : bool :=
  match v with
  | VText s =>
      match Text.numeric_form_of s with
      | Text.NotNumeric => true
      | Text.IntegerForm z => int64 z
      | Text.RealForm => false
      end
  | _ => true
  end.

(** The cells a bound tuple leaves in the columns [code] to [amount]. *)
Definition stored (cells : list value) : list value :=
  match cells with
  | c :: d :: figures => text_affinity c :: text_affinity d :: map real_affinity figures
  | _ => cells
  end.

(** One [INSERT OR REPLACE INTO stock_prices (code, .., amount) VALUES
    (?, .., ?)]: the bound tuple fills the named columns by position, each
    value taking the form its column gives it; the rows that clash with
    the new one on [UNIQUE(code, date)] are deleted, and the new row takes
    the next id.  A tuple that does not bind exactly the eight
    placeholders raises [ProgrammingError], an integer beyond 64 bits
    [OverflowError]. *)
Definition insert_or_replace (cells : list value) (st : list PriceRow * Z)
  : result (list PriceRow * Z) :=
  match stored cells with
  | [c; d; o; h; l; cl; v; a] =>
      if forallb bindable cells
      then
        let keep := filter (fun old => negb (same_key (sp_code old) c
                                             && same_key (sp_date old) d)) st.1 in
        Ok (keep ++ [mkprice (st.2 + 1) c d o h l cl v a], st.2 + 1)
      else Err OverflowError
  | _ => Err ProgrammingError
  end.

(** [cursor.executemany(query, data_tuples)] *)
Fixpoint executemany (tuples : list (list value)) (st : list PriceRow * Z)
  : result (list PriceRow * Z) :=
  match tuples with
  | [] => Ok st
  | t :: tuples' =>
      match insert_or_replace t st with
      | Ok st' => executemany tuples' st'
      | Err e => Err e
      end
  end.

(** [StockDatabase.save_stock_prices]: the statement carries one
    placeholder per column of the frame and names eight columns, so
    SQLite refuses to prepare it unless the frame has eight columns;
    nothing is committed when an error is raised. *)
Definition save_stock_prices (price_data : DataFrame) (db : Database)
  : result unit * Database :=
  if empty price_data then (Ok (), db)
  else if bool_decide (length (columns price_data) = length price_insert_columns)
  then match executemany (rows price_data) (stock_prices db, price_seq db) with
       | Ok (tbl, seq) => (Ok (), mkdb (stock_info db) tbl seq (stock_concepts db))
       | Err e => (Err e, db)
       end
  else (Err OperationalError, db).

Definition concept_columns : list string := ["code"; "concept"].

Definition concept_of_cells (cols : list string) (cells : list value) : ConceptRow :=
  mkconcept (cell "code" cols cells) (cell "concept" cols cells).

(** Plain [INSERT] of rows into [stock_concepts]. *)
Fixpoint insert_concepts (new : list ConceptRow) (tbl : list ConceptRow)
  : result (list ConceptRow) :=
  match new with
  | [] => Ok tbl
  | r :: new' =>
      if existsb (fun old => same_key (sc_code old) (sc_code r)
                             && same_key (sc_concept old) (sc_concept r)) tbl
      then Err IntegrityError
      else insert_concepts new' (tbl ++ [r])
  end.

(** [StockDatabase.save_stock_concepts]:
    [concept_data.to_sql('stock_concepts', conn, if_exists='append',
    index=False, method='multi')], a plain multi-row INSERT in one
    transaction. *)
Definition save_stock_concepts (concept_data : DataFrame) (db : Database)
  : result unit * Database :=
  if empty concept_data then (Ok (), db)
  else if forallb (fun c => bool_decide (c ∈ concept_columns)) (columns concept_data)
  then match insert_concepts (map (concept_of_cells (columns concept_data))
                                  (rows concept_data)) (stock_concepts db) with
       | Ok tbl => (Ok (), mkdb (stock_info db) (stock_prices db) (price_seq db) tbl)
       | Err e => (Err e, db)
       end
  else (Err OperationalError, db).

(** SQLite's order on stored values, as [MAX] uses it: NULL first, then
    numbers, then text compared byte by byte. *)
Definition value_leb (a b : value) : bool :=
  match a, b with
  | VNull, _ => true
  | _, VNull => false
  | VNum x, VNum y => x <=? y
  | VNum _, VText _ => true
  | VText _, VNum _ => false
  | VText s, VText t => Text.le s t
  end.

Definition value_max (a b : value) : value := if value_leb a b then b else a.

(** [MAX(date)] over the price rows of one code; NULL when there is none. *)
Definition latest_date_of (code : value) (tbl : list PriceRow) : value :=
  foldr value_max VNull
        (map sp_date (filter (fun r => sp_code r = code) tbl)).

(** Modelled from the spec: [StockDatabase.get_all_stocks_latest_dates] is
    called by [download_all_stocks_data] and is not defined in database.py
    nor anywhere else in the repository.  Following section 4.1 (the
    latest stored price date of every instrument, computed in bulk in one
    pass) and the caller, which reads the columns [code] and
    [latest_date] of the result, it is the frame of one row per code that
    has price rows, holding that code and the maximum of its stored
    dates. *)
Definition get_all_stocks_latest_dates (db : Database) : DataFrame :=
  mkframe ["code"; "latest_date"]
          (map (fun c => [c; latest_date_of c (stock_prices db)])
               (remove_dups (map sp_code (stock_prices db)))).

End Store.

(* ===================================================================== *)
(** ** Effects *)
(* ===================================================================== *)

Module Effects.
Import Frames Store Calendar.

(** The calls into the data provider (akshare). *)
Inductive request :=
| stock_info_a_code_name
| stock_info_sh_name_code
| stock_info_sz_name_code
| stock_zh_a_stock_ipo (symbol : value)
| stock_zh_a_hist (symbol : value) (start_date end_date : string)
| stock_board_concept_name_ths
| stock_board_concept_cons_ths (symbol : value).

Inductive db_method :=
| SaveStockInfo
| SaveStockPrices
| SaveStockConcepts
| GetAllStocksLatestDates.

(** What a run does to the outside, in order: provider calls, blocking
    sleeps, calls of [StockDatabase] methods, and the summary line with
    the success and failure counts. *)
Inductive event :=
| Call (r : request)
| Sleep (seconds : Z)
| Db (m : db_method)
| Summary (success_count failed_count : nat).

#[global] Instance request_eq_dec : EqDecision request.
Proof. solve_decision. Defined.
#[global] Instance db_method_eq_dec : EqDecision db_method.
Proof. solve_decision. Defined.
#[global] Instance event_eq_dec : EqDecision event.
Proof. solve_decision. Defined.

Inductive outcome :=
| Returns (df : DataFrame)
| Raises (e : exn).

(** The environment of a run.  The provider answers a request knowing all
    that happened before (newest event first), so it may fail on one
    attempt and answer on the next; [now] is the wall clock;
    [set_rank l] gives the position each element of [set(l)] takes when
    the set is iterated.

    [latest_dates_method] is what the attribute
    [get_all_stocks_latest_dates] of a [StockDatabase] resolves to.
    database.py defines no method of that name, so the repository as it
    stands is [None]; [Some q] is the class completed with a query [q]. *)
Record Env := mkenv {
  provider : list event -> request -> outcome;
  now : list event -> date;
  set_rank : list value -> value -> nat;
  latest_dates_method : option (Database -> DataFrame) }.

(** The state a run works on: the database and the events so far, newest
    first. *)
Record World := mkworld { store : Database; trace : list event }.

(** Computations that may raise and that change the world. *)
Definition M (A : Type) : Type := World -> result A * World.

Definition ret {A} (a : A) : M A := fun w => (Ok a, w).

Definition bind {A B} (m : M A) (k : A -> M B) : M B :=
  fun w => match m w with
           | (Ok a, w') => k a w'
           | (Err e, w') => (Err e, w')
           end.

Definition raise {A} (e : exn) : M A := fun w => (Err e, w).

(** [try: m  except Exception as e: h e] *)
Definition try_except {A} (m : M A) (h : exn -> M A) : M A :=
  fun w => match m w with
           | (Ok a, w') => (Ok a, w')
           | (Err e, w') => h e w'
           end.

Definition emit (ev : event) : M unit :=
  fun w => (Ok (), mkworld (store w) (ev :: trace w)).

(** [time.sleep(seconds)] *)
Definition sleep (seconds : Z) : M unit := emit (Sleep seconds).

(** A method of [self.db], run on the store. *)
Definition db_call {A} (m : db_method) (f : Database -> result A * Database) : M A :=
  fun w => let '(r, db') := f (store w) in (r, mkworld db' (Db m :: trace w)).

Definition of_option {A} (e : exn) (o : option A) : M A :=
  match o with
  | Some a => ret a
  | None => raise e
  end.

Declare Scope monad_scope.
Delimit Scope monad_scope with monad.
Notation "x <- m ;; k" := (bind m (fun x => k))
  (at level 100, m at next level, right associativity) : monad_scope.
Notation "m ;;; k" := (bind m (fun _ => k))
  (at level 100, right associativity) : monad_scope.
Local Open Scope monad_scope.

(** The loop of the [retry] package behind
    [@retry(Exception, tries, delay, backoff)]: call [f]; when it raises
    and attempts remain, sleep [delay], multiply the delay by [backoff]
    and call again; the exception of the last attempt is re-raised.  With
    [tries = 0] the package never calls [f] and hands back [None], on which
    the callers' attribute access fails; the decorators of this program
    fix [tries = 3]. *)
Fixpoint retry_internal {A} (f : M A) (tries : nat) (delay backoff : Z) : M A :=
  match tries with
  | O => raise AttributeError
  | S n =>
      fun w => match f w with
               | (Ok a, w') => (Ok a, w')
               | (Err e, w') =>
                   match n with
                   | O => (Err e, w')
                   | S _ => (sleep delay ;;; retry_internal f n (delay * backoff) backoff) w'
                   end
               end
  end.

(** [for i, row in enumerate(rows)], threading the loop's local state. *)
Fixpoint for_rows {St A} (body : nat -> A -> St -> M St) (i : nat) (l : list A) (s : St)
  : M St :=
  match l with
  | [] => ret s
  | r :: l' => s' <- body i r s ;; for_rows body (S i) l' s'
  end.

Section WithEnv.
Context (env : Env).

(** A call into the provider: recorded, then answered by the environment. *)
Definition call (r : request) : M DataFrame :=
  fun w => let w' := mkworld (store w) (Call r :: trace w) in
           match provider env (trace w) r with
           | Returns df => (Ok df, w')
           | Raises e => (Err e, w')
           end.

(** [datetime.now()] *)
Definition today : M date := fun w => (Ok (now env (trace w)), w).

(** Stable insertion by rank. *)
Fixpoint insert_ranked (rank : value -> nat) (x : value) (l : list value) : list value :=
  match l with
  | [] => [x]
  | y :: l' => if (rank x <? rank y)%nat then x :: y :: l'
               else y :: insert_ranked rank x l'
  end.

(** [list(set(l))]: the distinct elements of [l], in the order the
    environment iterates that set. *)
Definition list_of_set (l : list value) : list value :=
  foldr (insert_ranked (set_rank env l)) [] (remove_dups l).

End WithEnv.

End Effects.

(* ===================================================================== *)
(** ** Fetcher: data_fetcher.py *)
(* ===================================================================== *)

Module Fetcher.
Import Frames Store Calendar Effects.
Local Open Scope monad_scope.

(** [DataFetcher.__init__] keeps its two settings; the database handle
    [self.db] is the store of the world. *)
Record DataFetcher := mkfetcher { max_retries : Z; retry_delay : Z }.

(** The arguments written in the three decorators
    [@retry(Exception, tries=3, delay=2, backoff=2)]. *)
Definition decorator_tries : nat := 3.
Definition decorator_delay : Z := 2.
Definition decorator_backoff : Z := 2.

Section WithEnv.
Context (env : Env).

Definition retry {A} (f : M A) : M A :=
  retry_internal f decorator_tries decorator_delay decorator_backoff.

(** An exchange feed as [fetch_stock_list] keeps it: its first four
    columns, relabelled, plus the market; anything else counts as no
    enrichment. *)
Definition exchange_frame (market : string) (df : DataFrame) : DataFrame :=
  if negb (empty df) && bool_decide (4 <= length (columns df))%nat
  then assign "market" (VText market)
         (mkframe ["code"; "name"; "industry"; "area"] (rows (first_columns 4 df)))
  else no_frame.

(** The frame [pd.merge(stock_list, stock_info, on='code', how='left')]
    builds once the key columns have passed its check: every row of the
    list, once per matching row of the enrichment, or once with missing
    values; the two [name] columns come out as [name_x], [name_y]. *)
Definition merge_on_code (stock_list stock_info : DataFrame) : DataFrame :=
  mkframe ["code"; "name_x"; "name_y"; "industry"; "area"; "market"]
    (flat_map
       (fun l =>
          let c := cell "code" (columns stock_list) l in
          let n := cell "name" (columns stock_list) l in
          match filter (fun r => cell "code" (columns stock_info) r = c) (rows stock_info) with
          | [] => [[c; n; VNull; VNull; VNull; VNull]]
          | ms => map (fun r => [c; n;
                                 cell "name" (columns stock_info) r;
                                 cell "industry" (columns stock_info) r;
                                 cell "area" (columns stock_info) r;
                                 cell "market" (columns stock_info) r]) ms
          end)
       (rows stock_list)).

(** [result['name'] = result['name_x'].fillna(result['name_y'])] followed
    by dropping the two source columns. *)
Definition prefer_primary_name (result : DataFrame) : DataFrame :=
  if has_column "name_x" result && has_column "name_y" result
  then drop ["name_x"; "name_y"]
         (assign_with "name"
            (fun r => fillna (cell "name_x" (columns result) r)
                             (cell "name_y" (columns result) r))
            result)
  else result.

(** One attempt of [fetch_stock_list]. *)
Definition fetch_stock_list_once (self : DataFetcher) : M DataFrame :=
  stock_list <- call env stock_info_a_code_name ;;
  if empty stock_list then ret no_frame
  else
    stock_list <- of_option ValueError (set_columns ["code"; "name"] stock_list) ;;
    stock_info_sh <- try_except
                       (df <- call env stock_info_sh_name_code ;; ret (exchange_frame "SH" df))
                       (fun _ => ret no_frame) ;;
    stock_info_sz <- try_except
                       (df <- call env stock_info_sz_name_code ;; ret (exchange_frame "SZ" df))
                       (fun _ => ret no_frame) ;;
    let stock_info := concat stock_info_sh stock_info_sz in
    result <- (if negb (empty stock_info)
               then if merge_keys_clash "code" stock_list stock_info
                    then raise ValueError
                    else ret (prefer_primary_name (merge_on_code stock_list stock_info))
               else ret (assign "market" VNull
                           (assign "area" VNull (assign "industry" VNull stock_list)))) ;;
    list_date <- try_except
                   ((if negb (empty result)
                     then call env (stock_zh_a_stock_ipo
                                      (hd VNull (column "code" result)))
                     else ret no_frame) ;;;
                    d <- today env ;; ret (strftime_iso d))
                   (fun _ => d <- today env ;; ret (strftime_iso d)) ;;
    ret (assign "list_date" (VText list_date) result).

(** [DataFetcher.fetch_stock_list], decorated. *)
Definition fetch_stock_list (self : DataFetcher) : M DataFrame :=
  retry (fetch_stock_list_once self).

Definition column_mapping : list (string * string) :=
  [("日期", "date"); ("开盘", "open"); ("最高", "high"); ("最低", "low");
   ("收盘", "close"); ("成交量", "volume"); ("成交额", "amount");
   ("涨跌幅", "pct_change"); ("换手率", "turnover_rate")].

Definition required_columns : list string :=
  ["code"; "date"; "open"; "high"; "low"; "close"; "volume"].

Definition optional_columns : list string := ["amount"; "pct_change"; "turnover_rate"].

(** The date range [fetch_stock_prices] derives from [period], as the two
    strings handed to the provider. *)
Definition date_range (period : string) : M (string * string) :=
  let back (n : nat) : M (string * string) :=
    end_date <- today env ;;
    start_date <- of_option OverflowError (sub_days n end_date) ;;
    ret (strftime_compact start_date, strftime_compact end_date) in
  if bool_decide (period = "1year") then back 365%nat
  else if bool_decide (period = "3year") then back 1095%nat
  else if bool_decide (period = "5year") then back 1825%nat
  else if bool_decide (period = "all")
  then end_date <- today env ;; ret ("19900101", strftime_compact end_date)
  else if Text.contains Text.underscore period
  then start_date <- of_option IndexError (Text.split Text.underscore period !! 0%nat) ;;
       end_date <- of_option IndexError (Text.split Text.underscore period !! 1%nat) ;;
       ret (start_date, end_date)
  else end_date <- today env ;; ret ("20200101", strftime_compact end_date).

(** The reshaping of a non-empty provider answer in [fetch_stock_prices]. *)
Definition canonical_prices (code : value) (df : DataFrame) : DataFrame :=
  let df := rename column_mapping df in
  let df := assign "code" code df in
  let available_columns := filter (fun c => c ∈ columns df) required_columns in
  let df := foldl (fun d c => if has_column c d then d else assign c VNull d)
                  df required_columns in
  select (available_columns ++ filter (fun c => c ∈ columns df) optional_columns) df.

(** One attempt of [fetch_stock_prices]. *)
Definition fetch_stock_prices_once (self : DataFetcher) (code : value) (period : string)
  : M DataFrame :=
  range <- date_range period ;;
  df <- call env (stock_zh_a_hist code range.1 range.2) ;;
  if negb (empty df) then ret (canonical_prices code df) else ret df.

(** [DataFetcher.fetch_stock_prices], decorated. *)
Definition fetch_stock_prices (self : DataFetcher) (code : value) (period : string)
  : M DataFrame :=
  retry (fetch_stock_prices_once self code period).

(** The loop over [concept_methods]: the first answer that is not empty;
    a method that raises is skipped. *)
Fixpoint first_answer (methods : list request) : M DataFrame :=
  match methods with
  | [] => ret no_frame
  | m :: ms =>
      temp <- try_except (df <- call env m ;; ret (Some df)) (fun _ => ret None) ;;
      match temp with
      | Some df => if negb (empty df) then ret df else first_answer ms
      | None => first_answer ms
      end
  end.

(** One attempt of [fetch_stock_concepts]. *)
Definition fetch_stock_concepts_once (self : DataFetcher) (code : value) : M DataFrame :=
  concept_df <- first_answer [stock_board_concept_name_ths;
                              stock_board_concept_cons_ths code;
                              stock_board_concept_name_ths] ;;
  if negb (empty concept_df)
  then
    let concepts :=
      if has_column "概念名称" concept_df then column "概念名称" concept_df
      else if has_column "concept_name" concept_df then column "concept_name" concept_df
      else if has_column "板块名称" concept_df then column "板块名称" concept_df
      else [] in
    let concepts := take 10 (list_of_set env concepts) in
    match concepts with
    | [] => ret no_frame
    | _ => ret (mkframe ["code"; "concept"] (map (fun c => [code; c]) concepts))
    end
  else ret no_frame.

(** [DataFetcher.fetch_stock_concepts], decorated. *)
Definition fetch_stock_concepts (self : DataFetcher) (code : value) : M DataFrame :=
  retry (fetch_stock_concepts_once self code).

(** The pause after every fifth instrument that is not the last. *)
Definition rate_limit (i total_stocks : nat) : M unit :=
  if ((i + 1) mod 5 =? 0)%nat && (i + 1 <? total_stocks)%nat then sleep 3 else ret ().

(** Price step shared by the loops: fetch, store what is not empty, and
    log whatever is raised. *)
Definition update_prices (self : DataFetcher) (code : value) (period : string) : M unit :=
  try_except
    (prices <- fetch_stock_prices self code period ;;
     if negb (empty prices) then db_call SaveStockPrices (save_stock_prices prices)
     else ret ())
    (fun _ => ret ()).

(** Concept step shared by the loops. *)
Definition update_concepts (self : DataFetcher) (code : value) : M unit :=
  try_except
    (concepts <- fetch_stock_concepts self code ;;
     if negb (empty concepts) then db_call SaveStockConcepts (save_stock_concepts concepts)
     else ret ())
    (fun _ => ret ()).

(** The body of the loop of [update_all_data]; the state is
    [(success_count, failed_count)].  Nothing after the increment of
    [success_count] can raise, so the outer handler starts from the counts
    the iteration began with. *)
Definition update_one (self : DataFetcher) (price_period : string) (cols : list string)
    (total_stocks i : nat) (row : list value) (counts : nat * nat) : M (nat * nat) :=
  let code := cell "code" cols row in
  try_except
    (update_prices self code price_period ;;;
     update_concepts self code ;;;
     rate_limit i total_stocks ;;;
     ret (S counts.1, counts.2))
    (fun _ => ret (counts.1, S counts.2)).

(** [DataFetcher.update_all_data]; it returns [None] on every path. *)
Definition update_all_data (self : DataFetcher) (stock_limit : option Z)
    (price_period : string) : M unit :=
  fetched <- try_except
               (stock_list <- fetch_stock_list self ;;
                if negb (empty stock_list)
                then db_call SaveStockInfo (save_stock_info stock_list) ;;; ret (Some stock_list)
                else ret None)
               (fun _ => ret None) ;;
  match fetched with
  | None => ret ()
  | Some stock_list =>
      if negb (empty stock_list)
      then
        let stocks_to_process :=
          match stock_limit with
          | Some n => if n =? 0 then stock_list else head n stock_list
          | None => stock_list
          end in
        let total_stocks := length (rows stocks_to_process) in
        counts <- for_rows (update_one self price_period (columns stocks_to_process)
                                       total_stocks)
                           0%nat (rows stocks_to_process) (0%nat, 0%nat) ;;
        emit (Summary counts.1 counts.2)
      else ret ()
  end.

End WithEnv.

End Fetcher.

(* ===================================================================== *)
(** ** Updater: auto_updater.py and main.py *)
(* ===================================================================== *)

Module Updater.
Import Frames Store Calendar Effects Fetcher.
Local Open Scope monad_scope.

(** [StockDataUpdater.__init__] builds [DataFetcher(self.db)], that is
    with the default settings. *)
Record StockDataUpdater := mkupdater { fetcher : DataFetcher }.

Definition new_updater : StockDataUpdater := mkupdater (mkfetcher 3 5).

(** [{row['code']: row['latest_date'] for _, row in df.iterrows()}] *)
Definition latest_dates_dict (df : DataFrame) : gmap value value :=
  foldl (fun m r => <[cell "code" (columns df) r := cell "latest_date" (columns df) r]> m)
        ∅ (rows df).

(** [datetime.strptime(v, '%Y-%m-%d')] on a cell. *)
Definition strptime (v : value) : M date :=
  match v with
  | VText s => of_option ValueError (strptime_iso s)
  | _ => raise TypeError
  end.

Section WithEnv.
Context (env : Env).

(** The price step of the incremental loop for one instrument: with a
    watermark, fetch from the day after it through today unless that day
    is past today; without one, fetch [price_period]. *)
Definition plan_and_fetch (self : StockDataUpdater) (price_period : string)
    (latest_dates : gmap value value) (code : value) : M unit :=
  match latest_dates !! code with
  | Some latest_date =>
      if truthy latest_date
      then
        latest_date_obj <- strptime latest_date ;;
        next_day_obj <- of_option OverflowError (next_day latest_date_obj) ;;
        let next_day_str := strftime_compact next_day_obj in
        now_obj <- today env ;;
        let today_str := strftime_compact now_obj in
        if Text.le next_day_str today_str
        then update_prices env (fetcher self) code (next_day_str +:+ "_" +:+ today_str)
        else ret ()
      else update_prices env (fetcher self) code price_period
  | None => update_prices env (fetcher self) code price_period
  end.

(** The body of the incremental loop; the state is
    [(success_count, failed_count)]. *)
Definition refresh_one (self : StockDataUpdater) (price_period : string)
    (latest_dates : gmap value value) (cols : list string)
    (total_stocks i : nat) (row : list value) (counts : nat * nat) : M (nat * nat) :=
  let code := cell "code" cols row in
  try_except
    (plan_and_fetch self price_period latest_dates code ;;;
     update_concepts env (fetcher self) code ;;;
     rate_limit i total_stocks ;;;
     ret (S counts.1, counts.2))
    (fun _ => ret (counts.1, S counts.2)).

(** [self.db.get_all_stocks_latest_dates()]: the attribute lookup raises
    [AttributeError] on a class without the method. *)
Definition call_latest_dates : M DataFrame :=
  match latest_dates_method env with
  | Some query => db_call GetAllStocksLatestDates (fun db => (Ok (query db), db))
  | None => raise AttributeError
  end.

(** The incremental branch of [download_all_stocks_data]. *)
Definition download_incremental (self : StockDataUpdater) (price_period : string) : M bool :=
  stock_list <- fetch_stock_list env (fetcher self) ;;
  if empty stock_list then ret false
  else
    db_call SaveStockInfo (save_stock_info stock_list) ;;;
    latest_dates_df <- call_latest_dates ;;
    let latest_dates := latest_dates_dict latest_dates_df in
    let total_stocks := length (rows stock_list) in
    counts <- for_rows (refresh_one self price_period latest_dates (columns stock_list)
                                    total_stocks)
                       0%nat (rows stock_list) (0%nat, 0%nat) ;;
    emit (Summary counts.1 counts.2) ;;;
    ret true.

(** [StockDataUpdater.download_all_stocks_data] *)
Definition download_all_stocks_data (self : StockDataUpdater) (price_period : string)
    (incremental : bool) : M bool :=
  try_except
    (if negb incremental
     then update_all_data env (fetcher self) None price_period ;;; ret true
     else download_incremental self price_period)
    (fun _ => ret false).

(** [StockDataUpdater.update_daily_data] *)
Definition update_daily_data (self : StockDataUpdater) : M bool :=
  try_except (download_all_stocks_data self "all" true) (fun _ => ret false).

(** The command-line settings [main] reads. *)
Record Args := mkargs {
  arg_stock_limit : Z; arg_price_period : string;
  arg_max_retries : Z; arg_retry_delay : Z }.

(** The body of the loop of [main]: the two fetches share one handler. *)
Definition main_one (fetcher : DataFetcher) (price_period : string) (cols : list string)
    (i : nat) (row : list value) (counts : nat * nat) : M (nat * nat) :=
  let code := cell "code" cols row in
  try_except
    (price_data <- fetch_stock_prices env fetcher code price_period ;;
     (if negb (empty price_data)
      then db_call SaveStockPrices (save_stock_prices price_data) else ret ()) ;;;
     concept_data <- fetch_stock_concepts env fetcher code ;;
     (if negb (empty concept_data)
      then db_call SaveStockConcepts (save_stock_concepts concept_data) else ret ()) ;;;
     sleep 1 ;;;
     ret (S counts.1, counts.2))
    (fun _ => ret (counts.1, S counts.2)).

(** [main] of main.py, after argument parsing; an exception that escapes
    is logged and raised again. *)
Definition main (args : Args) : M unit :=
  let fetcher := mkfetcher (arg_max_retries args) (arg_retry_delay args) in
  stock_list <- fetch_stock_list env fetcher ;;
  if negb (empty stock_list)
  then
    let stock_list := if 0 <? arg_stock_limit args
                      then head (arg_stock_limit args) stock_list else stock_list in
    db_call SaveStockInfo (save_stock_info stock_list) ;;;
    counts <- for_rows (main_one fetcher (arg_price_period args) (columns stock_list))
                       0%nat (rows stock_list) (0%nat, 0%nat) ;;
    emit (Summary counts.1 counts.2)
  else ret ().

End WithEnv.

End Updater.

(* ===================================================================== *)
(** ** Vocabulary of the statements *)
(* ===================================================================== *)

Module Spec.
Import Frames Store Calendar Effects Fetcher Updater.
Local Open Scope monad_scope.

(** The stored price rows of one (code, date) pair. *)
Definition rows_at (c d : value) (tbl : list PriceRow) : list PriceRow :=
  filter (fun r => sp_code r = c ∧ sp_date r = d) tbl.


(** The store after a sequence of [save_stock_prices] calls, whatever
    each of them answers. *)
Definition save_all (batches : list DataFrame) (db : Database) : Database :=
  foldl (fun db df => (save_stock_prices df db).2) db batches.

(** A frame of one price point, laid out as the INSERT names its columns. *)
Definition price_point (c d o h l cl v a : value) : DataFrame :=
  mkframe price_insert_columns [[c; d; o; h; l; cl; v; a]].

(** What a price row holds besides its id. *)
Definition content (r : PriceRow) : list value :=
  [sp_code r; sp_date r; sp_open r; sp_high r; sp_low r; sp_close r; sp_volume r;
   sp_amount r].





(** Section 3 of the specification: the watermark of a code is the
    maximum date of its price rows, and there is none when it has no row. *)
Definition is_watermark (tbl : list PriceRow) (code : value) (o : option value) : Prop :=
  match o with
  | None => ∀ r, r ∈ tbl → sp_code r ≠ code
  | Some d =>
      (∃ r, r ∈ tbl ∧ sp_code r = code ∧ sp_date r = d)
      ∧ ∀ r, r ∈ tbl → sp_code r = code → value_leb (sp_date r) d = true
  end.

(** The events a computation adds to the trace, newest first;
    the trace only ever grows at its head. *)
Definition new_events {A} (m : M A) (w : World) : list event :=
  take (length (trace (m w).2) - length (trace w)) (trace (m w).2).

Definition is_price_request (ev : event) : bool :=
  match ev with
  | Call (stock_zh_a_hist _ _ _) => true
  | _ => false
  end.

Definition is_instrument_request (ev : event) : bool :=
  match ev with
  | Call (stock_zh_a_hist _ _ _)
  | Call stock_board_concept_name_ths
  | Call (stock_board_concept_cons_ths _) => true
  | _ => false
  end.



Definition is_summary (ev : event) : bool :=
  match ev with
  | Summary _ _ => true
  | _ => false
  end.

Definition is_watermark_query (ev : event) : bool :=
  bool_decide (ev = Db GetAllStocksLatestDates).

(** Events of the catalog stage: neither a watermark query nor a request
    about one instrument. *)
Definition catalog_event (ev : event) : Prop :=
  is_watermark_query ev = false ∧ is_instrument_request ev = false.

Definition no_watermark_query (ev : event) : Prop := is_watermark_query ev = false.

(** [emits P m]: running [m] only adds events, all of them in [P]. *)
Definition emits {A} (P : event → Prop) (m : M A) : Prop :=
  ∀ w, ∃ evs, trace (m w).2 = evs ++ trace w ∧ Forall P evs.


(** [total m]: [m] never raises. *)
Definition total {A} (m : M A) : Prop := ∀ w, ∃ a, (m w).1 = Ok a.

(** [keeps_store m]: [m] never changes the database. *)
Definition keeps_store {A} (m : M A) : Prop := ∀ w, store (m w).2 = store w.

(** Lexicographic combination of comparisons. *)
Definition then_cmp (c d : comparison) : comparison :=
  match c with
  | Eq => d
  | _ => c
  end.

(** The frames [fetch_stock_concepts] can hand back. *)
Definition capped (code : value) (df : DataFrame) : Prop :=
  (length (rows df) ≤ 10)%nat
  ∧ NoDup (column "concept" df)
  ∧ ∀ r, r ∈ rows df → ∃ c, r = [code; c].

(** The three attempts of a list fetch that never answers, newest first. *)
Definition list_attempts : list event :=
  [Call stock_info_a_code_name; Sleep 4; Call stock_info_a_code_name; Sleep 2;
   Call stock_info_a_code_name].



(** The run from the moment the catalog is stored, for a [StockDatabase]
    that has the bulk query of the specification: that one query, then
    the loop over the catalog with the dictionary built from its answer. *)
Definition after_catalog env (self : StockDataUpdater) (price_period : string)
    (stock_list : DataFrame) (w2 : World) : result bool * World :=
  let latest_dates := latest_dates_dict (get_all_stocks_latest_dates (store w2)) in
  try_except
    (counts <- for_rows (refresh_one env self price_period latest_dates
                                     (columns stock_list) (length (rows stock_list)))
                        0%nat (rows stock_list) (0%nat, 0%nat) ;;
     emit (Summary counts.1 counts.2) ;;; ret true)
    (fun _ => ret false)
    (mkworld (store w2) (Db GetAllStocksLatestDates :: trace w2)).

End Spec.

(* ===================================================================== *)
(** ** Scenarios used by the examples *)
(* ===================================================================== *)

Module Scenarios.
Import Frames Store Calendar Effects Fetcher Updater Spec.

Definition monday : date := mkdate 2024 1 15.

(** A provider that is down: every call raises. *)
Definition down_env : Env :=
  mkenv (fun _ _ => Raises ProviderError) (fun _ => monday) (fun _ _ => 0%nat) None.

(** One day of history as the provider lays it out. *)
Definition history (day : string) (close : Z) : DataFrame :=
  mkframe ["日期"; "开盘"; "最高"; "最低"; "收盘"; "成交量"; "成交额"]
    [[VText day; VNum 10; VNum 12; VNum 9; VNum close; VNum 1000; VNum 11000]].

(** Three instruments A, B, C; the price history of B raises on every
    call, the histories of A and C are served; the exchange feeds are
    down; one concept board is known. *)
Definition abc_provider (r : request) : outcome :=
  match r with
  | stock_info_a_code_name =>
      Returns (mkframe ["code"; "name"]
                 [[VText "A"; VText "Alpha"]; [VText "B"; VText "Beta"];
                  [VText "C"; VText "Gamma"]])
  | stock_zh_a_hist (VText "B") _ _ => Raises ProviderError
  | stock_zh_a_hist _ _ _ => Returns (history "2024-01-12" 11)
  | stock_board_concept_name_ths => Returns (mkframe ["概念名称"] [[VText "AI"]])
  | _ => Raises ProviderError
  end.

(** That provider with the repository as it stands. *)
Definition abc_repository : Env :=
  mkenv (fun _ => abc_provider) (fun _ => monday) (fun _ _ => 0%nat) None.

(** That provider with a [StockDatabase] completed by the bulk query of
    the specification. *)
Definition abc_env : Env :=
  mkenv (fun _ => abc_provider) (fun _ => monday) (fun _ _ => 0%nat)
        (Some get_all_stocks_latest_dates).

(** Two instruments are listed; the Shanghai feed knows the first of
    them, the Shenzhen feed and the listing dates are down. *)
Definition shanghai_env : Env :=
  mkenv
    (fun _ r =>
       match r with
       | stock_info_a_code_name =>
           Returns (mkframe ["code"; "name"]
                      [[VText "600000"; VText "PF Bank"]; [VText "000001"; VText "PA Bank"]])
       | stock_info_sh_name_code =>
           Returns (mkframe ["证券代码"; "证券简称"; "所属行业"; "地区"; "上市日期"]
                      [[VText "600000"; VText "Pudong Development Bank"; VText "Banking";
                        VText "Shanghai"; VText "1999-11-10"]])
       | _ => Raises ProviderError
       end)
    (fun _ => monday) (fun _ _ => 0%nat) None.

(** The same, but the Shanghai feed gives its codes as integers. *)
Definition integer_codes_env : Env :=
  mkenv
    (fun _ r =>
       match r with
       | stock_info_a_code_name =>
           Returns (mkframe ["code"; "name"]
                      [[VText "600000"; VText "PF Bank"]; [VText "000001"; VText "PA Bank"]])
       | stock_info_sh_name_code =>
           Returns (mkframe ["证券代码"; "证券简称"; "所属行业"; "地区"; "上市日期"]
                      [[VNum 600000; VText "Pudong Development Bank"; VText "Banking";
                        VText "Shanghai"; VText "1999-11-10"]])
       | _ => Raises ProviderError
       end)
    (fun _ => monday) (fun _ _ => 0%nat) None.

(** A provider that answers every request with an empty frame. *)
Definition silent_env : Env :=
  mkenv (fun _ _ => Returns no_frame) (fun _ => monday) (fun _ _ => 0%nat) None.

(** Fifteen distinct concept names, the first of them listed twice. *)
Definition fifteen_names : list value :=
  map (fun n => VText (Text.pad2 (Z.of_nat n))) (0%nat :: seq 0 15).

Definition concepts_env : Env :=
  mkenv
    (fun _ r =>
       match r with
       | stock_board_concept_name_ths =>
           Returns (mkframe ["概念名称"] (map (fun v => [v]) fifteen_names))
       | _ => Raises ProviderError
       end)
    (fun _ => monday) (fun v _ => 0%nat) None.

Definition fresh : World := mkworld init_database [].

(** The catalog row of instrument A and a watermark table that knows A. *)
Definition row_A : list value := [VText "A"; VText "Alpha"].

Definition watermark_A (latest_date : string) : gmap value value :=
  {[ VText "A" := VText latest_date ]}.

(** A database that already holds two days of prices for A. *)
Definition stocked : World :=
  mkworld
    (save_all [price_point (VText "A") (VText "2024-01-09") (VNum 10) (VNum 12) (VNum 9)
                 (VNum 11) (VNum 1000) (VNum 11000);
               price_point (VText "A") (VText "2024-01-10") (VNum 11) (VNum 12) (VNum 10)
                 (VNum 12) (VNum 900) (VNum 10000)]
              init_database)
    [].

End Scenarios.

(* ===================================================================== *)
(** ** Reads: the read accessors of database.py *)
(* ===================================================================== *)

Module Reads.
Import Frames Store Spec.

(** SQL comparisons of a stored value with a bound parameter: with NULL
    on either side the test is not true. *)
Definition sql_ge (a b : value) : bool :=
  match a, b with
  | VNull, _ | _, VNull => false
  | _, _ => value_leb b a
  end.

Definition sql_le (a b : value) : bool := sql_ge b a.

(** The WHERE clause [get_stock_prices] builds: [code = ?], and a bound
    on the date for each of [start_date], [end_date] that is truthy. *)
Definition price_filter (code start_date end_date : value) (r : PriceRow) : bool :=
  same_key (sp_code r) code
  && (if truthy start_date then sql_ge (sp_date r) start_date else true)
  && (if truthy end_date then sql_le (sp_date r) end_date else true).

(** [ORDER BY date]: insertion that keeps rows of equal date in the order
    they had. *)
Fixpoint insert_by_date (r : PriceRow) (l : list PriceRow) : list PriceRow :=
  match l with
  | [] => [r]
  | x :: l' => if value_leb (sp_date r) (sp_date x) then r :: x :: l'
               else x :: insert_by_date r l'
  end.

Definition order_by_date (l : list PriceRow) : list PriceRow :=
  foldr insert_by_date [] l.

(** Ascending order of date. *)
Definition by_date (a b : PriceRow) : Prop := value_leb (sp_date a) (sp_date b) = true.

(** The rows the query of [get_stock_prices] yields. *)
Definition select_prices (code start_date end_date : value) (tbl : list PriceRow)
  : list PriceRow :=
  order_by_date (filter (fun r => price_filter code start_date end_date r) tbl).

Definition price_columns : list string :=
  ["id"; "code"; "date"; "open"; "high"; "low"; "close"; "volume"; "amount"].

(** A price row as [SELECT *] lays it out. *)
Definition price_cells (r : PriceRow) : list value :=
  [VNum (sp_id r); sp_code r; sp_date r; sp_open r; sp_high r; sp_low r; sp_close r;
   sp_volume r; sp_amount r].

(** [StockDatabase.get_stock_prices]; [None] for an argument is [VNull]. *)
Definition get_stock_prices (code start_date end_date : value) (db : Database)
  : DataFrame :=
  mkframe price_columns
          (map price_cells (select_prices code start_date end_date (stock_prices db))).

(** The rows the query of [get_stock_concepts] yields: those of [code]
    when [code] is truthy, the whole table otherwise.  SQL leaves their
    order open; the order of insertion stands for it. *)
Definition select_concepts (code : value) (tbl : list ConceptRow) : list ConceptRow :=
  if truthy code then filter (fun r => same_key (sc_code r) code) tbl else tbl.

(** [StockDatabase.get_stock_concepts] *)
Definition get_stock_concepts (code : value) (db : Database) : DataFrame :=
  mkframe concept_columns
          (map (fun r => [sc_code r; sc_concept r])
               (select_concepts code (stock_concepts db))).

(** Two tuples of a batch address the same (code, date). *)
Definition same_target (t u : list value) : bool :=
  match t, u with
  | c :: d :: _, c' :: d' :: _ => same_key c c' && same_key d d'
  | _, _ => false
  end.

(** The tuples of a batch that no later tuple of the batch replaces. *)
Fixpoint last_writes (batch : list (list value)) : list (list value) :=
  match batch with
  | [] => []
  | t :: batch' =>
      (if existsb (same_target t) batch' then [] else [t]) ++ last_writes batch'
  end.

(** A stored content that no tuple of the batch replaces. *)
Definition untouched (batch : list (list value)) (x : list value) : bool :=
  forallb (fun t => negb (same_target x t)) batch.

(** A figure that a REAL column gives back as it was bound: NULL, or an
    integer that a double holds exactly. *)
Definition as_written (v : value) : Prop :=
  v = VNull ∨ ∃ z, v = VNum z ∧ Z.abs z <= 2 ^ 53.

(** A tuple with a code and a date that are not NULL. *)
Definition keyed (t : list value) : Prop :=
  ∃ c d rest, t = c :: d :: rest ∧ c ≠ VNull ∧ d ≠ VNull.

(** No two entries of a list clash. *)
Definition unique_by {A} (clash : A → A → bool) (l : list A) : Prop :=
  ∀ i j a b, l !! i = Some a → l !! j = Some b → clash a b = true → i = j.

Definition info_clash (a b : StockInfoRow) : bool := same_key (si_code a) (si_code b).

Definition tag_clash (a b : ConceptRow) : bool :=
  same_key (sc_code a) (sc_code b) && same_key (sc_concept a) (sc_concept b).

(** No code other than NULL occurs in two rows of [stock_info]: SQLite
    lets NULL repeat in a PRIMARY KEY that is not an integer. *)
Definition unique_codes (tbl : list StockInfoRow) : Prop :=
  ∀ i j r1 r2, tbl !! i = Some r1 → tbl !! j = Some r2 →
               same_key (si_code r1) (si_code r2) = true → i = j.

(** No (code, concept) without NULL occurs in two rows of
    [stock_concepts]; a tag with a NULL part may repeat. *)
Definition unique_tags (tbl : list ConceptRow) : Prop :=
  ∀ i j r1 r2, tbl !! i = Some r1 → tbl !! j = Some r2 →
               same_key (sc_code r1) (sc_code r2) = true →
               same_key (sc_concept r1) (sc_concept r2) = true → i = j.

(** The store after a sequence of [save_stock_concepts] calls, whatever
    each of them answers. *)
Definition save_all_concepts (batches : list DataFrame) (db : Database) : Database :=
  foldl (fun db df => (save_stock_concepts df db).2) db batches.

(** The columns of an exchange feed as [fetch_stock_list] keeps it. *)
Definition exchange_columns : list string :=
  ["code"; "name"; "industry"; "area"; "market"].

(** The rows of the catalog that come from the primary row [l] when the
    enrichment is [stock_info]: one per enrichment row of the same code,
    or one without enrichment. *)
Definition joined (stock_info : DataFrame) (l : list value) : list (list value) :=
  let c := cell "code" ["code"; "name"] l in
  let n := cell "name" ["code"; "name"] l in
  match filter (fun r => cell "code" (columns stock_info) r = c) (rows stock_info) with
  | [] => [[c; VNull; VNull; VNull; fillna n VNull]]
  | ms => map (fun r => [c;
                         cell "industry" (columns stock_info) r;
                         cell "area" (columns stock_info) r;
                         cell "market" (columns stock_info) r;
                         fillna n (cell "name" (columns stock_info) r)]) ms
  end.

Definition catalog_columns : list string :=
  ["code"; "industry"; "area"; "market"; "name"].

(** What one attempt of [fetch_stock_list] does once the primary list
    [stock_list] is there with its two columns: the exchange feeds, the
    join, the listing-date lookup. *)
Definition enrich env (stock_list : DataFrame) : Effects.M DataFrame :=
  Effects.bind
    (Effects.try_except
       (Effects.bind (Effects.call env Effects.stock_info_sh_name_code)
                     (fun df => Effects.ret (Fetcher.exchange_frame "SH" df)))
       (fun _ => Effects.ret no_frame))
    (fun stock_info_sh =>
  Effects.bind
    (Effects.try_except
       (Effects.bind (Effects.call env Effects.stock_info_sz_name_code)
                     (fun df => Effects.ret (Fetcher.exchange_frame "SZ" df)))
       (fun _ => Effects.ret no_frame))
    (fun stock_info_sz =>
  let stock_info := concat stock_info_sh stock_info_sz in
  Effects.bind
    (if negb (empty stock_info)
     then if merge_keys_clash "code" stock_list stock_info
          then Effects.raise ValueError
          else Effects.ret (Fetcher.prefer_primary_name
                              (Fetcher.merge_on_code stock_list stock_info))
     else Effects.ret (assign "market" VNull
                         (assign "area" VNull (assign "industry" VNull stock_list))))
    (fun result =>
  Effects.bind
    (Effects.try_except
       (Effects.bind
          (if negb (empty result)
           then Effects.call env (Effects.stock_zh_a_stock_ipo
                                    (hd VNull (column "code" result)))
           else Effects.ret no_frame)
          (fun _ => Effects.bind (Effects.today env)
                      (fun d => Effects.ret (Calendar.strftime_iso d))))
       (fun _ => Effects.bind (Effects.today env)
                   (fun d => Effects.ret (Calendar.strftime_iso d))))
    (fun list_date => Effects.ret (assign "list_date" (VText list_date) result))))).

(** A row whose first cell, the code in every feed, is text. *)
Definition text_first (r : list value) : Prop := ∃ s rest, r = VText s :: rest.

(** A frame whose codes are all text. *)
Definition text_codes (df : DataFrame) : Prop :=
  Forall (fun r => ∃ s, cell "code" (columns df) r = VText s) (rows df).

(** A provider whose two exchange feeds give their codes as text,
    whenever they answer. *)
Definition text_feeds (env : Effects.Env) : Prop :=
  ∀ tr r df,
    r = Effects.stock_info_sh_name_code ∨ r = Effects.stock_info_sz_name_code →
    Effects.provider env tr r = Effects.Returns df →
    Forall text_first (rows df).

(** [returns Q m]: whatever [m] hands back is in [Q]. *)
Definition returns {A} (Q : A → Prop) (m : Effects.M A) : Prop :=
  ∀ w a w', m w = (Ok a, w') → Q a.

(** The outcome of one attempt of [fetch_stock_list] whose primary feed
    answered [df]: a catalog with the six columns of [stock_info] and a
    row for every row of [df] at least. *)
Definition is_catalog_of (df result : DataFrame) : Prop :=
  columns result ≡ₚ ["code"; "name"; "industry"; "area"; "market"; "list_date"]
  ∧ (length (rows df) ≤ length (rows result))%nat.

(** The label [fetch_stock_prices] gives a provider column. *)
Definition relabel (c : string) : string :=
  match list_find (fun kv => kv.1 = c) Fetcher.column_mapping with
  | Some (_, (_, c')) => c'
  | None => c
  end.

(** The ten columns of a price frame built from a complete answer. *)
Definition canonical_columns : list string :=
  Fetcher.required_columns ++ Fetcher.optional_columns.

(** A provider answer in the provider's own layout: distinct labels, all
    nine labels that [fetch_stock_prices] translates among them, and none
    of the ten labels it translates to. *)
Definition provider_layout (df : DataFrame) : Prop :=
  NoDup (columns df)
  ∧ (∀ kv, kv ∈ Fetcher.column_mapping → kv.1 ∈ columns df)
  ∧ (∀ c, c ∈ canonical_columns → c ∉ columns df).

(** The layout akshare documents for its daily history. *)
Definition akshare_columns : list string :=
  ["日期"; "股票代码"; "开盘"; "收盘"; "最高"; "最低"; "成交量"; "成交额";
   "振幅"; "涨跌幅"; "涨跌额"; "换手率"].

(** Seconds slept, over a list of events. *)
Definition seconds_slept (evs : list Effects.event) : Z :=
  foldr (fun ev acc => match ev with Effects.Sleep s => s + acc | _ => acc end) 0 evs.

(** A sleep, or a request for the prices of [code]. *)
Definition sleep_or_request_for (code : value) (ev : Effects.event) : Prop :=
  match ev with
  | Effects.Sleep _ => True
  | Effects.Call (Effects.stock_zh_a_hist c _ _) => c = code
  | _ => False
  end.

(** The three-second pauses of the rate limiter among some events. *)
Definition pauses (evs : list Effects.event) : nat :=
  length (filter (fun ev => ev = Effects.Sleep 3) evs).

Definition no_pause (ev : Effects.event) : Prop := ev ≠ Effects.Sleep 3.

(** The catalog [main] works on: the first [stock_limit] instruments when
    that limit is positive, all of them otherwise. *)
Definition limited (args : Updater.Args) (stock_list : DataFrame) : DataFrame :=
  if 0 <? Updater.arg_stock_limit args
  then head (Updater.arg_stock_limit args) stock_list else stock_list.

End Reads.

(* ===================================================================== *)
(** ** The persistence layer *)
(* ===================================================================== *)

Module StoreFacts.
Import Frames Store Spec.

Lemma insert_infos_ok new : ∀ acc tbl,
  insert_infos new acc = Ok tbl → tbl = acc ++ new.
Proof.
  induction new as [|r new IH]; intros acc tbl H; simpl in H.
  - injection H as <-. by rewrite app_nil_r.
  - destruct (existsb _ acc); [discriminate|].
    apply IH in H. by rewrite H, <- app_assoc.
Qed.

Lemma save_stock_info_keeps_prices stock_data db :
  stock_prices (save_stock_info stock_data db).2 = stock_prices db.
Proof. unfold save_stock_info. by destruct (to_sql_stock_info stock_data []). Qed.

(** C3, the statement of the specification fails: one stored instrument,
    then a refresh whose frame repeats a code.  The insert raises, and
    the instrument stored before is gone. *)
Lemma C3_old_rows_are_lost :
  let old := mkinfo (VText "600000") (VText "PF Bank") VNull VNull VNull VNull in
  let db := mkdb [old] [] 0 [] in
  let batch := mkframe ["code"; "name"]
                 [[VText "000001"; VText "a"]; [VText "000001"; VText "b"]] in
  (save_stock_info batch db).1 = Err IntegrityError
  ∧ old ∈ stock_info db
  ∧ old ∉ stock_info (save_stock_info batch db).2.
Proof.
  cbn. split; [reflexivity|]. split.
  - apply list_elem_of_singleton. reflexivity.
  - apply not_elem_of_nil.
Qed.

(** C3, amended: [save_stock_info] deletes every stored instrument and
    commits that, then inserts the frame's rows all or nothing.  On
    success the table holds exactly the rows of the frame, in order; when
    the insert raises the table is left empty; the other tables are never
    touched. *)
Theorem C3_refresh_deletes_then_inserts (stock_data : DataFrame) (db : Database) :
  let out := save_stock_info stock_data db in
  stock_prices out.2 = stock_prices db
  ∧ price_seq out.2 = price_seq db
  ∧ stock_concepts out.2 = stock_concepts db
  ∧ match out.1 with
    | Ok _ => stock_info out.2 = map (info_of_cells (columns stock_data)) (rows stock_data)
    | Err _ => stock_info out.2 = []
    end.
Proof.
  unfold save_stock_info.
  destruct (to_sql_stock_info stock_data []) as [tbl|e] eqn:E; cbn; repeat split.
  unfold to_sql_stock_info in E.
  destruct (forallb _ _); [|discriminate].
  by apply insert_infos_ok in E.
Qed.

(** *** Upsert of prices *)

Lemma rows_at_app c d t1 t2 : rows_at c d (t1 ++ t2) = rows_at c d t1 ++ rows_at c d t2.
Proof. apply filter_app. Qed.

Lemma same_key_true a b : same_key a b = true ↔ a ≠ VNull ∧ a = b.
Proof.
  unfold same_key. destruct a, b; cbn; try rewrite bool_decide_eq_true;
    split; intros H; try discriminate; try tauto; try (by destruct H);
    try (split; [discriminate|tauto]).
Qed.

(** What one INSERT OR REPLACE does to the rows of any key, the stored
    row being [(c, d, ..)]: a key without NULL loses its old rows to the
    new one, a key with NULL only gains. *)
Lemma replace_rows_at c d o h l cl v a tbl seq c' d' :
  rows_at c' d'
    (filter (fun old => negb (same_key (sp_code old) c && same_key (sp_date old) d)) tbl
     ++ [mkprice seq c d o h l cl v a])
  = (if bool_decide (c = c' ∧ d = d' ∧ c' ≠ VNull ∧ d' ≠ VNull)
     then [] else rows_at c' d' tbl)
    ++ (if bool_decide (c = c' ∧ d = d') then [mkprice seq c d o h l cl v a] else []).
Proof.
  rewrite rows_at_app. f_equal.
  - unfold rows_at at 1. rewrite list_filter_filter.
    case_bool_decide as Hk.
    + destruct Hk as (-> & -> & Hc & Hd).
      rewrite (list_filter_iff _ (fun _ => False)).
      2:{ intros r. split; [|tauto]. intros [[Hrc Hrd] Hn].
          assert (H1 : same_key (sp_code r) c' = true)
            by (apply same_key_true; split; congruence).
          assert (H2 : same_key (sp_date r) d' = true)
            by (apply same_key_true; split; congruence).
          cbn in Hn. rewrite H1, H2 in Hn. exact Hn. }
      clear. induction tbl as [|x t IH]; [done|].
      rewrite filter_cons_False; [exact IH|tauto].
    + apply list_filter_iff.
      intros r. split; [tauto|]. intros [Hrc Hrd]. split; [done|].
      apply Is_true_true, negb_true_iff, andb_false_iff.
      destruct (same_key (sp_code r) c) eqn:E1; [|by left].
      destruct (same_key (sp_date r) d) eqn:E2; [|by right].
      apply same_key_true in E1 as [N1 E1]. apply same_key_true in E2 as [N2 E2].
      exfalso. apply Hk. repeat split; congruence.
  - unfold rows_at. case_bool_decide as Hk.
    + by rewrite filter_cons_True.
    + rewrite filter_cons_False; [done|]. cbn. tauto.
Qed.


(** Whatever is stored, it is stored as one row after the rows that do
    not clash with it. *)
Lemma insert_or_replace_inv t tbl seq st' :
  insert_or_replace t (tbl, seq) = Ok st' →
  ∃ c d o h l cl v a,
    stored t = [c; d; o; h; l; cl; v; a]
    ∧ st' = (filter (fun old => negb (same_key (sp_code old) c && same_key (sp_date old) d))
                    tbl
             ++ [mkprice (seq + 1) c d o h l cl v a], seq + 1).
Proof.
  unfold insert_or_replace.
  destruct (stored t) as [|c [|d [|o [|h [|l [|cl [|v [|a [|]]]]]]]]]; try discriminate.
  destruct (forallb bindable t); [|discriminate].
  intros [= <-]. by eexists _, _, _, _, _, _, _, _.
Qed.










(** Two writes under one key in a single frame: the later tuple stays;
    an integer too long for a double is rounded, a code given as a number
    is stored as text. *)
Lemma batch_upsert_example :
  let batch := mkframe price_insert_columns
                 [[VNum 600000; VText "2024-01-02"; VNum 10; VNum 12; VNum 9; VNum 11;
                   VNum 1000; VNum 11000];
                  [VText "600000"; VText "2024-01-02"; VNum 10; VNum 12; VNum 9; VNum 13;
                   VNum (2 ^ 53 + 1); VText "11000"]] in
  map content (stock_prices (save_stock_prices batch init_database).2)
  = [[VText "600000"; VText "2024-01-02"; VNum 10; VNum 12; VNum 9; VNum 13;
      VNum (2 ^ 53); VNum 11000]].
Proof. reflexivity. Qed.

(** An integer beyond 64 bits cannot be bound: the call raises and
    stores nothing, not even the tuples before it. *)
Lemma save_stock_prices_overflow :
  let batch := mkframe price_insert_columns
                 [[VText "600000"; VText "2024-01-02"; VNum 10; VNum 12; VNum 9; VNum 11;
                   VNum 1000; VNum 11000];
                  [VText "600000"; VText "2024-01-03"; VNum 10; VNum 12; VNum 9; VNum 11;
                   VNum (2 ^ 63); VNum 11000]] in
  save_stock_prices batch init_database = (Err OverflowError, init_database).
Proof. reflexivity. Qed.

(** *** Concept rows *)

(** A row whose key is already stored makes the plain INSERT fail. *)
Lemma insert_concepts_conflict r new tbl :
  existsb (fun old => same_key (sc_code old) (sc_code r)
                      && same_key (sc_concept old) (sc_concept r)) tbl = true →
  insert_concepts (r :: new) tbl = Err IntegrityError.
Proof. intros H. cbn. by rewrite H. Qed.

(** C6, the code departs from the statement: with the tag
    ("600000", "AI") stored, saving a batch that holds it again raises
    [IntegrityError] to the caller and stores nothing, the new tag of the
    same batch included; a batch that repeats a key within itself fails
    the same way on an empty table. *)
Theorem C6_duplicate_concept_aborts_batch :
  let db := mkdb [] [] 0 [mkconcept (VText "600000") (VText "AI")] in
  let batch := mkframe ["code"; "concept"]
                 [[VText "600000"; VText "Cloud"]; [VText "600000"; VText "AI"]] in
  let twice := mkframe ["code"; "concept"]
                 [[VText "600000"; VText "AI"]; [VText "600000"; VText "AI"]] in
  save_stock_concepts batch db = (Err IntegrityError, db)
  ∧ save_stock_concepts twice init_database = (Err IntegrityError, init_database).
Proof. split; reflexivity. Qed.

(** *** Column count of the price INSERT *)




End StoreFacts.

(* ===================================================================== *)
(** ** Text and calendar *)
(* ===================================================================== *)

Module CalendarFacts.
Import Text Calendar Spec.

Ltac divmod := Z.div_mod_to_equations; lia.

(** *** Digits *)

Lemma nat_of_digit k : 0 <= k <= 9 → nat_of_ascii (digit k) = (48 + Z.to_nat k)%nat.
Proof. intros H. unfold digit. apply nat_ascii_embedding. lia. Qed.

Lemma is_digit_digit k : 0 <= k <= 9 → is_digit (digit k) = true.
Proof.
  intros H. unfold is_digit. rewrite nat_of_digit by done.
  apply andb_true_intro. split; apply Nat.leb_le; lia.
Qed.

Lemma digit_val_digit k : 0 <= k <= 9 → digit_val (digit k) = k.
Proof. intros H. unfold digit_val. rewrite nat_of_digit by done. lia. Qed.



(** *** Order of the rendered numbers *)

Lemma compare_cons c1 c2 s t :
  String.compare (String c1 s) (String c2 t) = then_cmp (Ascii.compare c1 c2) (String.compare s t).
Proof. cbn. by destruct (Ascii.compare c1 c2). Qed.


Lemma pad2_append n s :
  pad2 n +:+ s = String (digit (n / 10)) (String (digit (n mod 10)) s).
Proof. reflexivity. Qed.

Lemma pad4_append n s :
  pad4 n +:+ s = String (digit (n / 1000)) (String (digit (n / 100 mod 10)) (pad2 (n mod 100) +:+ s)).
Proof. reflexivity. Qed.



(** *** The order on text *)

Lemma ascii_compare_spec a b :
  CompareSpec (N_of_ascii a = N_of_ascii b) (N_of_ascii a < N_of_ascii b)%N
              (N_of_ascii b < N_of_ascii a)%N (Ascii.compare a b).
Proof. unfold Ascii.compare. apply N.compare_spec. Qed.

Lemma le_trans s : ∀ t u, Text.le s t = true → Text.le t u = true → Text.le s u = true.
Proof.
  unfold Text.le, String.leb.
  induction s as [|a s IH]; intros t u Hst Htu.
  - by destruct u.
  - destruct t as [|b t]; [discriminate|]. destruct u as [|c u]; [discriminate|].
    rewrite compare_cons in *.
    destruct (ascii_compare_spec a b) as [Eab|Lab|Lab]; cbn [then_cmp] in Hst;
      try discriminate;
      destruct (ascii_compare_spec b c) as [Ebc|Lbc|Lbc]; cbn [then_cmp] in Htu;
      try discriminate;
      destruct (ascii_compare_spec a c) as [Eac|Lac|Lac]; cbn [then_cmp];
      try reflexivity; try lia.
    by apply (IH t u).
Qed.

Lemma le_total s t : Text.le s t = true ∨ Text.le t s = true.
Proof. apply String.leb_total. Qed.

(** *** Dates *)

Lemma days_in_month_bounds y m : 28 <= days_in_month y m <= 31.
Proof.
  unfold days_in_month.
  destruct (m =? 2); [destruct (is_leap y); lia|].
  destruct (_ || _); lia.
Qed.

Lemma date_ok_spec d :
  date_ok d = true ↔
  1 <= year d <= 9999 ∧ 1 <= month d <= 12
  ∧ 1 <= day d <= days_in_month (year d) (month d).
Proof.
  unfold date_ok. rewrite !andb_true_iff, !Z.leb_le. tauto.
Qed.





(** *** Parsing back what was rendered *)

Lemma parse_Y_pad4 y r : 0 <= y <= 9999 → parse_Y (pad4 y +:+ r) = Some (y, r).
Proof.
  intros H. rewrite pad4_append, pad2_append. unfold parse_Y.
  rewrite !is_digit_digit by divmod. cbn [andb].
  rewrite !digit_val_digit by divmod.
  do 2 f_equal. divmod.
Qed.

Ltac cases_upto n x :=
  let rec go k :=
    lazymatch k with
    | O => idtac
    | S ?k' =>
        let z := eval cbv in (Z.of_nat k) in
        destruct (Z.eq_dec x z) as [->|?]; [|go k']
    end in
  go n.

Lemma parse_m_pad2 m r :
  1 <= m <= 12 → parse_m (pad2 m +:+ String dash r) = Some (m, String dash r).
Proof.
  intros H. cases_upto 12%nat m; try reflexivity. lia.
Qed.

Lemma parse_d_pad2 d : 1 <= d <= 31 → parse_d (pad2 d) = Some (d, EmptyString).
Proof.
  intros H. cases_upto 31%nat d; try reflexivity. lia.
Qed.

Lemma strptime_strftime d : date_ok d = true → strptime_iso (strftime_iso d) = Some d.
Proof.
  intros Hok. pose proof Hok as H. apply date_ok_spec in H as (Hy & Hm & Hd).
  pose proof (days_in_month_bounds (year d) (month d)) as Hb.
  unfold strptime_iso, strftime_iso.
  rewrite parse_Y_pad4 by lia.
  change ("-" +:+ pad2 (month d) +:+ "-" +:+ pad2 (day d))
    with (String dash (pad2 (month d) +:+ String dash (pad2 (day d)))).
  cbn [expect]. rewrite bool_decide_eq_true_2 by reflexivity.
  rewrite parse_m_pad2 by lia.
  cbn [expect]. rewrite bool_decide_eq_true_2 by reflexivity.
  rewrite parse_d_pad2 by lia.
  destruct d as [y m dd]. cbn [year month day] in *. by rewrite Hok.
Qed.

(** *** The custom period *)




End CalendarFacts.

(* ===================================================================== *)
(** ** Effects: what computations emit *)
(* ===================================================================== *)

Module EffectFacts.
Import Frames Store Calendar Effects Spec.
Local Open Scope monad_scope.

Lemma new_events_app {A} (m : M A) w evs :
  trace (m w).2 = evs ++ trace w → new_events m w = evs.
Proof.
  intros H. unfold new_events. rewrite H, length_app.
  replace (length evs + length (trace w) - length (trace w))%nat with (length evs) by lia.
  apply take_app_length.
Qed.

Section Emits.
Context {P : event → Prop}.

Lemma emits_ret {A} (a : A) : emits P (ret a).
Proof. intros w. exists []. by split. Qed.

Lemma emits_raise {A} e : emits P (@raise A e).
Proof. intros w. exists []. by split. Qed.

Lemma emits_of_option {A} e (o : option A) : emits P (of_option e o).
Proof. destruct o; [apply emits_ret|apply emits_raise]. Qed.

Lemma emits_emit ev : P ev → emits P (emit ev).
Proof. intros H w. exists [ev]. split; [done|]. by constructor. Qed.

Lemma emits_sleep s : P (Sleep s) → emits P (sleep s).
Proof. apply emits_emit. Qed.

Lemma emits_call env r : P (Call r) → emits P (call env r).
Proof.
  intros H w. exists [Call r]. split; [|by constructor].
  unfold call. by destruct (provider env (trace w) r).
Qed.

Lemma emits_today env : emits P (today env).
Proof. intros w. exists []. by split. Qed.

Lemma emits_db_call {A} m (f : Database → result A * Database) :
  P (Db m) → emits P (db_call m f).
Proof.
  intros H w. exists [Db m]. split; [|by constructor].
  unfold db_call. by destruct (f (store w)).
Qed.

Lemma emits_bind {A B} (m : M A) (k : A → M B) :
  emits P m → (∀ a, emits P (k a)) → emits P (bind m k).
Proof.
  intros Hm Hk w. destruct (Hm w) as (evs & E & F). unfold bind.
  destruct (m w) as [[a|e] w1]; cbn in *.
  - destruct (Hk a w1) as (evs' & E' & F'). exists (evs' ++ evs).
    split; [by rewrite E', E, app_assoc|by apply Forall_app].
  - by exists evs.
Qed.

Lemma emits_try_except {A} (m : M A) (h : exn → M A) :
  emits P m → (∀ e, emits P (h e)) → emits P (try_except m h).
Proof.
  intros Hm Hh w. destruct (Hm w) as (evs & E & F). unfold try_except.
  destruct (m w) as [[a|e] w1]; cbn in *.
  - by exists evs.
  - destruct (Hh e w1) as (evs' & E' & F'). exists (evs' ++ evs).
    split; [by rewrite E', E, app_assoc|by apply Forall_app].
Qed.

Lemma emits_retry_internal {A} (f : M A) tries : ∀ delay backoff,
  emits P f → (∀ s, P (Sleep s)) → emits P (retry_internal f tries delay backoff).
Proof.
  induction tries as [|n IH]; intros delay backoff Hf Hs.
  - apply emits_raise.
  - intros w. destruct (Hf w) as (evs & E & F). cbn [retry_internal].
    destruct (f w) as [[a|e] w1]; cbn [snd] in E |- *; [by exists evs|].
    destruct n as [|n]; [by exists evs|].
    assert (Hrest : emits P (sleep delay ;;; retry_internal f (S n) (delay * backoff) backoff)).
    { apply emits_bind; [by apply emits_sleep|]. intros _. by apply IH. }
    destruct (Hrest w1) as (evs' & E' & F'). exists (evs' ++ evs).
    split; [by rewrite E', E, app_assoc|by apply Forall_app].
Qed.

Lemma emits_for_rows {St A} (body : nat → A → St → M St) l : ∀ i s,
  (∀ i r s, emits P (body i r s)) → emits P (for_rows body i l s).
Proof.
  induction l as [|r l IH]; intros i s Hb; cbn [for_rows].
  - apply emits_ret.
  - apply emits_bind; [apply Hb|]. intros s'. by apply IH.
Qed.




End Emits.

Lemma emits_weaken {A} (P Q : event → Prop) (m : M A) :
  (∀ ev, P ev → Q ev) → emits P m → emits Q m.
Proof.
  intros HPQ Hm w. destruct (Hm w) as (evs & E & F). exists evs. split; [done|].
  eapply Forall_impl; eauto.
Qed.

Lemma keeps_ret {A} (a : A) : keeps_store (ret a).
Proof. done. Qed.

Lemma keeps_raise {A} e : keeps_store (@raise A e).
Proof. done. Qed.

Lemma keeps_of_option {A} e (o : option A) : keeps_store (of_option e o).
Proof. by destruct o. Qed.

Lemma keeps_emit ev : keeps_store (emit ev).
Proof. done. Qed.

Lemma keeps_call env r : keeps_store (call env r).
Proof. intros w. unfold call. by destruct (provider env (trace w) r). Qed.

Lemma keeps_today env : keeps_store (today env).
Proof. done. Qed.

Lemma keeps_bind {A B} (m : M A) (k : A → M B) :
  keeps_store m → (∀ a, keeps_store (k a)) → keeps_store (bind m k).
Proof.
  intros Hm Hk w. specialize (Hm w). unfold bind.
  destruct (m w) as [[a|e] w1]; cbn [snd] in *; [|done]. by rewrite Hk.
Qed.

Lemma keeps_try_except {A} (m : M A) (h : exn → M A) :
  keeps_store m → (∀ e, keeps_store (h e)) → keeps_store (try_except m h).
Proof.
  intros Hm Hh w. specialize (Hm w). unfold try_except.
  destruct (m w) as [[a|e] w1]; cbn [snd] in *; [done|]. by rewrite Hh.
Qed.

Lemma keeps_retry_internal {A} (f : M A) tries : ∀ delay backoff,
  keeps_store f → keeps_store (retry_internal f tries delay backoff).
Proof.
  induction tries as [|n IH]; intros delay backoff Hf; [done|].
  intros w. pose proof (Hf w) as Hw. cbn [retry_internal].
  destruct (f w) as [[a|e] w1]; cbn [snd] in *; [done|].
  destruct n as [|n]; [done|].
  rewrite <- Hw.
  apply (keeps_bind (sleep delay)
           (fun _ => retry_internal f (S n) (delay * backoff) backoff)).
  - apply keeps_emit.
  - intros _. by apply IH.
Qed.

Lemma for_rows_total {St A} (body : nat → A → St → M St) l :
  (∀ i r s, total (body i r s)) → ∀ i s, total (for_rows body i l s).
Proof.
  intros Hb. induction l as [|r l IH]; intros i s w; cbn [for_rows].
  - by eexists.
  - unfold bind. destruct (Hb i r s w) as [s' E].
    destruct (body i r s w) as [r1 w1]. cbn in E. subst r1. apply IH.
Qed.

(** Syntax-directed proof search for [emits] and [keeps_store]; [side]
    settles the conditions on the single events. *)
Ltac emits_steps side :=
  repeat (intros; cbv zeta;
          lazymatch goal with
          | |- emits _ (ret _) => apply emits_ret
          | |- emits _ (raise _) => apply emits_raise
          | |- emits _ (of_option _ _) => apply emits_of_option
          | |- emits _ (today _) => apply emits_today
          | |- emits _ (sleep _) => apply emits_sleep; side
          | |- emits _ (emit _) => apply emits_emit; side
          | |- emits _ (call _ _) => apply emits_call; side
          | |- emits _ (db_call _ _) => apply emits_db_call; side
          | |- emits _ (bind _ _) => apply emits_bind
          | |- emits _ (try_except _ _) => apply emits_try_except
          | |- emits _ (retry_internal _ _ _ _) => apply emits_retry_internal; [|intros; side]
          | |- emits _ (if ?b then _ else _) => destruct b
          | |- emits _ (match ?x with _ => _ end) => destruct x
          end).

Ltac keeps_steps :=
  repeat (intros; cbv zeta;
          lazymatch goal with
          | |- keeps_store (ret _) => apply keeps_ret
          | |- keeps_store (raise _) => apply keeps_raise
          | |- keeps_store (of_option _ _) => apply keeps_of_option
          | |- keeps_store (today _) => apply keeps_today
          | |- keeps_store (sleep _) => apply keeps_emit
          | |- keeps_store (emit _) => apply keeps_emit
          | |- keeps_store (call _ _) => apply keeps_call
          | |- keeps_store (bind _ _) => apply keeps_bind
          | |- keeps_store (try_except _ _) => apply keeps_try_except
          | |- keeps_store (retry_internal _ _ _ _) => apply keeps_retry_internal
          | |- keeps_store (if ?b then _ else _) => destruct b
          | |- keeps_store (match ?x with _ => _ end) => destruct x
          end).

(** An attempt that answers ends the retry loop at once. *)
Lemma retry_internal_ok {A} (f : M A) n delay backoff w a w' :
  f w = (Ok a, w') → retry_internal f (S n) delay backoff w = (Ok a, w').
Proof. intros H. cbn [retry_internal]. by rewrite H. Qed.

(** Three attempts that all raise: two sleeps in between, the last
    exception is the one raised. *)
Lemma retry_internal_exhausted {A} (f : M A) delay backoff w e1 w1 e2 w2 e3 w3 :
  f w = (Err e1, w1) →
  f (mkworld (store w1) (Sleep delay :: trace w1)) = (Err e2, w2) →
  f (mkworld (store w2) (Sleep (delay * backoff) :: trace w2)) = (Err e3, w3) →
  retry_internal f 3 delay backoff w = (Err e3, w3).
Proof.
  intros H1 H2 H3. cbn [retry_internal]. rewrite H1.
  unfold bind at 1. cbn [sleep emit]. cbn [retry_internal]. rewrite H2.
  unfold bind at 1. cbn [sleep emit]. rewrite H3. reflexivity.
Qed.

End EffectFacts.

(* ===================================================================== *)
(** ** The fetcher *)
(* ===================================================================== *)

Module FetcherFacts.
Import Frames Store Calendar Effects Fetcher Updater Spec Scenarios EffectFacts.
Local Open Scope monad_scope.

(** *** Concepts: deduplication and cap *)

Lemma insert_ranked_perm rank x l : insert_ranked rank x l ≡ₚ x :: l.
Proof.
  induction l as [|y l IH]; cbn [insert_ranked]; [done|].
  destruct (rank x <? rank y)%nat; [done|].
  rewrite IH. apply Permutation_swap.
Qed.

Lemma list_of_set_perm env l : list_of_set env l ≡ₚ remove_dups l.
Proof.
  unfold list_of_set. induction (remove_dups l) as [|x k IH]; cbn; [done|].
  by rewrite insert_ranked_perm, IH.
Qed.

Lemma list_of_set_NoDup env l : NoDup (list_of_set env l).
Proof. rewrite list_of_set_perm. apply NoDup_remove_dups. Qed.

Lemma list_of_set_elem env l x : x ∈ list_of_set env l ↔ x ∈ l.
Proof. rewrite list_of_set_perm. apply elem_of_remove_dups. Qed.

(** What one fetch keeps: distinct names of the answer, ten at most, and
    ten exactly when the answer has that many distinct names. *)
Lemma concept_cap env (names : list value) :
  let kept := take 10 (list_of_set env names) in
  NoDup kept
  ∧ (∀ c, c ∈ kept → c ∈ names)
  ∧ length kept = Nat.min 10 (length (remove_dups names)).
Proof.
  cbn zeta. split; [|split].
  - eapply sublist_NoDup; [apply list_of_set_NoDup|apply sublist_take].
  - intros c Hc. apply (list_of_set_elem env). by apply (subseteq_take 10).
  - rewrite length_take. by rewrite (Permutation_length (list_of_set_perm env names)).
Qed.

Lemma concept_column code (cs : list value) :
  column "concept" (mkframe ["code"; "concept"] (map (fun c => [code; c]) cs)) = cs.
Proof.
  unfold column. cbn [columns rows]. induction cs as [|c cs IH]; [done|].
  cbn [map]. f_equal. exact IH.
Qed.

Lemma first_answer_total env methods : ∀ w,
  ∃ df w', first_answer env methods w = (Ok df, w').
Proof.
  induction methods as [|m ms IH]; intros w; cbn [first_answer].
  - by eexists _, _.
  - unfold bind, try_except, call, ret.
    destruct (provider env (trace w) m) as [df|e]; [|apply IH].
    destruct (empty df); cbn [negb]; [apply IH|by eexists _, _].
Qed.

Lemma capped_no_frame code : capped code no_frame.
Proof.
  repeat split; [cbn; lia|constructor|]. intros r Hr. by apply elem_of_nil in Hr.
Qed.

Lemma fetch_stock_concepts_once_capped env self code w :
  ∃ df w', fetch_stock_concepts_once env self code w = (Ok df, w') ∧ capped code df.
Proof.
  unfold fetch_stock_concepts_once.
  destruct (first_answer_total env
              [stock_board_concept_name_ths; stock_board_concept_cons_ths code;
               stock_board_concept_name_ths] w) as (cdf & w' & E).
  unfold bind at 1. rewrite E.
  destruct (negb (empty cdf)); [|eexists _, _; split; [done|apply capped_no_frame]].
  set (names := if has_column "概念名称" cdf then _ else _).
  destruct (concept_cap env names) as (Hnd & _ & Hlen).
  destruct (take 10 (list_of_set env names)) as [|c cs] eqn:Ek;
    [eexists _, _; split; [done|apply capped_no_frame]|].
  eexists _, _. split; [reflexivity|]. repeat split.
  - cbn [rows]. rewrite length_map, Hlen. lia.
  - by rewrite concept_column.
  - cbn [rows]. intros r Hr. apply list_elem_of_In, in_map_iff in Hr as (x & <- & _).
    by eexists.
Qed.

Lemma insert_concepts_ok new : ∀ acc tbl,
  insert_concepts new acc = Ok tbl → tbl = acc ++ new.
Proof.
  induction new as [|r new IH]; intros acc tbl H; simpl in H.
  - injection H as <-. by rewrite app_nil_r.
  - destruct (existsb _ acc); [discriminate|].
    apply IH in H. by rewrite H, <- app_assoc.
Qed.

Lemma save_stock_concepts_growth df db :
  (length (stock_concepts (save_stock_concepts df db).2)
   ≤ length (stock_concepts db) + length (rows df))%nat.
Proof.
  unfold save_stock_concepts.
  destruct (empty df); [cbn; lia|].
  destruct (forallb _ _); [|cbn; lia].
  destruct (insert_concepts _ _) as [tbl|e] eqn:E; [|cbn; lia].
  apply insert_concepts_ok in E. subst tbl. cbn.
  rewrite length_app, length_map. lia.
Qed.

(** C9: every call of [fetch_stock_concepts] returns, and the frame it
    returns has at most ten rows, all for the requested code and with
    pairwise distinct concept names; saving that frame therefore adds at
    most ten concept rows. *)
Theorem C9_at_most_ten_concepts env (self : DataFetcher) (code : value) (w : World) :
  ∃ df w',
    fetch_stock_concepts env self code w = (Ok df, w')
    ∧ (length (rows df) ≤ 10)%nat
    ∧ NoDup (column "concept" df)
    ∧ (∀ r, r ∈ rows df → ∃ c, r = [code; c])
    ∧ ∀ db, (length (stock_concepts (save_stock_concepts df db).2)
             ≤ length (stock_concepts db) + 10)%nat.
Proof.
  destruct (fetch_stock_concepts_once_capped env self code w) as (df & w' & E & H1 & H2 & H3).
  exists df, w'. split.
  - unfold fetch_stock_concepts, retry, decorator_tries. by apply retry_internal_ok.
  - repeat split; try done.
    intros db. pose proof (save_stock_concepts_growth df db). lia.
Qed.

(** Fifteen distinct names (one of them listed twice) give ten rows. *)
Lemma fifteen_names_give_ten_rows :
  length (remove_dups fifteen_names) = 15%nat
  ∧ ∃ df w', fetch_stock_concepts concepts_env (mkfetcher 3 5) (VText "600000") fresh
             = (Ok df, w')
             ∧ length (rows df) = 10%nat.
Proof. split; [reflexivity|]. eexists _, _. split; [vm_compute; reflexivity|reflexivity]. Qed.

(** *** Retry settings *)

(** C8, the code departs from the statement: a fetcher built with
    [max_retries = 5] and [retry_delay = 7] against a provider that always
    raises makes three attempts with sleeps of 2 and 4 seconds, for the
    list as for prices; the concept fetch swallows the provider's
    exceptions and is not retried at all; and the two settings never
    change what a fetch does. *)
Theorem C8_retry_settings_are_ignored :
  let self := mkfetcher 5 7 in
  let hist := Call (stock_zh_a_hist (VText "600000") "19900101" "20240115") in
  let list := Call stock_info_a_code_name in
  fetch_stock_prices down_env self (VText "600000") "all" fresh
  = (Err ProviderError, mkworld init_database [hist; Sleep 4; hist; Sleep 2; hist])
  ∧ fetch_stock_list down_env self fresh
    = (Err ProviderError, mkworld init_database [list; Sleep 4; list; Sleep 2; list])
  ∧ fetch_stock_concepts down_env self (VText "600000") fresh
    = (Ok no_frame,
       mkworld init_database
         [Call stock_board_concept_name_ths;
          Call (stock_board_concept_cons_ths (VText "600000"));
          Call stock_board_concept_name_ths])
  ∧ ∀ env m d m' d' code period,
      fetch_stock_prices env (mkfetcher m d) code period
      = fetch_stock_prices env (mkfetcher m' d') code period
      ∧ fetch_stock_list env (mkfetcher m d) = fetch_stock_list env (mkfetcher m' d')
      ∧ fetch_stock_concepts env (mkfetcher m d) code
        = fetch_stock_concepts env (mkfetcher m' d') code.
Proof.
  cbn zeta. split; [vm_compute; reflexivity|].
  split; [vm_compute; reflexivity|].
  split; [vm_compute; reflexivity|].
  intros. repeat split; reflexivity.
Qed.

(** *** The fatal path *)

Lemma fetch_stock_list_once_raises env self w e :
  provider env (trace w) stock_info_a_code_name = Raises e →
  fetch_stock_list_once env self w
  = (Err e, mkworld (store w) (Call stock_info_a_code_name :: trace w)).
Proof. intros H. unfold fetch_stock_list_once, bind, call. by rewrite H. Qed.

Lemma fetch_stock_list_exhausted env self w :
  (∀ h, ∃ e, provider env h stock_info_a_code_name = Raises e) →
  ∃ e, fetch_stock_list env self w
       = (Err e, mkworld (store w) (list_attempts ++ trace w)).
Proof.
  intros H.
  destruct (H (trace w)) as [e1 E1].
  destruct (H (Sleep 2 :: Call stock_info_a_code_name :: trace w)) as [e2 E2].
  destruct (H (Sleep 4 :: Call stock_info_a_code_name :: Sleep 2
               :: Call stock_info_a_code_name :: trace w)) as [e3 E3].
  exists e3. unfold fetch_stock_list, retry, decorator_tries.
  eapply retry_internal_exhausted.
  - by apply fetch_stock_list_once_raises.
  - by apply fetch_stock_list_once_raises.
  - by apply fetch_stock_list_once_raises.
Qed.

(** C1, the code departs from the statement in full mode: when the
    primary list feed raises on every attempt, neither mode writes to the
    database (three attempts and two sleeps are all that happens), the
    incremental run answers [False], but the full run answers [True]. *)
Theorem C1_list_fetch_failure env (self : StockDataUpdater) (price_period : string)
    (w : World) :
  (∀ h, ∃ e, provider env h stock_info_a_code_name = Raises e) →
  download_all_stocks_data env self price_period true w
  = (Ok false, mkworld (store w) (list_attempts ++ trace w))
  ∧ download_all_stocks_data env self price_period false w
    = (Ok true, mkworld (store w) (list_attempts ++ trace w)).
Proof.
  intros H.
  destruct (fetch_stock_list_exhausted env (fetcher self) w H) as [e E].
  split.
  - unfold download_all_stocks_data, try_except. cbn [negb].
    unfold download_incremental, bind. by rewrite E.
  - unfold download_all_stocks_data, try_except. cbn [negb].
    unfold update_all_data. unfold bind at 1. unfold bind at 1.
    unfold try_except. unfold bind at 1. by rewrite E.
Qed.

(** C1, an instance: the provider is down and the database is fresh. *)
Lemma C1_list_fetch_failure_example :
  download_all_stocks_data down_env new_updater "all" true fresh
  = (Ok false, mkworld init_database list_attempts)
  ∧ download_all_stocks_data down_env new_updater "all" false fresh
    = (Ok true, mkworld init_database list_attempts).
Proof.
  apply (C1_list_fetch_failure down_env new_updater "all" fresh).
  intros h. exists ProviderError. reflexivity.
Defined.

(** *** Failure isolation and the counts *)

Lemma update_prices_total env self code period : total (update_prices env self code period).
Proof.
  intros w. unfold update_prices, try_except.
  match goal with |- context [match ?m w with _ => _ end] => destruct (m w) as [[[]|e] w'] end;
    by eexists.
Qed.

Lemma update_concepts_total env self code : total (update_concepts env self code).
Proof.
  intros w. unfold update_concepts, try_except.
  match goal with |- context [match ?m w with _ => _ end] => destruct (m w) as [[[]|e] w'] end;
    by eexists.
Qed.

(** Whatever the two fetches of an instrument do, [update_all_data]
    counts the instrument as a success. *)
Lemma update_one_counts env self price_period cols total_stocks i row counts w :
  (update_one env self price_period cols total_stocks i row counts w).1
  = Ok (S counts.1, counts.2).
Proof.
  unfold update_one, try_except, bind.
  destruct (update_prices_total env self (cell "code" cols row) price_period w) as [[] E1].
  destruct (update_prices env self (cell "code" cols row) price_period w) as [r1 w1].
  cbn in E1. subst r1.
  destruct (update_concepts_total env self (cell "code" cols row) w1) as [[] E2].
  destruct (update_concepts env self (cell "code" cols row) w1) as [r2 w2].
  cbn in E2. subst r2.
  unfold rate_limit. by destruct (_ && _).
Qed.

Lemma update_loop_counts env self price_period cols total_stocks l : ∀ i counts w,
  (for_rows (update_one env self price_period cols total_stocks) i l counts w).1
  = Ok ((length l + counts.1)%nat, counts.2).
Proof.
  induction l as [|r l IH]; intros i [s f] w; cbn [for_rows]; [done|].
  unfold bind.
  pose proof (update_one_counts env self price_period cols total_stocks i r (s, f) w) as E.
  destruct (update_one _ _ _ _ _ _ _ _ _) as [r1 w1]. cbn in E. subst r1.
  rewrite IH. cbn. do 2 f_equal. lia.
Qed.

(** C2, the code departs from the statement.  In [update_all_data] the
    loop counts every instrument as a success and never as a failure,
    whatever the provider does and wherever the instrument stands in the
    catalog.  In particular, when the prices of B raise on every attempt
    and A and C are served, the rows of A and C are stored and the run
    answers [True] in both modes, but the summary reads three successes
    and no failure: B is counted as a success. *)
Theorem C2_failed_fetch_is_counted_as_success :
  (∀ env self price_period cols total_stocks catalog i counts w,
     (for_rows (update_one env self price_period cols total_stocks) i catalog counts w).1
     = Ok ((length catalog + counts.1)%nat, counts.2))
  ∧
  let full := download_all_stocks_data abc_env new_updater "all" false fresh in
  let incr := download_all_stocks_data abc_env new_updater "all" true fresh in
  let attempts_on_B (w : World) :=
    length (filter (fun ev => ev = Call (stock_zh_a_hist (VText "B") "19900101" "20240115"))
                   (trace w)) in
  (full.1 = Ok true
   ∧ map sp_code (stock_prices (store full.2)) = [VText "A"; VText "C"]
   ∧ attempts_on_B full.2 = 3%nat
   ∧ filter is_summary (trace full.2) = [Summary 3 0])
  ∧ (incr.1 = Ok true
     ∧ map sp_code (stock_prices (store incr.2)) = [VText "A"; VText "C"]
     ∧ attempts_on_B incr.2 = 3%nat
     ∧ filter is_summary (trace incr.2) = [Summary 3 0]).
Proof.
  split; [intros; apply update_loop_counts|].
  cbn zeta. repeat split; vm_compute; reflexivity.
Qed.

(** The loop of [main] shares one handler between the fetches, and there
    the same provider gives two successes and one failure. *)
Lemma main_counts_the_failed_fetch :
  let out := main abc_env (mkargs 10 "all" 3 5) fresh in
  out.1 = Ok ()
  ∧ filter is_summary (trace out.2) = [Summary 2 1].
Proof. cbn zeta. split; vm_compute; reflexivity. Qed.

End FetcherFacts.

(* ===================================================================== *)
(** ** Watermarks *)
(* ===================================================================== *)

Module WatermarkFacts.
Import Frames Store Calendar Effects Updater Spec CalendarFacts.

Lemma value_leb_total a b : value_leb a b = true ∨ value_leb b a = true.
Proof.
  destruct a as [|s|x], b as [|t|y]; cbn; try tauto.
  - apply le_total.
  - destruct (Z.leb_spec x y); [tauto|]. right. apply Z.leb_le. lia.
Qed.

Lemma value_leb_trans a b c :
  value_leb a b = true → value_leb b c = true → value_leb a c = true.
Proof.
  destruct a as [|s|x], b as [|t|y], c as [|u|z]; cbn; try done.
  - apply le_trans.
  - rewrite !Z.leb_le. lia.
Qed.

Lemma value_max_upper_l a b : value_leb a (value_max a b) = true.
Proof.
  unfold value_max. destruct (value_leb a b) eqn:E; [done|].
  by destruct (value_leb_total a a).
Qed.

Lemma value_max_upper_r a b : value_leb b (value_max a b) = true.
Proof.
  unfold value_max. destruct (value_leb a b) eqn:E.
  - by destruct (value_leb_total b b).
  - destruct (value_leb_total a b); congruence.
Qed.

Lemma foldr_max_upper dates d :
  d ∈ dates → value_leb d (foldr value_max VNull dates) = true.
Proof.
  induction dates as [|x dates IH]; intros H; [by apply elem_of_nil in H|].
  cbn [foldr]. apply elem_of_cons in H as [->|H].
  - apply value_max_upper_l.
  - eapply value_leb_trans; [by apply IH|apply value_max_upper_r].
Qed.

Lemma foldr_max_attained dates :
  dates ≠ [] → foldr value_max VNull dates ∈ dates.
Proof.
  induction dates as [|x dates IH]; intros H; [done|]. cbn [foldr].
  unfold value_max at 1. destruct (value_leb x _) eqn:E; [|by left].
  destruct dates as [|y dates].
  - cbn in *. destruct x; try discriminate. by left.
  - right. by apply IH.
Qed.

(** [latest_date_of] is the maximum of the stored dates of a code. *)
Lemma latest_date_of_is_max tbl code :
  code ∈ map sp_code tbl → is_watermark tbl code (Some (latest_date_of code tbl)).
Proof.
  intros Hin. unfold is_watermark, latest_date_of.
  set (mine := filter (fun r => sp_code r = code) tbl).
  split.
  - assert (Hne : map sp_date mine ≠ []).
    { apply list_elem_of_In, in_map_iff in Hin as (r & Hr & Hin).
      apply list_elem_of_In in Hin.
      assert (r ∈ mine) by (apply list_elem_of_filter; by split).
      destruct mine; [by apply elem_of_nil in H|done]. }
    apply foldr_max_attained in Hne.
    apply list_elem_of_In, in_map_iff in Hne as (r & Hr & Hm).
    apply list_elem_of_In, list_elem_of_filter in Hm as [Hc Ht]. by exists r.
  - intros r Hr Hc. apply foldr_max_upper.
    apply list_elem_of_In, in_map_iff. exists r. split; [done|].
    apply list_elem_of_In, list_elem_of_filter. by split.
Qed.

Lemma latest_dates_fold (ld : value → value) codes : ∀ (acc : gmap value value) c,
  foldl (fun m r => <[cell "code" ["code"; "latest_date"] r
                      := cell "latest_date" ["code"; "latest_date"] r]> m)
        acc (map (fun c => [c; ld c]) codes) !! c
  = if bool_decide (c ∈ codes) then Some (ld c) else acc !! c.
Proof.
  induction codes as [|x codes IH]; intros acc c; cbn [map foldl].
  - by rewrite bool_decide_eq_false_2 by apply not_elem_of_nil.
  - rewrite IH. change (cell "code" ["code"; "latest_date"] [x; ld x]) with x.
    change (cell "latest_date" ["code"; "latest_date"] [x; ld x]) with (ld x).
    destruct (decide (c ∈ codes)) as [Hc|Hc].
    + rewrite !bool_decide_eq_true_2; [done| |done]. by right.
    + rewrite (bool_decide_eq_false_2 _ Hc).
      destruct (decide (x = c)) as [->|Hx].
      * rewrite lookup_insert_eq. rewrite bool_decide_eq_true_2; [done|by left].
      * rewrite lookup_insert_ne by done.
        rewrite bool_decide_eq_false_2; [done|].
        intros H. apply elem_of_cons in H as [H|H]; congruence.
Qed.

(** What the incremental run reads from the bulk query: for every code
    its watermark. *)
Lemma bulk_watermarks db code :
  is_watermark (stock_prices db) code
    (latest_dates_dict (get_all_stocks_latest_dates db) !! code).
Proof.
  unfold latest_dates_dict, get_all_stocks_latest_dates. cbn [columns rows].
  rewrite latest_dates_fold, lookup_empty.
  case_bool_decide as H.
  - apply latest_date_of_is_max. by apply (proj1 (elem_of_remove_dups _ _)).
  - intros r Hr Hc. apply H. apply (proj2 (elem_of_remove_dups _ _)).
    apply list_elem_of_In, in_map_iff. exists r. split; [done|]. by apply list_elem_of_In.
Qed.

End WatermarkFacts.

(* ===================================================================== *)
(** ** The incremental run *)
(* ===================================================================== *)

Module UpdaterFacts.
Import Frames Store Calendar Effects Fetcher Updater Spec Scenarios EffectFacts CalendarFacts.
Local Open Scope monad_scope.

(** *** What the steps of an iteration emit *)

Lemma emits_first_answer (P : event → Prop) env methods :
  (∀ m, m ∈ methods → P (Call m)) → emits P (first_answer env methods).
Proof.
  induction methods as [|m ms IH]; intros H; cbn [first_answer].
  - apply emits_ret.
  - apply emits_bind.
    + apply emits_try_except.
      * apply emits_bind; [apply emits_call, H; by left|]. intros df. apply emits_ret.
      * intros _. apply emits_ret.
    + assert (emits P (first_answer env ms)) by (apply IH; intros m' Hm'; apply H; by right).
      intros [df|]; [|done]. destruct (negb (empty df)); [apply emits_ret|done].
Qed.




(** *** The custom period *)




(** *** Planning *)





(** *** The bulk watermark query *)

Lemma fetch_stock_list_catalog env self : emits catalog_event (fetch_stock_list env self).
Proof.
  unfold fetch_stock_list, retry, fetch_stock_list_once.
  emits_steps ltac:(by split).
Qed.

Lemma fetch_stock_list_keeps env self : keeps_store (fetch_stock_list env self).
Proof. unfold fetch_stock_list, retry, fetch_stock_list_once. keeps_steps. Qed.

Lemma refresh_one_no_query env self price_period latest_dates cols total_stocks i row counts :
  emits no_watermark_query
        (refresh_one env self price_period latest_dates cols total_stocks i row counts).
Proof.
  unfold refresh_one, plan_and_fetch, strptime, update_prices, update_concepts, rate_limit,
    fetch_stock_prices, fetch_stock_concepts, retry, fetch_stock_prices_once,
    fetch_stock_concepts_once, date_range.
  emits_steps ltac:(done); try (apply emits_first_answer; intros; done).
Qed.

Lemma refresh_one_total env self price_period latest_dates cols total_stocks i row counts :
  total (refresh_one env self price_period latest_dates cols total_stocks i row counts).
Proof.
  intros w. unfold refresh_one, try_except.
  match goal with |- context [match ?m w with _ => _ end] => destruct (m w) as [[a|e] w'] end;
    by eexists.
Qed.

Lemma save_stock_info_keeps_concepts stock_data db :
  stock_concepts (save_stock_info stock_data db).2 = stock_concepts db.
Proof. unfold save_stock_info. by destruct (to_sql_stock_info stock_data []). Qed.

(** The incremental run up to the lookup of [get_all_stocks_latest_dates]. *)
Lemma download_incremental_catalog env self price_period w :
  download_incremental env self price_period w
  = match fetch_stock_list env (fetcher self) w with
    | (Ok stock_list, w1) =>
        if empty stock_list then (Ok false, w1)
        else
          match save_stock_info stock_list (store w1) with
          | (Ok _, db) =>
              (latest_dates_df <- call_latest_dates env ;;
               let latest_dates := latest_dates_dict latest_dates_df in
               counts <- for_rows (refresh_one env self price_period latest_dates
                                     (columns stock_list) (length (rows stock_list)))
                                  0%nat (rows stock_list) (0%nat, 0%nat) ;;
               emit (Summary counts.1 counts.2) ;;; ret true)
                (mkworld db (Db SaveStockInfo :: trace w1))
          | (Err e, db) => (Err e, mkworld db (Db SaveStockInfo :: trace w1))
          end
    | (Err e, w1) => (Err e, w1)
    end.
Proof.
  unfold download_incremental. unfold bind at 1.
  destruct (fetch_stock_list env (fetcher self) w) as [[stock_list|e] w1]; [|reflexivity].
  destruct (empty stock_list); [reflexivity|].
  unfold bind at 1. unfold db_call at 1.
  by destruct (save_stock_info stock_list (store w1)) as [[[]|e] db].
Qed.

(** C7, the code departs from the statement: [StockDatabase] has no
    method [get_all_stocks_latest_dates], so no incremental run ever
    resolves a watermark.  The run fetches the catalog and stores it; the
    lookup of the method then raises [AttributeError], which the handler
    of [download_all_stocks_data] turns into the answer [False].  Every
    incremental run therefore answers [False], makes no watermark query,
    asks the provider about no single instrument, and leaves the price and
    concept tables as they were. *)
Theorem C7_no_watermark_is_resolved env (self : StockDataUpdater) (price_period : string)
    (w : World) :
  latest_dates_method env = None →
  let run := download_all_stocks_data env self price_period true in
  match fetch_stock_list env (fetcher self) w with
  | (Ok stock_list, w1) =>
      if empty stock_list then run w = (Ok false, w1)
      else run w = (Ok false, mkworld (save_stock_info stock_list (store w1)).2
                                      (Db SaveStockInfo :: trace w1))
  | (Err e, w1) => run w = (Ok false, w1)
  end
  ∧ Forall catalog_event (new_events run w)
  ∧ stock_prices (store (run w).2) = stock_prices (store w)
  ∧ stock_concepts (store (run w).2) = stock_concepts (store w).
Proof.
  intros Hnone run.
  assert (Hrun : run w = try_except (download_incremental env self price_period)
                           (fun _ => ret false) w) by reflexivity.
  unfold try_except in Hrun. rewrite download_incremental_catalog in Hrun.
  destruct (fetch_stock_list_catalog env (fetcher self) w) as (evs & Etr & Fevs).
  pose proof (fetch_stock_list_keeps env (fetcher self) w) as Hst.
  destruct (fetch_stock_list env (fetcher self) w) as [[stock_list|e] w1];
    cbn [fst snd] in *.
  2:{ rewrite Hrun. cbn [ret snd store]. rewrite Hst. repeat split.
      by rewrite (new_events_app run w evs) by (by rewrite Hrun). }
  destruct (empty stock_list).
  { rewrite Hrun. cbn [ret snd store]. rewrite Hst. repeat split.
    by rewrite (new_events_app run w evs) by (by rewrite Hrun). }
  pose proof (StoreFacts.save_stock_info_keeps_prices stock_list (store w1)) as Hp.
  pose proof (save_stock_info_keeps_concepts stock_list (store w1)) as Hc.
  assert (Hout : run w = (Ok false, mkworld (save_stock_info stock_list (store w1)).2
                                            (Db SaveStockInfo :: trace w1))).
  { rewrite Hrun.
    destruct (save_stock_info stock_list (store w1)) as [[[]|e] db]; [|reflexivity].
    unfold bind at 1. unfold call_latest_dates. by rewrite Hnone. }
  split; [exact Hout|]. rewrite Hout. cbn [snd store]. rewrite Hp, Hc, Hst.
  repeat split.
  rewrite (new_events_app run w (Db SaveStockInfo :: evs)).
  - constructor; [by split|done].
  - rewrite Hout. cbn. by rewrite Etr.
Qed.

(** C7, an instance: three instruments are listed and the database holds
    prices of A up to 2024-01-10.  The run stores the catalog and stops:
    it answers [False] and has asked for no watermark and no price. *)
Lemma C7_incremental_run_example :
  let run := download_all_stocks_data abc_repository new_updater "all" true in
  (run stocked).1 = Ok false
  ∧ trace (run stocked).2
    = [Db SaveStockInfo; Call (stock_zh_a_stock_ipo (VText "A"));
       Call stock_info_sz_name_code; Call stock_info_sh_name_code;
       Call stock_info_a_code_name]
  ∧ Forall catalog_event (new_events run stocked)
  ∧ stock_prices (store (run stocked).2) = stock_prices (store stocked).
Proof.
  intros run.
  destruct (C7_no_watermark_is_resolved abc_repository new_updater "all" stocked eq_refl)
    as (Hrun & Hev & Hp & _).
  cbn in Hrun. fold run in Hrun, Hev, Hp.
  split; [by rewrite Hrun|]. split; [by rewrite Hrun|]. by split.
Defined.

(** Were [StockDatabase] completed with the bulk query that the
    specification describes, the incremental run would store the catalog,
    make that query once, before any request about a single instrument,
    run the loop with the dictionary built from that one answer without
    another query, and answer [True]; the dictionary would give every code
    the maximum date of the price rows stored for it when the run began,
    and nothing to a code without price rows. *)
Lemma one_bulk_query_if_defined env (self : StockDataUpdater) (price_period : string)
    (w : World) :
  latest_dates_method env = Some get_all_stocks_latest_dates →
  let run := download_all_stocks_data env self price_period true in
  match fetch_stock_list env (fetcher self) w with
  | (Ok stock_list, w1) =>
      if empty stock_list then run w = (Ok false, w1)
      else
        match save_stock_info stock_list (store w1) with
        | (Ok _, db) =>
            let w2 := mkworld db (Db SaveStockInfo :: trace w1) in
            run w = after_catalog env self price_period stock_list w2
            ∧ (run w).1 = Ok true
            ∧ (∃ loop_events,
                 trace (run w).2 = loop_events ++ Db GetAllStocksLatestDates :: trace w2
                 ∧ Forall no_watermark_query loop_events)
            ∧ (∃ catalog_events,
                 trace w2 = catalog_events ++ trace w
                 ∧ Forall catalog_event catalog_events)
            ∧ ∀ code,
                is_watermark (stock_prices (store w)) code
                  (latest_dates_dict (get_all_stocks_latest_dates db) !! code)
        | (Err e, db) => run w = (Ok false, mkworld db (Db SaveStockInfo :: trace w1))
        end
  | (Err e, w1) => run w = (Ok false, w1)
  end.
Proof.
  intros Hsome run.
  assert (Hrun : run w = try_except (download_incremental env self price_period)
                           (fun _ => ret false) w) by reflexivity.
  unfold try_except in Hrun. rewrite download_incremental_catalog in Hrun.
  destruct (fetch_stock_list_catalog env (fetcher self) w) as (evs & Etr & Fevs).
  pose proof (fetch_stock_list_keeps env (fetcher self) w) as Hst.
  destruct (fetch_stock_list env (fetcher self) w) as [[stock_list|e] w1];
    cbn [fst snd] in *; [|exact Hrun].
  destruct (empty stock_list); [exact Hrun|].
  pose proof (StoreFacts.save_stock_info_keeps_prices stock_list (store w1)) as Hprices.
  destruct (save_stock_info stock_list (store w1)) as [[[]|e] db2];
    cbn [fst snd] in *; [|exact Hrun].
  set (w2 := mkworld db2 (Db SaveStockInfo :: trace w1)).
  assert (Hafter : run w = after_catalog env self price_period stock_list w2).
  { rewrite Hrun. unfold bind at 1. unfold call_latest_dates. rewrite Hsome.
    reflexivity. }
  set (latest_dates := latest_dates_dict (get_all_stocks_latest_dates db2)).
  assert (Hloop : emits no_watermark_query
            (try_except
               (counts <- for_rows (refresh_one env self price_period latest_dates
                                      (columns stock_list) (length (rows stock_list)))
                                   0%nat (rows stock_list) (0%nat, 0%nat) ;;
                emit (Summary counts.1 counts.2) ;;; ret true)
               (fun _ => ret false))).
  { apply emits_try_except; [|intros _; apply emits_ret].
    apply emits_bind.
    - apply emits_for_rows. intros. apply refresh_one_no_query.
    - intros counts. apply emits_bind; [by apply emits_emit|]. intros _. apply emits_ret. }
  destruct (Hloop (mkworld (store w2) (Db GetAllStocksLatestDates :: trace w2)))
    as (loop_events & El & Fl).
  split; [exact Hafter|]. split; [|split; [|split]].
  - rewrite Hafter. unfold after_catalog, try_except, bind.
    change (store w2) with db2. fold latest_dates.
    match goal with
    | |- context [for_rows ?b ?i ?l ?s ?w0] =>
        destruct (for_rows_total b l (fun j x c => refresh_one_total _ _ _ _ _ _ j x c) i s w0)
          as [counts Ec]; destruct (for_rows b i l s w0) as [r3 w3]
    end.
    cbn in Ec. by subst r3.
  - exists loop_events. split; [|exact Fl].
    rewrite Hafter. unfold after_catalog. change (store w2) with db2.
    fold latest_dates. exact El.
  - exists (Db SaveStockInfo :: evs). split; [cbn; by rewrite Etr|].
    constructor; [by split|done].
  - intros code. rewrite <- Hst, <- Hprices. apply WatermarkFacts.bulk_watermarks.
Qed.

(** With that query, an incremental run over a database that holds
    prices of A up to 2024-01-10: one watermark query, and the prices of A
    are requested from 2024-01-11 through 2024-01-15. *)
Lemma one_query_example :
  let out := download_all_stocks_data abc_env new_updater "all" true stocked in
  out.1 = Ok true
  ∧ length (filter is_watermark_query (trace out.2)) = 1%nat
  ∧ filter (fun ev => is_price_request ev
                      && bool_decide (ev ≠ Call (stock_zh_a_hist (VText "B")
                                                   "19900101" "20240115")))
           (trace out.2)
    = [Call (stock_zh_a_hist (VText "C") "19900101" "20240115");
       Call (stock_zh_a_hist (VText "A") "20240111" "20240115")].
Proof. cbn zeta. repeat split; vm_compute; reflexivity. Qed.

End UpdaterFacts.

(* ===================================================================== *)
(** ** Further properties of the persistence layer *)
(* ===================================================================== *)

Module ReadFacts.
Import Frames Store Spec Reads WatermarkFacts.

(** *** Reading prices *)

Lemma insert_by_date_perm r l : insert_by_date r l ≡ₚ r :: l.
Proof.
  induction l as [|x l IH]; cbn [insert_by_date]; [done|].
  destruct (value_leb _ _); [done|]. rewrite IH. apply Permutation_swap.
Qed.

Lemma order_by_date_perm l : order_by_date l ≡ₚ l.
Proof.
  induction l as [|x l IH]; cbn; [done|].
  fold (order_by_date l). by rewrite insert_by_date_perm, IH.
Qed.

Lemma insert_by_date_sorted r l :
  StronglySorted by_date l → StronglySorted by_date (insert_by_date r l).
Proof.
  induction l as [|x l IH]; intros Hs; cbn [insert_by_date].
  - repeat constructor.
  - apply StronglySorted_inv in Hs as [Hs Hx].
    destruct (value_leb (sp_date r) (sp_date x)) eqn:E.
    + constructor; [by constructor|]. constructor; [done|].
      eapply Forall_impl; [exact Hx|]. intros y Hy. unfold by_date in *.
      by eapply value_leb_trans.
    + constructor; [by apply IH|].
      assert (Hxr : by_date x r).
      { unfold by_date. destruct (value_leb_total (sp_date r) (sp_date x)); congruence. }
      rewrite insert_by_date_perm. by constructor.
Qed.

Lemma order_by_date_sorted l : StronglySorted by_date (order_by_date l).
Proof.
  induction l as [|x l IH]; cbn; [constructor|]. by apply insert_by_date_sorted.
Qed.

Lemma same_key_eq a b : same_key a b = true ↔ a ≠ VNull ∧ a = b.
Proof.
  unfold same_key. destruct a, b; cbn; try rewrite bool_decide_eq_true;
    split; intros H; try discriminate; try tauto; try (by destruct H);
    try (split; [discriminate|tauto]).
Qed.

Lemma same_key_sym a b : same_key a b = same_key b a.
Proof.
  destruct (same_key a b) eqn:E1, (same_key b a) eqn:E2; try done.
  - apply same_key_eq in E1 as [H1 <-].
    assert (same_key a a = true) by (by apply same_key_eq). congruence.
  - apply same_key_eq in E2 as [H1 <-].
    assert (same_key b b = true) by (by apply same_key_eq). congruence.
Qed.

(** X1: [get_stock_prices] returns the stored rows of the code that lie
    within the bounds given, each as often as it is stored, in ascending
    order of date; a bound that is [None] or the empty text is no bound,
    and a [None] code matches no row. *)
Theorem X1_get_stock_prices_selects_and_orders
    (code start_date end_date : value) (db : Database) :
  let hits := select_prices code start_date end_date (stock_prices db) in
  rows (get_stock_prices code start_date end_date db) = map price_cells hits
  ∧ hits ≡ₚ filter (fun r => price_filter code start_date end_date r) (stock_prices db)
  ∧ StronglySorted by_date hits
  ∧ (∀ r, r ∈ hits ↔
          r ∈ stock_prices db ∧ code ≠ VNull ∧ sp_code r = code
          ∧ (truthy start_date = true →
             sp_date r ≠ VNull ∧ value_leb start_date (sp_date r) = true)
          ∧ (truthy end_date = true →
             sp_date r ≠ VNull ∧ value_leb (sp_date r) end_date = true))
  ∧ (code = VNull → hits = []).
Proof.
  cbn zeta. split; [reflexivity|]. split; [apply order_by_date_perm|].
  split; [apply order_by_date_sorted|].
  assert (Hiff : ∀ r, r ∈ select_prices code start_date end_date (stock_prices db) ↔
          r ∈ stock_prices db ∧ code ≠ VNull ∧ sp_code r = code
          ∧ (truthy start_date = true →
             sp_date r ≠ VNull ∧ value_leb start_date (sp_date r) = true)
          ∧ (truthy end_date = true →
             sp_date r ≠ VNull ∧ value_leb (sp_date r) end_date = true)).
  { intros r. unfold select_prices. rewrite order_by_date_perm, list_elem_of_filter.
    unfold price_filter. rewrite Is_true_true, !andb_true_iff, same_key_eq.
    assert (Hge : ∀ a b, truthy b = true →
              (sql_ge a b = true ↔ a ≠ VNull ∧ value_leb b a = true)).
    { intros a b Hb. unfold sql_ge. destruct a, b; cbn in *; try discriminate;
        split; intros H; try discriminate; try tauto; try (by destruct H);
        try (split; [discriminate|tauto]). }
    assert (Hle : ∀ a b, truthy b = true →
              (sql_le a b = true ↔ a ≠ VNull ∧ value_leb a b = true)).
    { intros a b Hb. unfold sql_le, sql_ge. destruct a, b; cbn in *; try discriminate;
        split; intros H; try discriminate; try tauto; try (by destruct H);
        try (split; [discriminate|tauto]). }
    destruct (truthy start_date) eqn:Es, (truthy end_date) eqn:Ee;
      rewrite ?(Hge _ _ Es), ?(Hle _ _ Ee); split.
    all: try (intros [[[[Hc1 Hc2] Hs] He] Hin]; subst code; repeat split; try done; tauto).
    all: try (intros (Hin & Hc & Hcode & Hs & He); subst code; repeat split; try done;
              try (by apply Hs); try (by apply He)). }
  split; [exact Hiff|].
  intros ->. destruct (select_prices VNull start_date end_date (stock_prices db))
    as [|r l] eqn:E; [done|].
  assert (Hr : r ∈ r :: l) by (by left).
  apply Hiff in Hr. by destruct Hr as (_ & Hn & _).
Qed.

Lemma value_leb_antisym a b : value_leb a b = true → value_leb b a = true → a = b.
Proof.
  destruct a as [|s|x], b as [|t|y]; cbn; try done.
  - intros H1 H2. f_equal. by apply String.leb_antisym.
  - rewrite !Z.leb_le. intros. f_equal. lia.
Qed.

(** An integer of at most 53 bits, and the power of two after them, is
    its own double. *)
Lemma to_double_small z : Z.abs z <= 2 ^ 53 → to_double z = z.
Proof.
  intros H. unfold to_double.
  destruct (Z.leb_spec (Z.log2 (Z.abs z) + 1) 53) as [|Hbig]; [done|].
  assert (Hpos : 0 < Z.abs z).
  { destruct (Z.eq_dec (Z.abs z) 0) as [E|E]; [|lia].
    rewrite E in Hbig. cbn in Hbig. lia. }
  assert (Hlow : 2 ^ 53 <= Z.abs z).
  { etrans; [|apply (Z.log2_spec _ Hpos)]. apply Z.pow_le_mono_r; lia. }
  assert (Hz : z = 2 ^ 53 ∨ z = - 2 ^ 53) by lia.
  destruct Hz as [-> | ->]; reflexivity.
Qed.

Lemma real_affinity_as_written v : as_written v → real_affinity v = v.
Proof. intros [->|(z & -> & Hz)]; [done|]. cbn. by rewrite to_double_small. Qed.

Lemma save_price_point (code date : string) o h l cl v a db :
  forallb bindable [o; h; l; cl; v; a] = true →
  save_stock_prices (price_point (VText code) (VText date) o h l cl v a) db
  = (Ok (),
     mkdb (stock_info db)
       (filter (fun old => negb (same_key (sp_code old) (VText code)
                                 && same_key (sp_date old) (VText date)))
               (stock_prices db)
        ++ [mkprice (price_seq db + 1) (VText code) (VText date)
              (real_affinity o) (real_affinity h) (real_affinity l) (real_affinity cl)
              (real_affinity v) (real_affinity a)])
       (price_seq db + 1) (stock_concepts db)).
Proof.
  intros Hb. unfold save_stock_prices, price_point. cbn [empty columns rows].
  change (bool_decide (price_insert_columns = []) || bool_decide ([_] = [])) with false.
  cbv iota. rewrite bool_decide_eq_true_2 by reflexivity.
  cbn [executemany]. unfold insert_or_replace. cbn [stored map text_affinity].
  change (forallb bindable (VText code :: VText date :: ?l)) with (forallb bindable l).
  by rewrite Hb.
Qed.

(** X2: a price point written by [save_stock_prices] under a text code
    and a text date is what [get_stock_prices] returns for that code and
    that date as both bounds: one row, with the next id, the code and the
    date as written, and each figure in the form a REAL column stores it;
    a figure that is missing, or an integer that a double holds exactly,
    comes back as it was written. *)
Theorem X2_saved_price_is_read_back
    (db : Database) (code date : string) (o h l cl v a : value) :
  date ≠ EmptyString →
  Forall (fun x => bindable x = true ∧ exact_figure x = true) [o; h; l; cl; v; a] →
  let point := price_point (VText code) (VText date) o h l cl v a in
  let read := rows (get_stock_prices (VText code) (VText date) (VText date)
                      (save_stock_prices point db).2) in
  read = [[VNum (price_seq db + 1); VText code; VText date;
           real_affinity o; real_affinity h; real_affinity l; real_affinity cl;
           real_affinity v; real_affinity a]]
  ∧ (Forall as_written [o; h; l; cl; v; a] →
     read = [[VNum (price_seq db + 1); VText code; VText date; o; h; l; cl; v; a]]).
Proof.
  intros Hd Hfig. cbn zeta.
  assert (Hb : forallb bindable [o; h; l; cl; v; a] = true).
  { apply forallb_forall. intros x Hx. rewrite Forall_forall in Hfig.
    by apply Hfig, list_elem_of_In. }
  assert (Hread : rows (get_stock_prices (VText code) (VText date) (VText date)
                          (save_stock_prices
                             (price_point (VText code) (VText date) o h l cl v a) db).2)
                  = [[VNum (price_seq db + 1); VText code; VText date;
                      real_affinity o; real_affinity h; real_affinity l; real_affinity cl;
                      real_affinity v; real_affinity a]]).
  { rewrite save_price_point by done. cbn [snd].
    unfold get_stock_prices, select_prices. cbn [rows stock_prices].
    pose proof (StoreFacts.replace_rows_at (VText code) (VText date)
                  (real_affinity o) (real_affinity h) (real_affinity l) (real_affinity cl)
                  (real_affinity v) (real_affinity a) (stock_prices db) (price_seq db + 1)
                  (VText code) (VText date)) as Hrows.
    rewrite !bool_decide_eq_true_2 in Hrows by done. cbn [app] in Hrows.
    rewrite (list_filter_iff _ (fun r => sp_code r = VText code ∧ sp_date r = VText date)).
    - unfold rows_at in Hrows. rewrite Hrows. reflexivity.
    - intros r. unfold price_filter. cbn [truthy].
      rewrite (bool_decide_eq_false_2 (date = EmptyString)) by done. cbn [negb].
      rewrite Is_true_true, !andb_true_iff, same_key_eq.
      unfold sql_le, sql_ge. split.
      + intros [[[_ H1] H2] H3]. split; [done|].
        destruct (sp_date r) eqn:Er; try discriminate.
        by apply value_leb_antisym.
      + intros [H1 H2]. rewrite H1, H2.
        destruct (value_leb_total (VText date) (VText date)) as [Hr|Hr];
          repeat split; try done. }
  split; [exact Hread|].
  intros Hw. rewrite Hread.
  rewrite !Forall_cons in Hw. destruct Hw as (Ho & Hh & Hl & Hcl & Hv & Ha & _).
  by rewrite !real_affinity_as_written.
Qed.

(** The instance for the price point of the upsert example, with a
    volume of 2^53 + 1, which no double holds: it comes back as 2^53. *)
Lemma X2_read_back_example :
  rows (get_stock_prices (VText "600000") (VText "2024-01-02") (VText "2024-01-02")
          (save_stock_prices
             (price_point (VText "600000") (VText "2024-01-02")
                (VNum 10) (VNum 12) (VNum 9) (VNum 11) (VNum (2 ^ 53 + 1)) (VNum 11000))
             init_database).2)
  = [[VNum 1; VText "600000"; VText "2024-01-02";
      VNum 10; VNum 12; VNum 9; VNum 11; VNum (2 ^ 53); VNum 11000]].
Proof.
  apply (proj1 (X2_saved_price_is_read_back init_database "600000" "2024-01-02"
                  (VNum 10) (VNum 12) (VNum 9) (VNum 11) (VNum (2 ^ 53 + 1)) (VNum 11000)
                  ltac:(discriminate) ltac:(repeat constructor))).
Defined.

(** *** Saving a batch of prices twice *)

Lemma filter_all {A} (P : A → Prop) `{∀ x, Decision (P x)} (l : list A) :
  (∀ x, x ∈ l → P x) → filter P l = l.
Proof.
  induction l as [|x l IH]; intros Hall; [done|].
  rewrite filter_cons_True by (apply Hall; by left).
  f_equal. apply IH. intros y Hy. apply Hall. by right.
Qed.

Lemma filter_none {A} (P : A → Prop) `{∀ x, Decision (P x)} (l : list A) :
  (∀ x, x ∈ l → ¬ P x) → filter P l = [].
Proof.
  induction l as [|x l IH]; intros Hall; [done|].
  rewrite filter_cons_False by (apply Hall; by left).
  apply IH. intros y Hy. apply Hall. by right.
Qed.

Lemma map_content_filter (Q : list value → bool) (T : list PriceRow) :
  map content (filter (fun r => Q (content r)) T) = filter Q (map content T).
Proof.
  induction T as [|r T IH]; [done|]. cbn [map].
  destruct (Q (content r)) eqn:E.
  - rewrite !filter_cons_True by (by rewrite E). cbn [map]. by rewrite IH.
  - rewrite !filter_cons_False by (rewrite E; exact id). exact IH.
Qed.

(** What a batch leaves in the table, ids apart: the stored contents that
    no tuple of the batch replaces, then the last writes of the batch,
    each tuple in its stored form. *)
Lemma executemany_content batch : ∀ T s T' s',
  executemany batch (T, s) = Ok (T', s') →
  map content T'
  = filter (untouched (map stored batch)) (map content T) ++ last_writes (map stored batch).
Proof.
  induction batch as [|t batch IH]; intros T s T' s' H.
  - cbn in H. injection H as <- <-. cbn [map last_writes]. rewrite app_nil_r.
    symmetry. by apply filter_all.
  - cbn [executemany] in H.
    destruct (insert_or_replace t (T, s)) as [[T1 s1]|] eqn:E; [|discriminate].
    apply StoreFacts.insert_or_replace_inv in E
      as (c & d & o & h & l & cl & v & a & Est & [= -> ->]).
    apply IH in H. rewrite H. cbn [map last_writes]. rewrite Est.
    rewrite map_app.
    change (filter (fun old => negb (same_key (sp_code old) c && same_key (sp_date old) d)) T)
      with (filter (fun r => (fun x => negb (same_target x [c; d; o; h; l; cl; v; a]))
                               (content r)) T).
    rewrite map_content_filter, filter_app, list_filter_filter, <- app_assoc.
    f_equal.
    + apply list_filter_iff. intros x. unfold untouched. cbn [forallb].
      rewrite !Is_true_true, andb_true_iff. tauto.
    + f_equal. cbn [map]. change (content _) with [c; d; o; h; l; cl; v; a].
      unfold untouched at 1.
      destruct (existsb (same_target [c; d; o; h; l; cl; v; a]) (map stored batch)) eqn:Ex.
      * apply filter_none. intros x Hx Hn. apply list_elem_of_singleton in Hx as ->.
        apply Is_true_true in Hn.
        apply existsb_exists in Ex as (u & Hu & Hu').
        rewrite forallb_forall in Hn. specialize (Hn u Hu). by rewrite Hu' in Hn.
      * apply filter_all. intros x Hx. apply list_elem_of_singleton in Hx as ->.
        apply Is_true_true, forallb_forall. intros u Hu.
        destruct (same_target _ u) eqn:Eu; [|done].
        assert (existsb (same_target [c; d; o; h; l; cl; v; a]) (map stored batch) = true)
          by (apply existsb_exists; eauto). congruence.
Qed.

(** Whether a batch is accepted depends on its tuples only. *)
Lemma executemany_shape batch : ∀ st st' r,
  executemany batch st = Ok r → ∃ r', executemany batch st' = Ok r'.
Proof.
  induction batch as [|t batch IH]; intros st st' r H; [by eexists|].
  cbn [executemany] in *.
  destruct (insert_or_replace t st) as [st1|] eqn:E; [|discriminate].
  assert (∃ st1', insert_or_replace t st' = Ok st1') as [st1' E'].
  { unfold insert_or_replace in *.
    destruct (stored t) as [|c [|d [|o [|h [|l [|cl [|v [|a [|]]]]]]]]]; try discriminate.
    destruct (forallb bindable t); [by eexists|discriminate]. }
  rewrite E'. by eapply IH.
Qed.

Lemma last_writes_subset batch t : t ∈ last_writes batch → t ∈ batch.
Proof.
  induction batch as [|u batch IH]; cbn [last_writes]; [done|].
  intros H. apply elem_of_app in H as [H|H].
  - destruct (existsb _ _); [by apply elem_of_nil in H|].
    apply list_elem_of_singleton in H as ->. by left.
  - right. by apply IH.
Qed.

Lemma keyed_same_target t : keyed t → same_target (stored t) (stored t) = true.
Proof.
  intros (c & d & rest & -> & Hc & Hd). cbn.
  apply andb_true_intro. split; apply same_key_eq; (split; [|done]).
  - by destruct c.
  - by destruct d.
Qed.

(** X3: saving the same batch of prices a second time changes nothing but
    the ids, provided every tuple of the batch has a code and a date:
    the table holds the same contents in the same order. *)
Theorem X3_saving_twice_is_saving_once (price_data : DataFrame) (db : Database) :
  Forall keyed (rows price_data) →
  let once := (save_stock_prices price_data db).2 in
  let twice := (save_stock_prices price_data once).2 in
  map content (stock_prices twice) = map content (stock_prices once).
Proof.
  intros Hk. cbn zeta. unfold save_stock_prices.
  destruct (empty price_data); [done|].
  case_bool_decide; [|done].
  destruct (executemany (rows price_data) (stock_prices db, price_seq db))
    as [[T1 s1]|] eqn:E1; cbn [snd stock_prices price_seq].
  2:{ by rewrite E1. }
  destruct (executemany_shape (rows price_data) (stock_prices db, price_seq db) (T1, s1)
              _ E1) as [[T2 s2] E2].
  rewrite E2. cbn [snd stock_prices].
  apply executemany_content in E1, E2. rewrite E2, E1.
  f_equal. rewrite filter_app, (filter_none _ (last_writes _)), app_nil_r.
  - rewrite list_filter_filter. apply list_filter_iff. tauto.
  - intros t Ht Hn. apply last_writes_subset in Ht.
    apply Is_true_true in Hn. unfold untouched in Hn. rewrite forallb_forall in Hn.
    pose proof Ht as Ht'. apply list_elem_of_In in Ht'. specialize (Hn t Ht').
    apply list_elem_of_fmap in Ht as (u & -> & Hu).
    rewrite keyed_same_target in Hn; [done|].
    rewrite Forall_forall in Hk. by apply Hk.
Qed.

(** A batch that writes one (code, date) twice, saved twice. *)
Lemma X3_twice_example :
  let batch := mkframe price_insert_columns
                 [[VText "600000"; VText "2024-01-02"; VNum 10; VNum 12; VNum 9; VNum 11;
                   VNum 1000; VNum 11000];
                  [VText "600000"; VText "2024-01-03"; VNum 11; VNum 12; VNum 10; VNum 12;
                   VNum 900; VNum 10000];
                  [VText "600000"; VText "2024-01-02"; VNum 10; VNum 12; VNum 9; VNum 13;
                   VNum 1000; VNum 11000]] in
  let once := (save_stock_prices batch init_database).2 in
  map content (stock_prices (save_stock_prices batch once).2)
  = map content (stock_prices once).
Proof.
  apply X3_saving_twice_is_saving_once.
  repeat constructor; eexists _, _, _; (split; [reflexivity|split; discriminate]).
Defined.

(** *** Keys of the catalog and of the concept table *)

Lemma unique_by_nil {A} (clash : A → A → bool) : unique_by clash [].
Proof. intros i j a b H. by rewrite lookup_nil in H. Qed.

Lemma unique_by_snoc {A} (clash : A → A → bool) (l : list A) (x : A) :
  (∀ a b, clash a b = clash b a) →
  unique_by clash l →
  existsb (fun old => clash old x) l = false →
  unique_by clash (l ++ [x]).
Proof.
  intros Hsym Hl Hx i j a b Hi Hj Hab.
  assert (Hfresh : ∀ k y, l !! k = Some y → clash y x = false).
  { intros k y Hy. destruct (clash y x) eqn:E; [|done].
    assert (existsb (fun old => clash old x) l = true); [|congruence].
    apply existsb_exists. exists y. split; [|done].
    apply list_elem_of_In, list_elem_of_lookup. eauto. }
  apply lookup_app_Some in Hi as [Hi|[Hi Hi']];
    apply lookup_app_Some in Hj as [Hj|[Hj Hj']].
  - by eapply Hl.
  - apply list_lookup_singleton_Some in Hj' as [_ <-].
    rewrite (Hfresh _ _ Hi) in Hab. discriminate.
  - apply list_lookup_singleton_Some in Hi' as [_ <-].
    rewrite Hsym, (Hfresh _ _ Hj) in Hab. discriminate.
  - apply list_lookup_singleton_Some in Hi' as [Hi' _].
    apply list_lookup_singleton_Some in Hj' as [Hj' _]. lia.
Qed.

Lemma info_clash_sym a b : info_clash a b = info_clash b a.
Proof. apply same_key_sym. Qed.

Lemma tag_clash_sym a b : tag_clash a b = tag_clash b a.
Proof.
  unfold tag_clash. by rewrite (same_key_sym (sc_code a)), (same_key_sym (sc_concept a)).
Qed.

Lemma insert_infos_unique new : ∀ acc tbl,
  insert_infos new acc = Ok tbl → unique_by info_clash acc → unique_by info_clash tbl.
Proof.
  induction new as [|r new IH]; intros acc tbl H Hacc; simpl in H.
  - by injection H as <-.
  - destruct (existsb _ acc) eqn:E; [discriminate|].
    eapply IH; [exact H|]. by apply unique_by_snoc; [apply info_clash_sym| |].
Qed.

Lemma existsb_never {A} (f : A → bool) (l : list A) :
  (∀ x, f x = false) → existsb f l = false.
Proof.
  intros H. induction l as [|x l IH]; [done|]. cbn. by rewrite H, IH.
Qed.

Lemma insert_infos_without_code (names : list string) : ∀ acc,
  insert_infos (map (fun n => mkinfo VNull (VText n) VNull VNull VNull VNull) names) acc
  = Ok (acc ++ map (fun n => mkinfo VNull (VText n) VNull VNull VNull VNull) names).
Proof.
  induction names as [|n names IH]; intros acc; cbn [map insert_infos].
  - by rewrite app_nil_r.
  - rewrite existsb_never.
    + by rewrite IH, <- app_assoc.
    + intros old. cbn. by destruct (si_code old).
Qed.

(** X4: whatever frame [save_stock_info] is given and whatever it
    answers, no code other than NULL is in two rows of the instrument
    table it leaves.  NULL is not constrained: a list of instruments that
    all lack their code is accepted and stored whole, one row each. *)
Theorem X4_catalog_codes_are_unique (stock_data : DataFrame) (db : Database) :
  unique_codes (stock_info (save_stock_info stock_data db).2)
  ∧ ∀ names : list string,
      let nameless := mkframe ["code"; "name"] (map (fun n => [VNull; VText n]) names) in
      (save_stock_info nameless db).1 = Ok ()
      ∧ stock_info (save_stock_info nameless db).2
        = map (fun n => mkinfo VNull (VText n) VNull VNull VNull VNull) names.
Proof.
  split.
  - assert (H : unique_by info_clash (stock_info (save_stock_info stock_data db).2)).
    { unfold save_stock_info.
      destruct (to_sql_stock_info stock_data []) as [tbl|e] eqn:E; cbn [snd stock_info].
      - unfold to_sql_stock_info in E. destruct (forallb _ _); [|discriminate].
        eapply insert_infos_unique; [exact E|apply unique_by_nil].
      - apply unique_by_nil. }
    intros i j r1 r2 Hi Hj Hc. by eapply H.
  - intros names. cbn zeta. unfold save_stock_info, to_sql_stock_info.
    cbn [columns rows]. rewrite map_map.
    change (forallb _ ["code"; "name"]) with true. cbv iota.
    rewrite (map_ext _ (fun n => mkinfo VNull (VText n) VNull VNull VNull VNull)) by done.
    by rewrite insert_infos_without_code.
Qed.

Lemma insert_concepts_unique new : ∀ acc tbl,
  insert_concepts new acc = Ok tbl → unique_by tag_clash acc → unique_by tag_clash tbl.
Proof.
  induction new as [|r new IH]; intros acc tbl H Hacc; simpl in H.
  - by injection H as <-.
  - destruct (existsb _ acc) eqn:E; [discriminate|].
    eapply IH; [exact H|]. by apply unique_by_snoc; [apply tag_clash_sym| |].
Qed.

Lemma save_stock_concepts_unique df db :
  unique_by tag_clash (stock_concepts db) →
  unique_by tag_clash (stock_concepts (save_stock_concepts df db).2).
Proof.
  intros Hu. unfold save_stock_concepts.
  destruct (empty df); [done|]. destruct (forallb _ _); [|done].
  destruct (insert_concepts _ _) as [tbl|e] eqn:E; [|done].
  cbn. by eapply insert_concepts_unique.
Qed.

(** X5: after any sequence of [save_stock_concepts] calls on a fresh
    database, accepted or refused, no (code, concept) of which neither
    part is NULL is stored twice.  NULL is not constrained: a tag without
    concept saved twice is accepted twice and stored twice. *)
Theorem X5_concept_tags_are_unique (batches : list DataFrame) :
  unique_tags (stock_concepts (save_all_concepts batches init_database))
  ∧ ∀ (code : string) (db : Database),
      let tag := mkframe ["code"; "concept"] [[VText code; VNull]] in
      save_stock_concepts tag db
      = (Ok (), mkdb (stock_info db) (stock_prices db) (price_seq db)
                     (stock_concepts db ++ [mkconcept (VText code) VNull]))
      ∧ stock_concepts (save_all_concepts [tag; tag] db)
        = stock_concepts db ++ [mkconcept (VText code) VNull; mkconcept (VText code) VNull].
Proof.
  split.
  - assert (H : ∀ db, unique_by tag_clash (stock_concepts db) →
                      unique_by tag_clash (stock_concepts (save_all_concepts batches db))).
    { induction batches as [|df batches IH]; intros db Hdb; [done|].
      cbn. apply IH. by apply save_stock_concepts_unique. }
    intros i j r1 r2 Hi Hj Hc Hk.
    eapply (H init_database); [apply unique_by_nil|exact Hi|exact Hj|].
    unfold tag_clash. by rewrite Hc, Hk.
  - intros code db. cbn zeta.
    assert (Hone : ∀ db0, save_stock_concepts
                            (mkframe ["code"; "concept"] [[VText code; VNull]]) db0
                   = (Ok (), mkdb (stock_info db0) (stock_prices db0) (price_seq db0)
                                  (stock_concepts db0 ++ [mkconcept (VText code) VNull]))).
    { intros db0. unfold save_stock_concepts.
      change (empty _) with false. cbv iota.
      change (forallb _ ["code"; "concept"]) with true. cbv iota.
      cbn [columns rows map insert_concepts].
      change (concept_of_cells ["code"; "concept"] [VText code; VNull])
        with (mkconcept (VText code) VNull).
      rewrite existsb_never; [reflexivity|].
      intros old. cbn. destruct (sc_concept old); by rewrite andb_false_r. }
    split; [apply Hone|].
    cbn [save_all_concepts foldl]. rewrite !Hone. cbn [snd stock_concepts].
    by rewrite <- app_assoc.
Qed.

(** X6: [save_stock_concepts] only ever adds.  Whatever it answers, every
    row [get_stock_concepts] returned before is still returned
    afterwards; and when it accepts a frame that is not empty, each tag of
    the frame is returned for its code. *)
Theorem X6_concepts_only_grow (concept_data : DataFrame) (db : Database) (code : value) :
  let out := save_stock_concepts concept_data db in
  (∀ r, r ∈ rows (get_stock_concepts code db) → r ∈ rows (get_stock_concepts code out.2))
  ∧ (out.1 = Ok () → empty concept_data = false →
     ∀ cells, cells ∈ rows concept_data →
       let tag := concept_of_cells (columns concept_data) cells in
       truthy code = true → same_key (sc_code tag) code = true →
       [sc_code tag; sc_concept tag] ∈ rows (get_stock_concepts code out.2)).
Proof.
  cbn zeta. unfold save_stock_concepts.
  destruct (empty concept_data) eqn:Ee; [by split|].
  destruct (forallb _ _); [|by split].
  destruct (insert_concepts _ _) as [tbl|e] eqn:E; [|by split].
  apply FetcherFacts.insert_concepts_ok in E. subst tbl. cbn [fst snd].
  unfold get_stock_concepts, select_concepts. cbn [rows stock_concepts]. split.
  - intros r Hr. apply list_elem_of_In, in_map_iff in Hr as (x & <- & Hx).
    apply list_elem_of_In, in_map_iff. exists x. split; [done|].
    apply list_elem_of_In. apply list_elem_of_In in Hx.
    destruct (truthy code).
    + rewrite filter_app. apply elem_of_app. by left.
    + apply elem_of_app. by left.
  - intros _ _ cells Hcells Ht Hk. rewrite Ht.
    apply list_elem_of_In, in_map_iff.
    exists (concept_of_cells (columns concept_data) cells). split; [done|].
    apply list_elem_of_In. rewrite filter_app. apply elem_of_app. right.
    apply list_elem_of_filter. split; [by rewrite Hk|].
    apply list_elem_of_In, in_map_iff. exists cells. split; [done|].
    by apply list_elem_of_In.
Qed.

(** Two tags saved for 600000 on top of one stored tag. *)
Lemma X6_grow_example :
  let db := mkdb [] [] 0 [mkconcept (VText "600000") (VText "AI")] in
  let batch := mkframe ["code"; "concept"]
                 [[VText "600000"; VText "Cloud"]; [VText "600000"; VText "Chips"]] in
  [VText "600000"; VText "Chips"]
  ∈ rows (get_stock_concepts (VText "600000") (save_stock_concepts batch db).2).
Proof.
  intros db batch.
  apply (proj2 (X6_concepts_only_grow batch db (VText "600000")) eq_refl eq_refl
           [VText "600000"; VText "Chips"]); [|reflexivity|reflexivity].
  apply (bool_decide_unpack _). vm_compute. exact I.
Defined.

End ReadFacts.

(* ===================================================================== *)
(** ** Further properties of the fetcher *)
(* ===================================================================== *)

Module CatalogFacts.
Import Frames Store Calendar Effects Fetcher Updater Spec Scenarios Reads EffectFacts
  ReadFacts.
Local Open Scope monad_scope.

(** *** The join of the primary list with the exchange feeds *)

Lemma flat_map_map {A B C} (f : A → list B) (g : B → C) (l : list A) :
  map g (flat_map f l) = flat_map (fun x => map g (f x)) l.
Proof.
  induction l as [|x l IH]; [done|]. cbn [flat_map]. by rewrite map_app, IH.
Qed.

(** The catalog built from a primary list and an enrichment. *)
Lemma merged_catalog (primary : list (list value)) (stock_info : DataFrame) :
  prefer_primary_name (merge_on_code (mkframe ["code"; "name"] primary) stock_info)
  = mkframe catalog_columns (flat_map (joined stock_info) primary).
Proof.
  unfold prefer_primary_name, merge_on_code.
  change (has_column "name_x" _ && has_column "name_y" _) with true. cbv iota.
  unfold drop, assign_with.
  change (has_column "name" _) with false. cbv iota.
  cbn [columns rows]. f_equal.
  rewrite !flat_map_map. apply flat_map_ext. intros l. unfold joined.
  destruct (filter _ (rows stock_info)) as [|m ms]; [reflexivity|].
  rewrite !map_map. apply map_ext. intros r. reflexivity.
Qed.

Lemma joined_rows stock_info l r :
  r ∈ joined stock_info l →
  ∃ i a m n', r = [cell "code" ["code"; "name"] l; i; a; m;
                    fillna (cell "name" ["code"; "name"] l) n'].
Proof.
  unfold joined. destruct (filter _ (rows stock_info)) as [|x xs].
  - intros H. apply list_elem_of_singleton in H as ->.
    by exists VNull, VNull, VNull, VNull.
  - intros H. apply list_elem_of_In, in_map_iff in H as (y & <- & _). by eexists _, _, _, _.
Qed.

Lemma joined_nonempty stock_info l : (1 ≤ length (joined stock_info l))%nat.
Proof.
  unfold joined. destruct (filter _ (rows stock_info)); cbn; lia.
Qed.

(** X7: the catalog [fetch_stock_list] builds from a primary list and an
    enrichment is a left join.  Its columns are code, industry, area,
    market, name; a code appears in it exactly if it appears in the
    primary list, and the catalog has at least as many rows as the list;
    every row carries the name of the primary row it comes from unless
    that name is missing. *)
Theorem X7_catalog_is_a_left_join (primary : list (list value)) (stock_info : DataFrame) :
  let stock_list := mkframe ["code"; "name"] primary in
  let result := prefer_primary_name (merge_on_code stock_list stock_info) in
  columns result = catalog_columns
  ∧ (∀ c, c ∈ column "code" result ↔ c ∈ column "code" stock_list)
  ∧ (length (rows stock_list) ≤ length (rows result))%nat
  ∧ ∀ r, r ∈ rows result →
      ∃ l, l ∈ primary
           ∧ cell "code" (columns result) r = cell "code" ["code"; "name"] l
           ∧ (cell "name" ["code"; "name"] l ≠ VNull →
              cell "name" (columns result) r = cell "name" ["code"; "name"] l).
Proof.
  cbn zeta. rewrite merged_catalog. cbn [columns rows].
  split; [reflexivity|]. split; [|split].
  - intros c. unfold column. cbn [columns rows]. split.
    + intros H. apply list_elem_of_In, in_map_iff in H as (r & <- & Hr).
      apply in_flat_map in Hr as (l & Hl & Hr).
      apply list_elem_of_In, joined_rows in Hr as (i & a & m & n' & ->).
      apply list_elem_of_In, in_map_iff. by exists l.
    + intros H. apply list_elem_of_In, in_map_iff in H as (l & <- & Hl).
      pose proof (joined_nonempty stock_info l) as Hne.
      destruct (joined stock_info l) as [|r rs] eqn:E; [cbn in Hne; lia|].
      assert (Hr : r ∈ joined stock_info l) by (rewrite E; by left).
      pose proof Hr as Hr'. apply joined_rows in Hr' as (i & a & m & n' & ->).
      apply list_elem_of_In, in_map_iff. eexists. split; [|apply in_flat_map; exists l;
        split; [done|by apply list_elem_of_In]]. reflexivity.
  - induction primary as [|l primary IH]; [done|].
    cbn [flat_map]. rewrite length_app. cbn [length].
    pose proof (joined_nonempty stock_info l). lia.
  - intros r Hr. apply list_elem_of_In, in_flat_map in Hr as (l & Hl & Hr).
    exists l. split; [by apply list_elem_of_In|].
    apply list_elem_of_In, joined_rows in Hr as (i & a & m & n' & ->).
    split; [reflexivity|]. intros Hn.
    change (cell "name" catalog_columns _)
      with (fillna (cell "name" ["code"; "name"] l) n').
    by destruct (cell "name" ["code"; "name"] l).
Qed.

(** *** One attempt of the list fetch *)

Lemma returns_ret {A} (Q : A → Prop) a : Q a → returns Q (ret a).
Proof. intros H w a' w' [= <- _]. exact H. Qed.

Lemma returns_bind {A B} (Q : B → Prop) (m : M A) (k : A → M B) :
  (∀ a, returns Q (k a)) → returns Q (bind m k).
Proof.
  intros Hk w b w' H. unfold bind in H.
  destruct (m w) as [[a|e] w1]; [by eapply Hk|discriminate].
Qed.

Lemma total_ret {A} (a : A) : total (ret a).
Proof. intros w. by eexists. Qed.

Lemma total_bind {A B} (m : M A) (k : A → M B) :
  total m → (∀ a, total (k a)) → total (bind m k).
Proof.
  intros Hm Hk w. destruct (Hm w) as [a E]. unfold bind.
  destruct (m w) as [r w1]. cbn in E. subst r. apply Hk.
Qed.

Lemma total_try_except {A} (m : M A) (h : exn → M A) :
  (∀ e, total (h e)) → total (try_except m h).
Proof.
  intros Hh w. unfold try_except. destruct (m w) as [[a|e] w1]; [by eexists|apply Hh].
Qed.

Lemma total_today env : total (today env).
Proof. intros w. by eexists. Qed.

Lemma catalog_shape (primary : list (list value)) (stock_info : DataFrame) (v : value) :
  let result :=
    if negb (empty stock_info)
    then prefer_primary_name (merge_on_code (mkframe ["code"; "name"] primary) stock_info)
    else assign "market" VNull
           (assign "area" VNull (assign "industry" VNull (mkframe ["code"; "name"] primary))) in
  let final := assign "list_date" v result in
  columns final ≡ₚ ["code"; "name"; "industry"; "area"; "market"; "list_date"]
  ∧ (length primary ≤ length (rows final))%nat.
Proof.
  cbn zeta. destruct (negb (empty stock_info)).
  - rewrite merged_catalog. unfold assign, assign_with.
    change (has_column "list_date" _) with false. cbv iota. cbn [columns rows]. split.
    + apply (bool_decide_unpack _). vm_compute. exact I.
    + rewrite length_map.
      induction primary as [|l primary IH]; [done|].
      cbn [flat_map]. rewrite length_app. cbn [length].
      pose proof (joined_nonempty stock_info l). lia.
  - unfold assign, assign_with.
    change (has_column "industry" _) with false. cbv iota.
    change (has_column "area" _) with false. cbv iota.
    change (has_column "market" _) with false. cbv iota.
    change (has_column "list_date" _) with false. cbv iota.
    cbn [columns rows]. split; [reflexivity|]. by rewrite !length_map.
Qed.

Lemma fetch_stock_list_once_answered env self w df :
  provider env (trace w) stock_info_a_code_name = Returns df →
  fetch_stock_list_once env self w =
    let asked := mkworld (store w) (Call stock_info_a_code_name :: trace w) in
    if empty df then (Ok no_frame, asked)
    else match set_columns ["code"; "name"] df with
         | Some stock_list => enrich env stock_list asked
         | None => (Err ValueError, asked)
         end.
Proof.
  intros H. unfold fetch_stock_list_once. unfold bind at 1. unfold call at 1. rewrite H.
  cbn zeta. destruct (empty df); [reflexivity|].
  unfold bind at 1. by destruct (set_columns ["code"; "name"] df).
Qed.

Lemma enrich_keeps env stock_list : keeps_store (enrich env stock_list).
Proof. unfold enrich. keeps_steps. Qed.

(** *** The check of the merge keys *)

Lemma text_codes_not_numeric df :
  text_codes df → numeric_dtype (column "code" df) = false.
Proof.
  intros H. unfold numeric_dtype, column. apply andb_false_iff. right.
  induction H as [|r l (s & Hs) _ IH]; [done|].
  cbn [map existsb]. by rewrite Hs.
Qed.

Lemma text_codes_primary primary :
  Forall text_first primary → text_codes (mkframe ["code"; "name"] primary).
Proof.
  intros H. unfold text_codes. cbn [rows columns].
  eapply Forall_impl; [exact H|]. intros r (s & rest & ->). by exists s.
Qed.

Lemma text_codes_exchange market df :
  Forall text_first (rows df) →
  text_codes (exchange_frame market df)
  ∧ (exchange_frame market df = no_frame
     ∨ columns (exchange_frame market df) = exchange_columns).
Proof.
  intros H. unfold exchange_frame.
  destruct (negb (empty df) && bool_decide (4 ≤ length (columns df))%nat).
  2:{ split; [constructor|by left]. }
  unfold assign, assign_with. change (has_column "market" _) with false. cbv iota.
  cbn [columns rows first_columns]. split; [|by right].
  unfold text_codes. cbn [columns rows].
  rewrite !Forall_map. eapply Forall_impl; [exact H|].
  intros r (s & rest & ->). by exists s.
Qed.

Lemma text_codes_concat a b :
  text_codes a → text_codes b →
  a = no_frame ∨ columns a = exchange_columns →
  b = no_frame ∨ columns b = exchange_columns →
  text_codes (concat a b).
Proof.
  intros Ha Hb Hca Hcb. unfold concat.
  destruct Hca as [->|Hca]; [done|].
  rewrite Hca. rewrite bool_decide_eq_false_2 by discriminate.
  destruct Hcb as [->|Hcb]; [done|].
  rewrite Hcb. rewrite bool_decide_eq_false_2 by discriminate.
  unfold text_codes in *. cbn [columns rows]. rewrite Hca in Ha. rewrite Hcb in Hb.
  by apply Forall_app.
Qed.

(** What [fetch_stock_list] keeps of an exchange feed whose codes are
    text: a frame whose codes are text, in the layout of the feeds or
    empty; the database is not touched. *)
Lemma exchange_feed env market r w :
  text_feeds env →
  r = stock_info_sh_name_code ∨ r = stock_info_sz_name_code →
  ∃ feed w',
    try_except (df <- call env r ;; ret (exchange_frame market df))
               (fun _ => ret no_frame) w = (Ok feed, w')
    ∧ store w' = store w
    ∧ text_codes feed
    ∧ (feed = no_frame ∨ columns feed = exchange_columns).
Proof.
  intros Hfeeds Hr. unfold try_except, bind, call.
  destruct (provider env (trace w) r) as [df|e] eqn:E.
  - destruct (text_codes_exchange market df (Hfeeds _ _ _ Hr E)) as [H1 H2].
    by eexists _, _.
  - eexists _, _. repeat split; [constructor|by left].
Qed.

(** With text codes on both sides the merge passes its check, and the
    attempt yields a catalog. *)
Lemma enrich_ok env (primary : list (list value)) (w : World) :
  Forall text_first primary →
  text_feeds env →
  ∃ result w',
    enrich env (mkframe ["code"; "name"] primary) w = (Ok result, w')
    ∧ store w' = store w
    ∧ columns result ≡ₚ ["code"; "name"; "industry"; "area"; "market"; "list_date"]
    ∧ (length primary ≤ length (rows result))%nat.
Proof.
  intros Hprimary Hfeeds.
  pose proof (enrich_keeps env (mkframe ["code"; "name"] primary) w) as Hkeep.
  unfold enrich in *.
  destruct (exchange_feed env "SH" stock_info_sh_name_code w Hfeeds (or_introl eq_refl))
    as (sh & w1 & E1 & _ & Hsh & Csh).
  unfold bind at 1. unfold bind at 1 in Hkeep. rewrite E1 in *.
  destruct (exchange_feed env "SZ" stock_info_sz_name_code w1 Hfeeds (or_intror eq_refl))
    as (sz & w2 & E2 & _ & Hsz & Csz).
  unfold bind at 1. unfold bind at 1 in Hkeep. rewrite E2 in *. cbv zeta in *.
  assert (Hclash : merge_keys_clash "code" (mkframe ["code"; "name"] primary) (concat sh sz)
                   = false).
  { unfold merge_keys_clash.
    rewrite (text_codes_not_numeric _ (text_codes_primary primary Hprimary)).
    rewrite (text_codes_not_numeric _ (text_codes_concat sh sz Hsh Hsz Csh Csz)).
    by rewrite andb_false_r. }
  rewrite Hclash in *.
  set (result := if negb (empty (concat sh sz))
                 then prefer_primary_name
                        (merge_on_code (mkframe ["code"; "name"] primary) (concat sh sz))
                 else assign "market" VNull
                        (assign "area" VNull
                           (assign "industry" VNull (mkframe ["code"; "name"] primary)))).
  assert (Hstep : (if negb (empty (concat sh sz))
                   then ret (prefer_primary_name
                               (merge_on_code (mkframe ["code"; "name"] primary)
                                  (concat sh sz)))
                   else ret (assign "market" VNull
                               (assign "area" VNull
                                  (assign "industry" VNull
                                     (mkframe ["code"; "name"] primary))))) w2
                  = (Ok result, w2)).
  { unfold result. by destruct (negb (empty (concat sh sz))). }
  unfold bind at 1. unfold bind at 1 in Hkeep. rewrite Hstep in *.
  unfold bind at 1. unfold bind at 1 in Hkeep.
  match goal with
  | |- context [try_except ?m ?h w2] =>
      assert (Ht : total (try_except m h));
      [apply total_try_except; intros _; apply total_bind; [apply total_today|];
       intros; apply total_ret|];
      destruct (Ht w2) as [v Ev]; destruct (try_except m h w2) as [rv w3]
  end.
  cbn in Ev. subst rv. cbn [ret] in *.
  eexists _, _. split; [reflexivity|]. split; [exact Hkeep|].
  exact (catalog_shape primary (concat sh sz) (VText v)).
Qed.

(** X8: one attempt of [fetch_stock_list] after the primary feed has
    answered, for feeds that give codes as text (the primary list and the
    two exchange feeds).  An empty answer is handed back as an empty
    frame without any further request; an answer whose column count is
    not two raises [ValueError]; any other answer yields a catalog,
    whether the exchange feeds and the listing-date lookup answer or
    raise: the attempt does not raise, does not touch the database, and
    the catalog has the six columns of the instrument table and at least
    one row for every row of the answer. *)
Theorem X8_list_fetch_after_primary_answer env (self : DataFetcher) (w : World)
    (df : DataFrame) :
  provider env (trace w) stock_info_a_code_name = Returns df →
  Forall text_first (rows df) →
  text_feeds env →
  let out := fetch_stock_list_once env self w in
  let asked := mkworld (store w) (Call stock_info_a_code_name :: trace w) in
  if empty df then out = (Ok no_frame, asked)
  else if bool_decide (length (columns df) = 2%nat)
  then ∃ result, out.1 = Ok result ∧ store out.2 = store w ∧ is_catalog_of df result
  else out = (Err ValueError, asked).
Proof.
  intros H Htext Hfeeds. cbn zeta.
  rewrite (fetch_stock_list_once_answered env self w df H).
  cbn zeta. destruct (empty df); [reflexivity|].
  unfold set_columns. case_bool_decide as Hc.
  - rewrite bool_decide_eq_true_2 by (cbn; congruence).
    destruct (enrich_ok env (rows df)
                (mkworld (store w) (Call stock_info_a_code_name :: trace w)) Htext Hfeeds)
      as (result & w' & E & Hst & Hcols & Hlen).
    exists result. rewrite E. cbn [fst snd]. by repeat split.
  - by rewrite bool_decide_eq_false_2 by (cbn; congruence).
Qed.

(** Two listed instruments, one of them known to the Shanghai feed. *)
Lemma X8_list_fetch_example :
  ∃ result,
    (fetch_stock_list_once shanghai_env (mkfetcher 3 5) fresh).1 = Ok result
    ∧ store (fetch_stock_list_once shanghai_env (mkfetcher 3 5) fresh).2 = store fresh
    ∧ is_catalog_of (mkframe ["code"; "name"]
                       [[VText "600000"; VText "PF Bank"]; [VText "000001"; VText "PA Bank"]])
                    result.
Proof.
  apply (X8_list_fetch_after_primary_answer shanghai_env (mkfetcher 3 5) fresh _ eq_refl).
  - repeat constructor; by eexists _, _.
  - intros tr r df [-> | ->] [= <-]. repeat constructor. by eexists _, _.
Defined.

(** The catalog of that example: the instrument the feed knows carries
    its industry, area and market, the other one has none. *)
Lemma joined_catalog_example :
  (fetch_stock_list_once shanghai_env (mkfetcher 3 5) fresh).1
  = Ok (mkframe ["code"; "industry"; "area"; "market"; "name"; "list_date"]
          [[VText "600000"; VText "Banking"; VText "Shanghai"; VText "SH";
            VText "PF Bank"; VText "2024-01-15"];
           [VText "000001"; VNull; VNull; VNull; VText "PA Bank"; VText "2024-01-15"]]).
Proof. vm_compute. reflexivity. Qed.

(** A feed that gives its codes as integers, against a primary list with
    text codes, fails the check of [pd.merge]: every attempt raises
    [ValueError], and so does [fetch_stock_list] after its three attempts. *)
Lemma integer_codes_example :
  (fetch_stock_list_once integer_codes_env (mkfetcher 3 5) fresh).1 = Err ValueError
  ∧ (fetch_stock_list integer_codes_env (mkfetcher 3 5) fresh).1 = Err ValueError.
Proof. split; vm_compute; reflexivity. Qed.

(** *** Price fetches *)

(** X9: a price fetch whose provider answer is empty is no failure and
    no work: [update_prices] makes that one request, does not retry, does
    not call [save_stock_prices], leaves the database alone and returns. *)
Theorem X9_empty_answer_is_benign env (self : DataFetcher) (code : value)
    (period : string) (w : World) (range : string * string) (df : DataFrame) :
  date_range env period w = (Ok range, w) →
  provider env (trace w) (stock_zh_a_hist code range.1 range.2) = Returns df →
  empty df = true →
  update_prices env self code period w
  = (Ok (), mkworld (store w) (Call (stock_zh_a_hist code range.1 range.2) :: trace w)).
Proof.
  intros Hr Hp He. unfold update_prices, try_except. unfold bind at 1.
  assert (E : fetch_stock_prices env self code period w
              = (Ok df, mkworld (store w)
                          (Call (stock_zh_a_hist code range.1 range.2) :: trace w))).
  { unfold fetch_stock_prices, retry, decorator_tries. apply retry_internal_ok.
    unfold fetch_stock_prices_once. unfold bind at 1. rewrite Hr.
    unfold bind, call. rewrite Hp, He. reflexivity. }
  rewrite E, He. reflexivity.
Qed.

Lemma X9_empty_answer_example :
  update_prices silent_env (mkfetcher 3 5) (VText "600000") "all" fresh
  = (Ok (), mkworld init_database
              [Call (stock_zh_a_hist (VText "600000") "19900101" "20240115")]).
Proof.
  exact (X9_empty_answer_is_benign silent_env (mkfetcher 3 5) (VText "600000") "all" fresh
           ("19900101", "20240115") no_frame eq_refl eq_refl eq_refl).
Defined.

(** *** The provider's own layout *)

Lemma relabel_spec c :
  (∃ kv, kv ∈ column_mapping ∧ kv.1 = c ∧ relabel c = kv.2)
  ∨ (relabel c = c ∧ ∀ kv, kv ∈ column_mapping → kv.1 ≠ c).
Proof.
  unfold relabel.
  destruct (list_find (fun kv => kv.1 = c) column_mapping) as [[i [k v]]|] eqn:E.
  - left. apply list_find_Some in E as (Hi & Hk & _).
    exists (k, v). split; [by eapply list_elem_of_lookup_2|done].
  - right. split; [done|]. apply list_find_None in E.
    rewrite Forall_forall in E. intros kv Hkv. by apply E.
Qed.

Lemma mapping_functional kv kv' :
  kv ∈ column_mapping → kv' ∈ column_mapping → kv.1 = kv'.1 → kv.2 = kv'.2.
Proof.
  assert (H : Forall (fun a => Forall (fun b => a.1 = b.1 → a.2 = b.2) column_mapping)
                     column_mapping)
    by (apply (bool_decide_unpack _); vm_compute; exact I).
  intros Hkv Hkv'. rewrite Forall_forall in H. specialize (H kv Hkv).
  rewrite Forall_forall in H. by apply H.
Qed.

Lemma mapping_injective kv kv' :
  kv ∈ column_mapping → kv' ∈ column_mapping → kv.2 = kv'.2 → kv.1 = kv'.1.
Proof.
  assert (H : Forall (fun a => Forall (fun b => a.2 = b.2 → a.1 = b.1) column_mapping)
                     column_mapping)
    by (apply (bool_decide_unpack _); vm_compute; exact I).
  intros Hkv Hkv'. rewrite Forall_forall in H. specialize (H kv Hkv).
  rewrite Forall_forall in H. by apply H.
Qed.

Lemma mapping_targets kv : kv ∈ column_mapping → kv.2 ∈ canonical_columns.
Proof.
  revert kv. apply Forall_forall. apply (bool_decide_unpack _). vm_compute. exact I.
Qed.

Lemma mapping_sources kv : kv ∈ column_mapping → kv.1 ∉ canonical_columns.
Proof.
  revert kv. apply Forall_forall. apply (bool_decide_unpack _). vm_compute. exact I.
Qed.

Lemma filter_eq_NoDup (n : string) (l : list string) :
  NoDup l → n ∈ l → filter (fun c => c = n) l = [n].
Proof.
  induction l as [|x l IH]; intros Hnd Hin; [by apply elem_of_nil in Hin|].
  apply NoDup_cons in Hnd as [Hx Hnd].
  destruct (decide (x = n)) as [->|Hne].
  - rewrite filter_cons_True by done. f_equal.
    apply filter_none. intros y Hy ->. done.
  - rewrite filter_cons_False by done. apply IH; [done|].
    apply elem_of_cons in Hin as [->|Hin]; done.
Qed.

(** The columns of the frame built from an answer in the provider's
    layout. *)
Lemma canonical_prices_columns code df :
  provider_layout df → columns (canonical_prices code df) = canonical_columns.
Proof.
  intros (Hnd & Hall & Hnone).
  unfold canonical_prices.
  set (cols1 := columns (rename column_mapping df)).
  assert (Hcols1 : cols1 = relabel <$> columns df) by reflexivity.
  assert (Hin1 : ∀ kv, kv ∈ column_mapping → kv.2 ∈ cols1).
  { intros kv Hkv. rewrite Hcols1. apply list_elem_of_fmap. exists kv.1.
    split; [|by apply Hall].
    destruct (relabel_spec kv.1) as [(kv' & Hkv' & Hk & ->)|[_ Hno]].
    - by apply mapping_functional.
    - by destruct (Hno kv Hkv). }
  assert (Hout : ∀ c, c ∈ cols1 → c ∈ canonical_columns → ∃ kv, kv ∈ column_mapping ∧ kv.2 = c).
  { intros c Hc Hcan. rewrite Hcols1 in Hc.
    apply list_elem_of_fmap in Hc as (x & -> & Hx).
    destruct (relabel_spec x) as [(kv & Hkv & Hk & Hr)|[Hr _]].
    - exists kv. by rewrite Hr.
    - rewrite Hr in Hcan. by destruct (Hnone x Hcan). }
  assert (Hcode : "code" ∉ cols1).
  { intros Hc. destruct (Hout "code" Hc) as (kv & Hkv & Hk).
    - apply (bool_decide_unpack _). vm_compute. exact I.
    - assert (H : Forall (fun kv => kv.2 ≠ "code") column_mapping)
        by (apply (bool_decide_unpack _); vm_compute; exact I).
      rewrite Forall_forall in H. by apply (H kv). }
  assert (Hnd1 : NoDup cols1).
  { rewrite Hcols1. apply NoDup_fmap_2_strong; [|done].
    intros x y Hx Hy Hxy.
    destruct (relabel_spec x) as [(kv & Hkv & Hk & Hr)|[Hr Hno]];
      destruct (relabel_spec y) as [(kv' & Hkv' & Hk' & Hr')|[Hr' Hno']].
    - rewrite <- Hk, <- Hk'. apply mapping_injective; congruence.
    - exfalso. apply (Hnone y); [|done].
      rewrite <- Hr', <- Hxy, Hr. by apply mapping_targets.
    - exfalso. apply (Hnone x); [|done].
      rewrite <- Hr, Hxy, Hr'. by apply mapping_targets.
    - congruence. }
  assert (Hassign : assign "code" code (rename column_mapping df)
                    = mkframe (cols1 ++ ["code"])
                        (map (fun r => r ++ [code]) (rows (rename column_mapping df)))).
  { unfold assign, assign_with, has_column. fold cols1.
    by rewrite (bool_decide_eq_false_2 _ Hcode). }
  cbv zeta. rewrite !Hassign. clear Hassign.
  set (df2 := mkframe _ _).
  assert (Hcols2 : columns df2 = cols1 ++ ["code"]) by reflexivity.
  assert (Hnd2 : NoDup (columns df2)).
  { rewrite Hcols2. apply NoDup_app. split; [done|]. split; [|apply NoDup_singleton].
    intros x Hx Hx'. apply list_elem_of_singleton in Hx' as ->. done. }
  assert (Hin2 : ∀ c, c ∈ canonical_columns → c ∈ columns df2).
  { intros c Hc. rewrite Hcols2. apply elem_of_app.
    destruct (decide (c = "code")) as [->|Hne]; [right; by left|left].
    assert (Hex : ∃ kv, kv ∈ column_mapping ∧ kv.2 = c).
    { assert (H : Forall (fun c => c ≠ "code" → Exists (fun kv => kv.2 = c) column_mapping)
                         canonical_columns)
        by (apply (bool_decide_unpack _); vm_compute; exact I).
      rewrite Forall_forall in H. apply Exists_exists. by apply H. }
    destruct Hex as (kv & Hkv & <-). by apply Hin1. }
  assert (Hfold : foldl (fun d c => if has_column c d then d else assign c VNull d)
                        df2 required_columns = df2).
  { assert (Hreq : ∀ c, c ∈ required_columns → has_column c df2 = true).
    { intros c Hc. apply bool_decide_eq_true_2, Hin2.
      unfold canonical_columns. apply elem_of_app. by left. }
    unfold required_columns in *. cbn [foldl].
    by rewrite !Hreq by (apply (bool_decide_unpack _); vm_compute; exact I). }
  rewrite Hfold.
  rewrite (filter_all (fun c => c ∈ columns df2) required_columns)
    by (intros c Hc; apply Hin2, elem_of_app; by left).
  rewrite (filter_all (fun c => c ∈ columns df2) optional_columns)
    by (intros c Hc; apply Hin2, elem_of_app; by right).
  unfold select. cbn [columns].
  change (columns df2) with (cols1 ++ ["code"]) in *.
  unfold required_columns, optional_columns. cbn [app flat_map].
  rewrite !filter_eq_NoDup
    by (try done; apply Hin2; apply (bool_decide_unpack _); vm_compute; exact I).
  reflexivity.
Qed.

(** X10: an answer in the provider's own layout, which supplies all nine
    columns that [fetch_stock_prices] translates, becomes a frame of ten
    columns, code first and [turnover_rate] last; [save_stock_prices]
    refuses every such frame and stores nothing of it. *)
Theorem X10_complete_answers_are_never_stored (code : value) (df : DataFrame)
    (db : Database) :
  provider_layout df → empty df = false →
  columns (canonical_prices code df) = canonical_columns
  ∧ save_stock_prices (canonical_prices code df) db = (Err OperationalError, db).
Proof.
  intros Hl He. pose proof (canonical_prices_columns code df Hl) as Hc.
  split; [exact Hc|]. unfold save_stock_prices.
  assert (Hne : empty (canonical_prices code df) = false).
  { unfold empty. rewrite Hc.
    rewrite bool_decide_eq_false_2 by discriminate. cbn [orb].
    apply bool_decide_eq_false_2.
    unfold empty in He. apply orb_false_iff in He as [_ He].
    apply bool_decide_eq_false in He.
    unfold canonical_prices, select. cbn [rows].
    intros Hr. apply He. apply map_eq_nil in Hr.
    revert Hr. clear.
    set (f := fun d c => if has_column c d then d else assign c VNull d).
    assert (Hf : ∀ l d, rows (foldl f d l) = [] → rows d = []).
    { induction l as [|c l IH]; intros d Hd; [done|]. cbn [foldl] in Hd.
      apply IH in Hd. unfold f in Hd. destruct (has_column c d); [done|].
      unfold assign, assign_with in Hd. destruct (has_column c d); cbn [rows] in Hd;
        by apply map_eq_nil in Hd. }
    intros Hr. apply Hf in Hr. unfold assign, assign_with in Hr.
    destruct (has_column "code" _); cbn [rows] in Hr; by apply map_eq_nil in Hr. }
  rewrite Hne, Hc. reflexivity.
Qed.

(** The layout akshare documents, with one day of history. *)
Lemma X10_akshare_example :
  save_stock_prices
    (canonical_prices (VText "600000")
       (mkframe akshare_columns
          [[VText "2024-01-02"; VText "600000"; VNum 10; VNum 11; VNum 12; VNum 9;
            VNum 1000; VNum 11000; VNum 3; VNum 1; VNum 1; VNum 2]]))
    init_database
  = (Err OperationalError, init_database).
Proof.
  apply X10_complete_answers_are_never_stored; [|reflexivity].
  split; [|split].
  - apply (bool_decide_unpack _). vm_compute. exact I.
  - apply Forall_forall. apply (bool_decide_unpack _). vm_compute. exact I.
  - apply Forall_forall. apply (bool_decide_unpack _). vm_compute. exact I.
Defined.

(** *** The cost of a price fetch *)

Lemma date_range_pure env period w : ∃ r, date_range env period w = (r, w).
Proof.
  unfold date_range, bind, today, of_option.
  repeat case_bool_decide;
    repeat match goal with
           | |- context [sub_days ?n ?d] => destruct (sub_days n d)
           | |- context [Text.contains ?c ?s] => destruct (Text.contains c s)
           | |- context [Text.split ?c ?s !! ?i] => destruct (Text.split c s !! i)
           end; by eexists.
Qed.

(** One attempt asks the provider at most once, and about [code]. *)
Lemma fetch_once_step env self code period st tr :
  ∃ r e, fetch_stock_prices_once env self code period (mkworld st tr)
         = (r, mkworld st (e ++ tr))
         ∧ (e = [] ∨ ∃ a b, e = [Call (stock_zh_a_hist code a b)]).
Proof.
  unfold fetch_stock_prices_once. unfold bind at 1.
  destruct (date_range_pure env period (mkworld st tr)) as [[rng|err] E]; rewrite E.
  - unfold bind, call. cbn [store trace].
    destruct (provider env tr _) as [df|err].
    + destruct (negb (empty df)); eexists _, [_]; (split; [reflexivity|right; by eexists _, _]).
    + eexists _, [_]. split; [reflexivity|right; by eexists _, _].
  - eexists _, []. split; [reflexivity|by left].
Qed.

(** X11: whatever the provider does, one call of [fetch_stock_prices]
    asks it at most three times, always about the requested code, sleeps
    at most six seconds in between, and does not touch the database. *)
Theorem X11_price_fetch_is_bounded env (self : DataFetcher) (code : value)
    (period : string) (w : World) :
  let fetch := fetch_stock_prices env self code period in
  (length (filter is_price_request (new_events fetch w)) ≤ 3)%nat
  ∧ 0 <= seconds_slept (new_events fetch w) <= 6
  ∧ Forall (sleep_or_request_for code) (new_events fetch w)
  ∧ store (fetch w).2 = store w.
Proof.
  cbn zeta. destruct w as [st tr].
  assert (H : ∃ evs, (fetch_stock_prices env self code period (mkworld st tr)).2
                     = mkworld st (evs ++ tr)
                     ∧ (length (filter is_price_request evs) ≤ 3)%nat
                     ∧ 0 <= seconds_slept evs <= 6
                     ∧ Forall (sleep_or_request_for code) evs).
  { unfold fetch_stock_prices, retry, decorator_tries, decorator_delay, decorator_backoff.
    cbn [retry_internal].
    destruct (fetch_once_step env self code period st tr) as (r1 & e1 & E1 & H1).
    rewrite E1. destruct r1 as [df|err].
    { exists e1. split; [reflexivity|].
      destruct H1 as [->|(a & b & ->)]; cbn; repeat split; try lia; repeat constructor. }
    unfold bind at 1. cbn [sleep emit store trace].
    destruct (fetch_once_step env self code period st (Sleep 2 :: e1 ++ tr))
      as (r2 & e2 & E2 & H2).
    rewrite E2. destruct r2 as [df|err2].
    { exists (e2 ++ Sleep 2 :: e1). split; [by rewrite <- app_assoc|].
      destruct H1 as [->|(a & b & ->)], H2 as [->|(a' & b' & ->)]; cbn;
        repeat split; try lia; repeat constructor. }
    unfold bind at 1. cbn [sleep emit store trace].
    destruct (fetch_once_step env self code period st (Sleep (2 * 2) :: e2 ++ Sleep 2 :: e1 ++ tr))
      as (r3 & e3 & E3 & H3).
    rewrite E3. exists (e3 ++ Sleep 4 :: e2 ++ Sleep 2 :: e1).
    split.
    { destruct r3; cbn [snd]; f_equal; rewrite <- !app_assoc; cbn [app];
        by rewrite <- !app_assoc. }
    destruct H1 as [->|(a & b & ->)], H2 as [->|(a' & b' & ->)], H3 as [->|(a'' & b'' & ->)];
      cbn; repeat split; try lia; repeat constructor. }
  destruct H as (evs & E & H1 & H2 & H3).
  rewrite (new_events_app _ _ evs) by (by rewrite E).
  split; [exact H1|]. split; [exact H2|]. split; [exact H3|]. by rewrite E.
Qed.

End CatalogFacts.

(* ===================================================================== *)
(** ** Further properties of the loops *)
(* ===================================================================== *)

Module LoopFacts.
Import Frames Store Calendar Effects Fetcher Updater Spec Scenarios Reads EffectFacts
  CatalogFacts UpdaterFacts.
Local Open Scope monad_scope.

(** *** The rate limiter *)

(** The retry loop only sleeps delays it reaches from the first one by
    multiplying with the backoff. *)
Lemma emits_retry_delays {A} (P : event → Prop) (D : Z → Prop) (f : M A) backoff tries :
  ∀ delay,
    emits P f → D delay → (∀ d, D d → D (d * backoff)) → (∀ d, D d → P (Sleep d)) →
    emits P (retry_internal f tries delay backoff).
Proof.
  induction tries as [|n IH]; intros delay Hf Hd Hstep HP.
  - apply emits_raise.
  - intros w. destruct (Hf w) as (evs & E & F). cbn [retry_internal].
    destruct (f w) as [[a|e] w1]; cbn [snd] in E |- *; [by exists evs|].
    destruct n as [|n]; [by exists evs|].
    assert (Hrest : emits P (sleep delay ;;; retry_internal f (S n) (delay * backoff) backoff)).
    { apply emits_bind; [apply emits_sleep; by apply HP|]. intros _.
      apply IH; auto. }
    destruct (Hrest w1) as (evs' & E' & F'). exists (evs' ++ evs).
    split; [by rewrite E', E, app_assoc|by apply Forall_app].
Qed.

Lemma emits_retry_no_pause {A} (f : M A) : emits no_pause f → emits no_pause (retry f).
Proof.
  intros Hf. unfold retry, decorator_delay, decorator_backoff.
  apply (emits_retry_delays no_pause (fun d => d mod 2 = 0)); [done|done| |].
  - intros d Hd. apply Z.mod_mul. lia.
  - intros d Hd [= ->]. discriminate Hd.
Qed.

Lemma update_prices_no_pause env self code period :
  emits no_pause (update_prices env self code period).
Proof.
  unfold update_prices. apply emits_try_except; [|intros; apply emits_ret].
  apply emits_bind.
  - apply emits_retry_no_pause. unfold fetch_stock_prices_once, date_range.
    emits_steps ltac:(done).
  - intros df. destruct (negb (empty df)); [by apply emits_db_call|apply emits_ret].
Qed.

Lemma update_concepts_no_pause env self code :
  emits no_pause (update_concepts env self code).
Proof.
  unfold update_concepts. apply emits_try_except; [|intros; apply emits_ret].
  apply emits_bind.
  - apply emits_retry_no_pause. unfold fetch_stock_concepts_once.
    apply emits_bind; [apply emits_first_answer; intros; done|].
    intros df. destruct (negb (empty df)); [|apply emits_ret].
    destruct (take 10 _); apply emits_ret.
  - intros df. destruct (negb (empty df)); [by apply emits_db_call|apply emits_ret].
Qed.

Lemma pauses_app a b : pauses (a ++ b) = (pauses a + pauses b)%nat.
Proof. unfold pauses. by rewrite filter_app, length_app. Qed.

Lemma pauses_none evs : Forall no_pause evs → pauses evs = 0%nat.
Proof.
  intros H. unfold pauses. rewrite ReadFacts.filter_none; [done|].
  rewrite Forall_forall in H. intros x Hx. by apply H.
Qed.

(** One iteration of the loop of [update_all_data] pauses exactly when
    its instrument is a fifth one and not the last. *)
Lemma update_one_pauses env self price_period cols total_stocks i row counts w :
  ∃ evs, trace (update_one env self price_period cols total_stocks i row counts w).2
         = evs ++ trace w
         ∧ pauses evs = if ((i + 1) mod 5 =? 0)%nat && (i + 1 <? total_stocks)%nat
                        then 1%nat else 0%nat.
Proof.
  unfold update_one, try_except. unfold bind at 1.
  destruct (FetcherFacts.update_prices_total env self (cell "code" cols row) price_period w)
    as [[] E1].
  destruct (update_prices_no_pause env self (cell "code" cols row) price_period w)
    as (e1 & T1 & F1).
  destruct (update_prices env self (cell "code" cols row) price_period w) as [r1 w1].
  cbn [fst snd] in *. subst r1. unfold bind at 1.
  destruct (FetcherFacts.update_concepts_total env self (cell "code" cols row) w1)
    as [[] E2].
  destruct (update_concepts_no_pause env self (cell "code" cols row) w1) as (e2 & T2 & F2).
  destruct (update_concepts env self (cell "code" cols row) w1) as [r2 w2].
  cbn [fst snd] in *. subst r2. unfold bind, rate_limit.
  destruct (_ && _); cbn.
  - exists (Sleep 3 :: e2 ++ e1). split; [by rewrite T2, T1, app_assoc|].
    change (Sleep 3 :: e2 ++ e1) with ([Sleep 3] ++ e2 ++ e1).
    rewrite !pauses_app, (pauses_none e2), (pauses_none e1) by done. reflexivity.
  - exists (e2 ++ e1). split; [by rewrite T2, T1, app_assoc|].
    by rewrite !pauses_app, (pauses_none e2), (pauses_none e1).
Qed.

Lemma pause_arithmetic (i total_stocks : nat) :
  (i + 1 ≤ total_stocks)%nat →
  ((if ((i + 1) mod 5 =? 0)%nat && (i + 1 <? total_stocks)%nat then 1 else 0)
   + ((total_stocks - 1) / 5 - (i + 1) / 5)
   = (total_stocks - 1) / 5 - i / 5)%nat.
Proof.
  intros H.
  pose proof (Nat.div_mod_eq (i + 1) 5). pose proof (Nat.div_mod_eq i 5).
  pose proof (Nat.div_mod_eq (total_stocks - 1) 5).
  pose proof (Nat.mod_upper_bound (i + 1) 5 ltac:(lia)).
  pose proof (Nat.mod_upper_bound i 5 ltac:(lia)).
  pose proof (Nat.mod_upper_bound (total_stocks - 1) 5 ltac:(lia)).
  destruct (Nat.eqb_spec ((i + 1) mod 5) 0) as [Hm|Hm];
    destruct (Nat.ltb_spec (i + 1) total_stocks) as [Hl|Hl]; cbn [andb]; lia.
Qed.

Lemma update_loop_pauses env self price_period cols total_stocks catalog :
  ∀ i counts w,
    total_stocks = (i + length catalog)%nat →
    ∃ evs, trace (for_rows (update_one env self price_period cols total_stocks)
                           i catalog counts w).2 = evs ++ trace w
           ∧ pauses evs = ((total_stocks - 1) / 5 - i / 5)%nat.
Proof.
  induction catalog as [|row catalog IH]; intros i counts w Ht; cbn [for_rows].
  - exists []. split; [done|]. cbn [length] in Ht. subst total_stocks.
    replace (i + 0)%nat with i by lia. unfold pauses. cbn [filter length].
    change (length (filter _ [])) with 0%nat.
    assert ((i - 1) / 5 ≤ i / 5)%nat by (apply Nat.Div0.div_le_mono; lia). lia.
  - unfold bind.
    destruct (update_one_pauses env self price_period cols total_stocks i row counts w)
      as (e1 & T1 & P1).
    pose proof (FetcherFacts.update_one_counts env self price_period cols total_stocks
                  i row counts w) as Hc.
    destruct (update_one _ _ _ _ _ _ _ _ _) as [r1 w1]. cbn [fst snd] in *. subst r1.
    destruct (IH (S i) (S counts.1, counts.2) w1) as (e2 & T2 & P2).
    { cbn [length] in Ht. lia. }
    exists (e2 ++ e1). split; [by rewrite T2, T1, app_assoc|].
    rewrite pauses_app, P1, P2. replace (S i) with (i + 1)%nat by lia.
    rewrite Nat.add_comm. apply pause_arithmetic. cbn [length] in Ht. lia.
Qed.

(** X12: over a catalog of [n] instruments the loop of [update_all_data]
    pauses three seconds after every fifth instrument except the last
    one: the integer quotient of [n - 1] by five, times, whatever the
    provider does. *)
Theorem X12_rate_limiter_pauses env (self : DataFetcher) (price_period : string)
    (cols : list string) (catalog : list (list value)) (counts : nat * nat) (w : World) :
  pauses (new_events (for_rows (update_one env self price_period cols (length catalog))
                               0 catalog counts) w)
  = ((length catalog - 1) / 5)%nat.
Proof.
  destruct (update_loop_pauses env self price_period cols (length catalog) catalog
              0%nat counts w eq_refl) as (evs & T & P).
  rewrite (new_events_app _ _ evs T), P. cbn. lia.
Qed.

(** *** What can raise *)

Lemma total_emit ev : total (emit ev).
Proof. intros w. by eexists. Qed.

Lemma update_one_total env self price_period cols total_stocks i row counts :
  total (update_one env self price_period cols total_stocks i row counts).
Proof. unfold update_one. apply total_try_except. intros; apply total_ret. Qed.

Lemma main_one_total env fetcher price_period cols i row counts :
  total (main_one env fetcher price_period cols i row counts).
Proof. unfold main_one. apply total_try_except. intros; apply total_ret. Qed.

(** X13: [update_all_data] never raises, whatever the provider and the
    database do and whatever the limit is; and [download_all_stocks_data]
    never raises in either mode, so that the handler of
    [update_daily_data] is never needed: a daily update is the incremental
    run over the whole history. *)
Theorem X13_runs_never_raise env (w : World) :
  (∀ self stock_limit price_period,
     (update_all_data env self stock_limit price_period w).1 = Ok ())
  ∧ (∀ self price_period incremental,
       ∃ status, (download_all_stocks_data env self price_period incremental w).1 = Ok status)
  ∧ ∀ self, update_daily_data env self w = download_all_stocks_data env self "all" true w.
Proof.
  split; [|split].
  - intros self stock_limit price_period.
    assert (H : total (update_all_data env self stock_limit price_period)).
    { unfold update_all_data. apply total_bind.
      - apply total_try_except. intros; apply total_ret.
      - intros [stock_list|]; [|apply total_ret].
        destruct (negb (empty stock_list)); [|apply total_ret]. cbv zeta.
        apply total_bind; [|intros; apply total_emit].
        apply for_rows_total. intros. apply update_one_total. }
    destruct (H w) as [[] E]. exact E.
  - intros self price_period incremental. unfold download_all_stocks_data.
    apply total_try_except. intros; apply total_ret.
  - intros self. unfold update_daily_data, try_except.
    assert (H : total (download_all_stocks_data env self "all" true)).
    { unfold download_all_stocks_data. apply total_try_except. intros; apply total_ret. }
    destruct (H w) as [status E].
    destruct (download_all_stocks_data env self "all" true w) as [r w'].
    cbn in E. by subst r.
Qed.

(** X14: [main] raises only from its catalog stage.  When the list fetch
    raises, [main] raises the same exception; an empty list ends [main]
    quietly; when the catalog cannot be stored, [main] raises that error;
    once the catalog is stored, no failure of any instrument makes [main]
    raise. *)
Theorem X14_main_raises_only_from_the_catalog env (args : Args) (w : World) :
  let fetcher := mkfetcher (arg_max_retries args) (arg_retry_delay args) in
  match fetch_stock_list env fetcher w with
  | (Err e, w1) => main env args w = (Err e, w1)
  | (Ok stock_list, w1) =>
      if empty stock_list then main env args w = (Ok (), w1)
      else match save_stock_info (limited args stock_list) (store w1) with
           | (Err e, db) => main env args w = (Err e, mkworld db (Db SaveStockInfo :: trace w1))
           | (Ok _, _) => (main env args w).1 = Ok ()
           end
  end.
Proof.
  cbn zeta.
  destruct (fetch_stock_list env _ w) as [[stock_list|e] w1] eqn:E.
  2: { unfold main. cbv zeta. unfold bind at 1. by rewrite E. }
  destruct (empty stock_list) eqn:Hempty.
  { unfold main. cbv zeta. unfold bind at 1. by rewrite E, Hempty. }
  destruct (save_stock_info (limited args stock_list) (store w1)) as [[[]|e] db] eqn:Es.
  2: { unfold main. cbv zeta. unfold bind at 1. rewrite E, Hempty. cbn [negb].
       fold (limited args stock_list). unfold bind at 1. unfold db_call at 1.
       by rewrite Es. }
  unfold main. cbv zeta. unfold bind at 1. rewrite E, Hempty. cbn [negb].
  fold (limited args stock_list). unfold bind at 1. unfold db_call at 1. rewrite Es.
  match goal with
  | |- (bind ?m ?k ?w0).1 = _ =>
      assert (H : total (bind m k));
      [|destruct (H w0) as [[] E0]; exact E0]
  end.
  apply total_bind; [|intros; apply total_emit].
  apply for_rows_total. intros. apply main_one_total.
Qed.

(** *** Instruments without a usable watermark *)

(** X15: for an instrument that has no watermark, or one that is empty,
    the incremental loop does exactly what the loop of [update_all_data]
    does: it fetches the configured period. *)
Theorem X15_no_watermark_means_full_fetch env (self : StockDataUpdater)
    (price_period : string) (latest_dates : gmap value value) (cols : list string)
    (total_stocks i : nat) (row : list value) (counts : nat * nat) :
  (latest_dates !! cell "code" cols row = None
   ∨ ∃ v, latest_dates !! cell "code" cols row = Some v ∧ truthy v = false) →
  refresh_one env self price_period latest_dates cols total_stocks i row counts
  = update_one env (fetcher self) price_period cols total_stocks i row counts.
Proof.
  intros H. unfold refresh_one, update_one, plan_and_fetch.
  destruct H as [->|(v & -> & ->)]; reflexivity.
Qed.

Lemma X15_no_watermark_example :
  refresh_one abc_env new_updater "all" (watermark_A "2024-01-10") ["code"; "name"] 3 1
    [VText "B"; VText "Beta"] (1%nat, 0%nat)
  = update_one abc_env (mkfetcher 3 5) "all" ["code"; "name"] 3 1
      [VText "B"; VText "Beta"] (1%nat, 0%nat).
Proof.
  apply (X15_no_watermark_means_full_fetch abc_env new_updater). left. reflexivity.
Defined.

(** X16: a watermark that [strptime] cannot read with ['%Y-%m-%d'] makes
    the incremental loop give the instrument up at once: nothing is
    requested for it, neither prices nor concepts, the rate limiter is
    skipped, nothing is written, and the instrument is counted as failed.
    Such a watermark is a value that is not text, or ASCII text that does
    not spell a date in that form. *)
Theorem X16_unreadable_watermark_fails_the_instrument env (self : StockDataUpdater)
    (price_period : string) (latest_dates : gmap value value) (cols : list string)
    (total_stocks i : nat) (row : list value) (counts : nat * nat) (w : World)
    (v : value) :
  latest_dates !! cell "code" cols row = Some v →
  truthy v = true →
  (∀ s, v = VText s → Text.is_ascii s = true ∧ strptime_iso s = None) →
  refresh_one env self price_period latest_dates cols total_stocks i row counts w
  = (Ok (counts.1, S counts.2), w).
Proof.
  intros Hl Ht Hbad. unfold refresh_one, try_except. unfold bind at 1.
  unfold plan_and_fetch. rewrite Hl, Ht. unfold bind at 1. unfold strptime.
  destruct v as [|s|z]; [discriminate| |reflexivity].
  by rewrite (proj2 (Hbad s eq_refl)).
Qed.

(** A watermark stored in the compact form. *)
Lemma X16_unreadable_watermark_example :
  refresh_one abc_env new_updater "all" (watermark_A "20240110") ["code"; "name"] 3 0
    row_A (0%nat, 0%nat) fresh
  = (Ok (0%nat, 1%nat), fresh).
Proof.
  apply (X16_unreadable_watermark_fails_the_instrument abc_env new_updater "all"
           (watermark_A "20240110") ["code"; "name"] 3 0 row_A (0%nat, 0%nat) fresh
           (VText "20240110")); [reflexivity|reflexivity|].
  intros s [= <-]. split; reflexivity.
Defined.

(** *** The counts *)

Lemma counted_once_step (m : M (nat * nat)) (counts : nat * nat) w :
  returns (fun c => c = (S counts.1, counts.2)) m →
  ∃ c, (try_except m (fun _ => ret (counts.1, S counts.2)) w).1 = Ok c
       ∧ (c.1 + c.2 = S (counts.1 + counts.2))%nat.
Proof.
  intros Hm. unfold try_except.
  destruct (m w) as [[c|e] w'] eqn:E.
  - exists c. split; [done|]. apply Hm in E. subst c. cbn. lia.
  - exists (counts.1, S counts.2). split; [done|]. cbn. lia.
Qed.

Lemma counted_once_loop {A} (body : nat → A → nat * nat → M (nat * nat)) l :
  (∀ i r c w, ∃ c', (body i r c w).1 = Ok c' ∧ (c'.1 + c'.2 = S (c.1 + c.2))%nat) →
  ∀ i c w, ∃ c', (for_rows body i l c w).1 = Ok c'
                 ∧ (c'.1 + c'.2 = length l + (c.1 + c.2))%nat.
Proof.
  intros Hb. induction l as [|r l IH]; intros i c w; cbn [for_rows].
  - exists c. by split.
  - unfold bind. destruct (Hb i r c w) as (c1 & E1 & H1).
    destruct (body i r c w) as [r1 w1]. cbn in E1. subst r1.
    destruct (IH (S i) c1 w1) as (c2 & E2 & H2).
    exists c2. split; [done|]. cbn [length]. lia.
Qed.

(** X17: the loops of the incremental run and of [main] count every
    instrument exactly once, as a success or as a failure: after a
    catalog of [n] instruments the two counts have grown by [n] together,
    whatever the provider and the database do. *)
Theorem X17_every_instrument_is_counted_once env (catalog : list (list value))
    (counts : nat * nat) (w : World) :
  (∀ self price_period latest_dates cols total_stocks i,
     ∃ c, (for_rows (refresh_one env self price_period latest_dates cols total_stocks)
                    i catalog counts w).1 = Ok c
          ∧ (c.1 + c.2 = length catalog + (counts.1 + counts.2))%nat)
  ∧ (∀ fetcher price_period cols i,
       ∃ c, (for_rows (main_one env fetcher price_period cols) i catalog counts w).1 = Ok c
            ∧ (c.1 + c.2 = length catalog + (counts.1 + counts.2))%nat).
Proof.
  split.
  - intros. apply counted_once_loop. intros j r c w0.
    unfold refresh_one. apply counted_once_step.
    apply returns_bind. intros _. apply returns_bind. intros _.
    apply returns_bind. intros _. by apply returns_ret.
  - intros. apply counted_once_loop. intros j r c w0.
    unfold main_one. apply counted_once_step.
    apply returns_bind. intros df. apply returns_bind. intros _.
    apply returns_bind. intros cf. apply returns_bind. intros _.
    apply returns_bind. intros _. by apply returns_ret.
Qed.

End LoopFacts.
